(** * Document structure extraction: a shallow embedding of
      [document_processor.py] and of the history buffer of [ai_agent.py].

    Python [str] values are modelled as lists of 8-bit characters, read as
    the code points U+0000..U+00FF; the character classes below are the
    ones CPython's [re] module and [str] methods use on that range. *)

From Stdlib Require Import Ascii String DecimalString.
From Stdlib Require Import Sorted.
From Stdlib Require Import Bool Arith Lia List.
Import ListNotations.

Set Implicit Arguments.

Definition text := list ascii.

(** String literals of the source are written [str "..."]. *)
Definition str (s : string) : text := list_ascii_of_string s.

Definition nl : ascii := ascii_of_nat 10.

Definition text_eqb (a b : text) : bool :=
  if list_eq_dec ascii_dec a b then true else false.

(** ** Character classes *)

Module Char.

Definition code (c : ascii) : nat := nat_of_ascii c.

Definition between (lo hi : nat) (c : ascii) : bool :=
  (lo <=? code c) && (code c <=? hi).

(** [str.isspace] on one character, also the regex class [\s]. *)
Definition is_space (c : ascii) : bool :=
  between 9 13 c || between 28 32 c || (code c =? 133) || (code c =? 160).

(** The regex class [\d]: decimal digits. *)
Definition is_digit (c : ascii) : bool := between 48 57 c.

(** The regex class [\w]: alphanumeric characters and the underscore. *)
Definition is_word (c : ascii) : bool :=
  between 48 57 c || between 65 90 c || (code c =? 95) || between 97 122 c
  || (code c =? 170) || between 178 179 c || (code c =? 181)
  || between 185 186 c || between 188 190 c
  || between 192 214 c || between 216 246 c || between 248 255 c.

(** Simple lower-casing, as the regex engine applies it under IGNORECASE. *)
Definition to_lower (c : ascii) : ascii :=
  if between 65 90 c || between 192 214 c || between 216 222 c
  then ascii_of_nat (code c + 32) else c.

End Char.

(** ** Regular expressions

    The fragment of Python's regex syntax that the source uses, and a
    backtracking matcher with the priorities of CPython's engine: greedy
    repetition tries the longest run first, lazy repetition the shortest,
    alternation the left branch first, and a lookahead is atomic. *)

Module Re.

Inductive catom : Type :=
| CLit (c : ascii)            (* a literal character *)
| CRange (lo hi : ascii)      (* lo-hi inside brackets *)
| CSpace                      (* \s *)
| CDigit                      (* \d *)
| CWord.                      (* \w *)

Inductive cset : Type :=
| Dot                         (* . *)
| Cls (items : list catom).   (* a literal, an escape or [...] *)

Inductive regex : Type :=
| Eps
| One (c : cset)
| Seq (r1 r2 : regex)
| Alt (r1 r2 : regex)
| Rep (greedy : bool) (lo : nat) (hi : option nat) (c : cset)
| Group (r : regex)           (* ( ... ), the pattern's group 1 *)
| Look (r : regex)            (* (?= ... ) *)
| EndZ.                       (* \Z *)

Record flags : Type := Flags { IGNORECASE : bool; DOTALL : bool }.

Definition no_flags : flags := Flags false false.

Module Import Syntax.
Declare Scope re_scope.
Delimit Scope re_scope with re.
Infix ">>" := Seq (at level 41, right associativity) : re_scope.
Infix "<|>" := Alt (at level 42, right associativity) : re_scope.
End Syntax.

Definition chr (c : ascii) : regex := One (Cls [CLit c]).

(** A run of literal characters of the pattern. *)
Fixpoint lit (s : text) : regex :=
  match s with
  | [] => Eps
  | c :: s' => Seq (chr c) (lit s')
  end.

Section Matcher.

Variable fl : flags.

Definition fold_case (c : ascii) : ascii :=
  if IGNORECASE fl then Char.to_lower c else c.

(** Under IGNORECASE a range stands for the lower-cased characters of
    the range, and the subject character is lower-cased before the
    test. *)
Definition atom_match (a : catom) (c : ascii) : bool :=
  match a with
  | CLit x => if ascii_dec (fold_case c) (fold_case x) then true else false
  | CRange lo hi =>
      if IGNORECASE fl then
        existsb (fun i => if ascii_dec (Char.to_lower (ascii_of_nat i)) (Char.to_lower c)
                          then true else false)
                (seq (Char.code lo) (S (Char.code hi) - Char.code lo))
      else Char.between (Char.code lo) (Char.code hi) c
  | CSpace => Char.is_space (fold_case c)
  | CDigit => Char.is_digit (fold_case c)
  | CWord => Char.is_word (fold_case c)
  end.

Definition cset_match (cs : cset) (c : ascii) : bool :=
  match cs with
  | Dot => DOTALL fl || negb (if ascii_dec c nl then true else false)
  | Cls items => existsb (fun a => atom_match a c) items
  end.

Definition more (hi : option nat) : bool :=
  match hi with None => true | Some n => 0 <? n end.

Definition less (hi : option nat) : option nat :=
  match hi with None => None | Some n => Some (pred n) end.

Section Repeat.
Variable R : Type.
Variable m : ascii -> bool.

(** Exactly [n] characters of the class. *)
Fixpoint rep_min (n : nat) (s : text) (k : text -> option R) : option R :=
  match n with
  | 0 => k s
  | S n' =>
      match s with
      | c :: s' => if m c then rep_min n' s' k else None
      | [] => None
      end
  end.

(** At most [hi] further characters, longest run first. *)
Fixpoint rep_greedy (hi : option nat) (s : text) (k : text -> option R) : option R :=
  match s with
  | c :: s' =>
      if m c && more hi then
        match rep_greedy (less hi) s' k with
        | Some x => Some x
        | None => k s
        end
      else k s
  | [] => k s
  end.

(** At most [hi] further characters, shortest run first. *)
Fixpoint rep_lazy (hi : option nat) (s : text) (k : text -> option R) : option R :=
  match k s with
  | Some x => Some x
  | None =>
      match s with
      | c :: s' => if m c && more hi then rep_lazy (less hi) s' k else None
      | [] => None
      end
  end.
End Repeat.

Definition room (lo : nat) (hi : option nat) : option nat :=
  match hi with None => None | Some h => Some (h - lo) end.

(** [bt r s g k]: match [r] at the head of [s], with [g] the current
    value of group 1, and pass the rest of the subject and the group to
    [k]; [None] makes the matcher backtrack. *)
Fixpoint bt (R : Type) (r : regex) (s : text) (g : option text)
         (k : text -> option text -> option R) {struct r} : option R :=
  match r with
  | Eps => k s g
  | One cs =>
      match s with
      | c :: s' => if cset_match cs c then k s' g else None
      | [] => None
      end
  | Seq r1 r2 => bt r1 s g (fun s' g' => bt r2 s' g' k)
  | Alt r1 r2 =>
      match bt r1 s g k with
      | Some x => Some x
      | None => bt r2 s g k
      end
  | Rep greedy lo hi cs =>
      rep_min (cset_match cs) lo s (fun s1 =>
        (if greedy then @rep_greedy R else @rep_lazy R)
          (cset_match cs) (room lo hi) s1 (fun s2 => k s2 g))
  | Group r1 =>
      bt r1 s g (fun s' _ => k s' (Some (firstn (length s - length s') s)))
  | Look r1 =>
      match bt r1 s g (fun _ g' => Some g') with
      | Some g' => k s g'
      | None => None
      end
  | EndZ =>
      match s with
      | [] => k s g
      | _ :: _ => None
      end
  end.

(** One attempt at the head of [s]; [adv] is the engine's
    [must_advance], which refuses an empty match there. *)
Definition match_here (r : regex) (adv : bool) (s : text)
  : option (text * option text) :=
  bt r s None (fun s' g =>
    if adv && (length s' =? length s) then None else Some (s', g)).

(** Leftmost match: the offset of its start, the subject after its end
    and group 1. *)
Fixpoint search_from (r : regex) (adv : bool) (s : text)
  : option (nat * text * option text) :=
  match match_here r adv s with
  | Some (s', g) => Some (0, s', g)
  | None =>
      match s with
      | [] => None
      | _ :: t =>
          match search_from r false t with
          | Some (i, s', g) => Some (S i, s', g)
          | None => None
          end
      end
  end.

Definition group1 (g : option text) : text :=
  match g with Some c => c | None => [] end.

(** The scanning loop shared by [findall] and [split]: successive
    leftmost matches, each search starting where the previous match
    ended.  Every round either shortens the subject or sets
    [must_advance], so [2 * length s + 2] rounds are enough. *)
Fixpoint scan (r : regex) (fuel : nat) (adv : bool) (s : text)
  : list (text * option text) * text :=
  match fuel with
  | 0 => ([], s)
  | S f =>
      match search_from r adv s with
      | None => ([], s)
      | Some (i, s', g) =>
          let '(ms, last) :=
            scan r f (length s' =? length (skipn i s)) s' in
          ((firstn i s, g) :: ms, last)
      end
  end.

Definition scan_all (r : regex) (s : text) : list (text * option text) * text :=
  scan r (2 * length s + 2) false s.

(** [re.findall] for a pattern with one group: group 1 of every match. *)
Definition findall (r : regex) (s : text) : list text :=
  map (fun m => group1 (snd m)) (fst (scan_all r s)).

(** [re.search(...)] followed by [.group(1)]. *)
Definition search_group1 (r : regex) (s : text) : option text :=
  match search_from r false s with
  | Some (_, _, g) => Some (group1 g)
  | None => None
  end.

(** [re.split] for a pattern without groups: the pieces between the
    matches and the piece after the last one. *)
Definition split (r : regex) (s : text) : list text :=
  let '(ms, last) := scan_all r s in map fst ms ++ [last].

End Matcher.

End Re.

Import Re.Syntax.

(** ** Python string methods *)

Module Str.

Fixpoint lstrip (s : text) : text :=
  match s with
  | c :: s' => if Char.is_space c then lstrip s' else s
  | [] => []
  end.

Definition rstrip (s : text) : text := rev (lstrip (rev s)).

(** [s.strip()] *)
Definition strip (s : text) : text := rstrip (lstrip s).

(** [s.split()]: the maximal runs of non-whitespace characters.
    [cur] is the token being read, reversed. *)
Fixpoint split_ws_aux (cur : text) (s : text) : list text :=
  match s with
  | [] => match cur with [] => [] | _ => [rev cur] end
  | c :: s' =>
      if Char.is_space c then
        match cur with
        | [] => split_ws_aux [] s'
        | _ => rev cur :: split_ws_aux [] s'
        end
      else split_ws_aux (c :: cur) s'
  end.

Definition split_ws (s : text) : list text := split_ws_aux [] s.

(** [str(n)] for a non-negative integer. *)
Definition of_nat (n : nat) : text :=
  str (NilZero.string_of_uint (Nat.to_uint n)).

End Str.

(** ** Python dictionaries, in insertion order *)

Module Dict.

Definition dict (V : Type) := list (text * V).

Section Ops.
Variable V : Type.

Fixpoint get (d : dict V) (k : text) : option V :=
  match d with
  | [] => None
  | (k', v) :: d' => if text_eqb k' k then Some v else get d' k
  end.

Definition mem (d : dict V) (k : text) : bool :=
  match get d k with Some _ => true | None => false end.

(** [d[k] = v]: an existing key keeps its place, a new one goes last. *)
Fixpoint set (d : dict V) (k : text) (v : V) : dict V :=
  match d with
  | [] => [(k, v)]
  | (k', v') :: d' =>
      if text_eqb k' k then (k', v) :: d' else (k', v') :: set d' k v
  end.

(** [d[k]] where the key is known to be present. *)
Definition item (d : dict V) (k : text) (dflt : V) : V :=
  match get d k with Some v => v | None => dflt end.

Definition keys (d : dict V) : list text := map fst d.

End Ops.

End Dict.

(** ** [DocumentProcessor._identify_sections] *)

(** [(?=\n[A-Z\s]{3,}\n|\n\d+\.|\Z)] *)
Definition body_lookahead : Re.regex :=
  Re.Look
    ((Re.chr nl >> Re.Rep true 3 None (Re.Cls [Re.CRange "A" "Z"; Re.CSpace]) >> Re.chr nl)
     <|> (Re.chr nl >> Re.Rep true 1 None (Re.Cls [Re.CDigit]) >> Re.chr ".")
     <|> Re.EndZ)%re.

(** [(?=\Z)] *)
Definition end_lookahead : Re.regex := Re.Look Re.EndZ.

(** [KEYWORD\s*\n(.*?)(?=...)] *)
Definition heading (kw : string) (look : Re.regex) : Re.regex :=
  (Re.lit (str kw) >> Re.Rep true 0 None (Re.Cls [Re.CSpace]) >> Re.chr nl
   >> Re.Group (Re.Rep false 0 None Re.Dot) >> look)%re.

Definition section_patterns : list (Re.regex * text) :=
  [ (heading "ABSTRACT" body_lookahead, str "Abstract");
    (heading "INTRODUCTION" body_lookahead, str "Introduction");
    (heading "METHODOLOGY" body_lookahead, str "Methodology");
    (heading "METHODS" body_lookahead, str "Methods");
    (heading "RESULTS" body_lookahead, str "Results");
    (heading "DISCUSSION" body_lookahead, str "Discussion");
    (heading "CONCLUSION" body_lookahead, str "Conclusion");
    (heading "CONCLUSIONS" body_lookahead, str "Conclusions");
    (heading "REFERENCES" end_lookahead, str "References") ].

(** [re.IGNORECASE | re.DOTALL] *)
Definition sec_flags : Re.flags := Re.Flags true true.

(** One round of the loop over [section_patterns]. *)
Definition identify_step (txt : text) (sections : Dict.dict text)
           (p : Re.regex * text) : Dict.dict text :=
  match Re.findall sec_flags (fst p) txt with
  | m0 :: _ => Dict.set sections (snd p) (Str.strip m0)
  | [] => sections
  end.

Definition _identify_sections (txt : text) : Dict.dict text :=
  fold_left (identify_step txt) section_patterns [].

(** ** [DocumentProcessor._extract_references] *)

(** [REFERENCES\s*\n(.*?)(?=\Z)] *)
Definition ref_pattern : Re.regex := heading "REFERENCES" end_lookahead.

(** [\n(?=\[\d+\]|\d+\.|\[[\w\s,]+\d{4}\])] *)
Definition ref_boundary : Re.regex :=
  (Re.chr nl >>
   Re.Look
     ((Re.chr "[" >> Re.Rep true 1 None (Re.Cls [Re.CDigit]) >> Re.chr "]")
      <|> (Re.Rep true 1 None (Re.Cls [Re.CDigit]) >> Re.chr ".")
      <|> (Re.chr "[" >> Re.Rep true 1 None (Re.Cls [Re.CWord; Re.CSpace; Re.CLit ","])
           >> Re.Rep true 4 (Some 4) (Re.Cls [Re.CDigit]) >> Re.chr "]")))%re.

Definition long_enough (ref : text) : bool := 20 <? length (Str.strip ref).

Definition _extract_references (txt : text) : list text :=
  match Re.search_group1 sec_flags ref_pattern txt with
  | Some ref_section =>
      let ref_lines := Re.split Re.no_flags ref_boundary ref_section in
      map Str.strip (filter long_enough ref_lines)
  | None => []
  end.

(** ** The PDF collaborator, the log and the document cache *)

(** An exception, by its message. *)
Definition exn := text.

Inductive result (A : Type) : Type :=
| Ok (a : A)
| Raise (e : exn).
Arguments Ok {A} a.
Arguments Raise {A} e.

Inductive level : Type := INFO | WARNING | ERROR.

Definition table_data := list (list (option text)).

Record Table : Type := { extract : result table_data }.

Record Page : Type :=
  { get_text : result text;
    find_tables : result (list Table) }.

Record Document : Type :=
  { pages : list Page;
    doc_metadata : Dict.dict text }.

Record table_entry : Type := { page : nat; data : table_data }.

Record content : Type :=
  { filename : text;
    total_pages : nat;
    text_content : text;
    structured_content : Dict.dict text;
    tables : list table_entry;
    figures : list text;
    references : list text;
    metadata : Dict.dict text }.

(** What a call can change: the processor's cache and the module's log. *)
Record world : Type :=
  { processed_docs : Dict.dict content;
    log : list (level * text) }.

(** Computations that read and write the world and may raise. *)
Definition M (A : Type) : Type := world -> result A * world.

Definition ret {A} (a : A) : M A := fun w => (Ok a, w).

Definition raise {A} (e : exn) : M A := fun w => (Raise e, w).

Definition bind {A B} (m : M A) (f : A -> M B) : M B :=
  fun w =>
    match m w with
    | (Ok a, w') => f a w'
    | (Raise e, w') => (Raise e, w')
    end.

Definition lift {A} (r : result A) : M A := fun w => (r, w).

(** [try: body  except Exception as e: handler e] *)
Definition try_except {A} (body : M A) (handler : exn -> M A) : M A :=
  fun w =>
    match body w with
    | (Ok a, w') => (Ok a, w')
    | (Raise e, w') => handler e w'
    end.

Definition logger (l : level) (msg : text) : M unit :=
  fun w => (Ok tt, {| processed_docs := processed_docs w; log := log w ++ [(l, msg)] |}).

Definition cache_store (name : text) (c : content) : M unit :=
  fun w => (Ok tt, {| processed_docs := Dict.set (processed_docs w) name c; log := log w |}).

Declare Scope m_scope.
Delimit Scope m_scope with m.
Notation "x <- m ;; k" := (bind m (fun x => k))
  (at level 61, m at next level, right associativity) : m_scope.
Notation "m ;;; k" := (bind m (fun _ => k))
  (at level 61, right associativity) : m_scope.

(** ** [DocumentProcessor.extract_pdf_content] *)

(** The loop over one page's sections: create the key on first sight, then
    append. *)
Definition merge_section (structured_sections : Dict.dict text)
           (item : text * text) : Dict.dict text :=
  let '(section_title, section_content) := item in
  let d := if Dict.mem structured_sections section_title
           then structured_sections
           else Dict.set structured_sections section_title [] in
  Dict.set d section_title (Dict.item d section_title [] ++ section_content).

Definition merge_sections (structured_sections sections : Dict.dict text) : Dict.dict text :=
  fold_left merge_section sections structured_sections.

(** The section mapping after the given page texts, in page order, from
    the mapping [acc]. *)
Definition pages_fold (page_texts : list text) (acc : Dict.dict text) : Dict.dict text :=
  fold_left (fun acc page_text => merge_sections acc (_identify_sections page_text))
            page_texts acc.

Definition aggregate_sections (page_texts : list text) : Dict.dict text :=
  pages_fold page_texts [].

(** What one page adds to [full_text]: the page-boundary marker, with the
    page number counted from 1, and the page's text. *)
Definition page_marker (page_num : nat) (page_text : text) : text :=
  nl :: str "--- Page " ++ Str.of_nat (page_num + 1) ++ str " ---" ++ nl :: page_text.

(** The loop over one page's tables. *)
Fixpoint table_loop (page_num : nat) (ts : list Table) (acc : list table_entry)
  : M (list table_entry) :=
  match ts with
  | [] => ret acc
  | t :: ts' =>
      match extract t with
      | Ok table_data =>
          table_loop page_num ts' (acc ++ [{| page := page_num + 1; data := table_data |}])
      | Raise e =>
          (logger WARNING (str "Could not extract table from page "
                             ++ Str.of_nat (page_num + 1) ++ str ": " ++ e) ;;;
           table_loop page_num ts' acc)%m
      end
  end.

Record loop_state : Type :=
  { full_text : text;
    structured_sections : Dict.dict text;
    found_tables : list table_entry }.

(** The loop over the pages, from page index [page_num]. *)
Fixpoint page_loop (page_num : nat) (ps : list Page) (st : loop_state) : M loop_state :=
  match ps with
  | [] => ret st
  | p :: ps' =>
      (page_text <- lift (get_text p) ;;
       ts <- lift (find_tables p) ;;
       tabs <- table_loop page_num ts (found_tables st) ;;
       page_loop (S page_num) ps'
         {| full_text := full_text st ++ page_marker page_num page_text;
            structured_sections :=
              merge_sections (structured_sections st) (_identify_sections page_text);
            found_tables := tabs |})%m
  end.

Section Processor.

(** [Path(p).name], [fitz.open] and [Path(d).glob("*.pdf")]. *)
Variable path_name : text -> text.
Variable fitz_open : text -> result Document.
Variable glob_pdf : text -> list text.

Definition extract_pdf_content (pdf_path : text) : M content :=
  try_except
    (doc <- lift (fitz_open pdf_path) ;;
     st <- page_loop 0 (pages doc)
             {| full_text := []; structured_sections := []; found_tables := [] |} ;;
     let c :=
       {| filename := path_name pdf_path;
          total_pages := length (pages doc);
          text_content := full_text st;
          structured_content := structured_sections st;
          tables := found_tables st;
          figures := [];
          references := _extract_references (full_text st);
          metadata := doc_metadata doc |} in
     cache_store (path_name pdf_path) c ;;;
     logger INFO (str "Successfully processed " ++ path_name pdf_path) ;;;
     ret c)%m
    (fun e =>
       (logger ERROR (str "Error processing PDF " ++ pdf_path ++ str ": " ++ e) ;;;
        raise e)%m).

(** The loop over the files of the directory; nothing it calls escapes
    the [try]. *)
Fixpoint batch_loop (pdf_files : list text) (results : Dict.dict content) (w : world)
  : Dict.dict content * world :=
  match pdf_files with
  | [] => (results, w)
  | pdf_file :: rest =>
      match extract_pdf_content pdf_file w with
      | (Ok c, w1) =>
          let (_, w2) := logger INFO (str "Processed: " ++ path_name pdf_file) w1 in
          batch_loop rest (Dict.set results (path_name pdf_file) c) w2
      | (Raise e, w1) =>
          let (_, w2) :=
            logger ERROR (str "Failed to process " ++ path_name pdf_file
                            ++ str ": " ++ e) w1 in
          batch_loop rest results w2
      end
  end.

Definition process_multiple_pdfs (pdf_directory : text) (w : world)
  : Dict.dict content * world :=
  let pdf_files := glob_pdf pdf_directory in
  match pdf_files with
  | [] =>
      let (_, w1) := logger WARNING (str "No PDF files found in " ++ pdf_directory) w in
      ([], w1)
  | _ :: _ => batch_loop pdf_files [] w
  end.

End Processor.

(** ** [DocumentProcessor.get_document_summary] *)

Inductive value : Type :=
| VStr (s : text)
| VInt (n : nat)
| VList (l : list text).

Definition get_document_summary (fname : text) (w : world) : Dict.dict value :=
  match Dict.get (processed_docs w) fname with
  | None => []
  | Some doc =>
      [ (str "filename", VStr (filename doc));
        (str "pages", VInt (total_pages doc));
        (str "sections", VList (Dict.keys (structured_content doc)));
        (str "tables_count", VInt (length (tables doc)));
        (str "references_count", VInt (length (references doc)));
        (str "word_count", VInt (length (Str.split_ws (text_content doc)))) ]
  end.

(** ** [EnterpriseAIAgent._add_to_history] *)

Module Agent.

Record exchange : Type := { query : text; response : text }.

(** [l[-n:]] for a positive [n] *)
Definition last_n {A} (n : nat) (l : list A) : list A :=
  skipn (length l - n) l.

Definition _add_to_history (conversation_history : list exchange)
           (q r : text) : list exchange :=
  let h := conversation_history ++ [{| query := q; response := r |}] in
  if 10 <? length h then last_n 10 h else h.

End Agent.

(** ** The extraction read directly off the text

    The same captures described without a regex engine: find the leftmost
    heading, start after its line break, stop at the first stopping point.
    These are the definitions the matcher is compared with. *)

Module Plain.

Definition is_nl (c : ascii) : bool := if ascii_dec c nl then true else false.

Definition is_nil (s : text) : bool := match s with [] => true | _ :: _ => false end.

(** Equal up to letter case. *)
Definition ci_eq (a b : ascii) : bool :=
  if ascii_dec (Char.to_lower a) (Char.to_lower b) then true else false.

(** [s] begins with the keyword, in any letter case; what follows it. *)
Fixpoint skip_keyword (kw s : text) : option text :=
  match kw with
  | [] => Some s
  | k :: kw' =>
      match s with
      | c :: s' => if ci_eq c k then skip_keyword kw' s' else None
      | [] => None
      end
  end.

(** [s] begins with whitespace that holds a line break; what follows the
    last line break of that whitespace. *)
Fixpoint after_line_break (s : text) : option text :=
  match s with
  | c :: s' =>
      if Char.is_space c then
        match after_line_break s' with
        | Some b => Some b
        | None => if is_nl c then Some s' else None
        end
      else None
  | [] => None
  end.

(** The text up to the first place where [stop] holds of what remains. *)
Fixpoint take_until (stop : text -> bool) (s : text) : text :=
  if stop s then []
  else match s with
       | c :: s' => c :: take_until stop s'
       | [] => []
       end.

(** What remains from that place on. *)
Fixpoint drop_until (stop : text -> bool) (s : text) : text :=
  if stop s then s
  else match s with
       | _ :: s' => drop_until stop s'
       | [] => []
       end.

(** A heading at the head of [s]: keyword, optional whitespace, line
    break; its capture. *)
Definition heading_here (kw : text) (stop : text -> bool) (s : text) : option text :=
  match skip_keyword kw s with
  | Some s1 =>
      match after_line_break s1 with
      | Some b => Some (take_until stop b)
      | None => None
      end
  | None => None
  end.

(** The capture of the leftmost heading of the text. *)
Fixpoint first_heading (kw : text) (stop : text -> bool) (s : text) : option text :=
  match heading_here kw stop s with
  | Some c => Some c
  | None =>
      match s with
      | [] => None
      | _ :: t => first_heading kw stop t
      end
  end.

(** A letter A-Z in either case. *)
Definition is_letter (c : ascii) : bool :=
  Char.between 65 90 c || Char.between 97 122 c.

Definition letter_or_space (c : ascii) : bool := is_letter c || Char.is_space c.

(** After [n] letters or whitespace characters: more of them, with a line
    break among them at offset three or later. *)
Fixpoint heading_run (n : nat) (s : text) : bool :=
  match s with
  | c :: s' =>
      if letter_or_space c
      then ((3 <=? n) && is_nl c) || heading_run (S n) s'
      else false
  | [] => false
  end.

(** A line break, three or more letters or whitespace characters, a line
    break. *)
Definition heading_next (s : text) : bool :=
  match s with
  | c :: s' => is_nl c && heading_run 0 s'
  | [] => false
  end.

(** Digits ([seen] tells whether one was read) and then a dot. *)
Fixpoint digits_dot (seen : bool) (s : text) : bool :=
  match s with
  | c :: s' =>
      if Char.is_digit c then digits_dot true s'
      else seen && (if ascii_dec c "." then true else false)
  | [] => false
  end.

(** A line break, digits, a dot. *)
Definition numbered_next (s : text) : bool :=
  match s with
  | c :: s' => is_nl c && digits_dot false s'
  | [] => false
  end.

Definition body_stop (s : text) : bool :=
  heading_next s || numbered_next s || is_nil s.

Definition end_stop (s : text) : bool := is_nil s.

(** Keyword, stopping rule and label of the nine patterns. *)
Definition heading_rules : list (string * (text -> bool) * text) :=
  [ ("ABSTRACT"%string, body_stop, str "Abstract");
    ("INTRODUCTION"%string, body_stop, str "Introduction");
    ("METHODOLOGY"%string, body_stop, str "Methodology");
    ("METHODS"%string, body_stop, str "Methods");
    ("RESULTS"%string, body_stop, str "Results");
    ("DISCUSSION"%string, body_stop, str "Discussion");
    ("CONCLUSION"%string, body_stop, str "Conclusion");
    ("CONCLUSIONS"%string, body_stop, str "Conclusions");
    ("REFERENCES"%string, end_stop, str "References") ].

(** *** The stopping rule in the specification's words

    A heading-like line is a line of its own made of three or more
    uppercase letters or blanks; every pattern stops at the next such
    line, at the next numbered-list marker or at the end of the text. *)

Definition upper_or_space (c : ascii) : bool :=
  Char.between 65 90 c || Char.is_space c.

Fixpoint stated_line (n : nat) (s : text) : bool :=
  match s with
  | c :: s' =>
      if is_nl c then 3 <=? n
      else if upper_or_space c then stated_line (S n) s'
      else false
  | [] => false
  end.

Definition stated_heading_next (s : text) : bool :=
  match s with
  | c :: s' => is_nl c && stated_line 0 s'
  | [] => false
  end.

Definition stated_stop (s : text) : bool :=
  stated_heading_next s || numbered_next s || is_nil s.

(** *** Word count: the maximal runs of characters that are not
    whitespace; [gap] tells whether the previous character was
    whitespace (or the text starts here). *)
Fixpoint count_tokens (gap : bool) (s : text) : nat :=
  match s with
  | [] => 0
  | c :: s' =>
      if Char.is_space c then count_tokens true s'
      else (if gap then 1 else 0) + count_tokens false s'
  end.

(** *** Order of keys *)

Fixpoint position (k : text) (l : list text) : option nat :=
  match l with
  | [] => None
  | x :: l' =>
      if text_eqb x k then Some 0
      else match position k l' with Some i => Some (S i) | None => None end
  end.

(** The first page, counted from 0, on which the label is matched. *)
Fixpoint first_page (label : text) (page_texts : list text) : option nat :=
  match page_texts with
  | [] => None
  | t :: ts =>
      if Dict.mem (_identify_sections t) label then Some 0
      else match first_page label ts with Some i => Some (S i) | None => None end
  end.

(** The label's captures on the given pages, joined in page order. *)
Definition captures (label : text) (page_texts : list text) : text :=
  concat (map (fun t => Dict.item (_identify_sections t) label []) page_texts).

End Plain.

(** ** The result of a run, apart from the world

    What the loops and [extract_pdf_content] return, computed without the
    log and the cache; the facts below show that the monadic code returns
    exactly this. *)

Fixpoint collect_tables (page_num : nat) (ts : list Table) (acc : list table_entry)
  : list table_entry :=
  match ts with
  | [] => acc
  | t :: ts' =>
      match extract t with
      | Ok table_data =>
          collect_tables page_num ts' (acc ++ [{| page := page_num + 1; data := table_data |}])
      | Raise _ => collect_tables page_num ts' acc
      end
  end.

Fixpoint run_pages (page_num : nat) (ps : list Page) (st : loop_state)
  : result loop_state :=
  match ps with
  | [] => Ok st
  | p :: ps' =>
      match get_text p with
      | Raise e => Raise e
      | Ok page_text =>
          match find_tables p with
          | Raise e => Raise e
          | Ok ts =>
              run_pages (S page_num) ps'
                {| full_text := full_text st ++ page_marker page_num page_text;
                   structured_sections :=
                     merge_sections (structured_sections st) (_identify_sections page_text);
                   found_tables := collect_tables page_num ts (found_tables st) |}
          end
      end
  end.

Section Outcome.

Variable path_name : text -> text.
Variable fitz_open : text -> result Document.

Definition build_content (pdf_path : text) : result content :=
  match fitz_open pdf_path with
  | Raise e => Raise e
  | Ok doc =>
      match run_pages 0 (pages doc)
              {| full_text := []; structured_sections := []; found_tables := [] |} with
      | Raise e => Raise e
      | Ok st =>
          Ok {| filename := path_name pdf_path;
                total_pages := length (pages doc);
                text_content := full_text st;
                structured_content := structured_sections st;
                tables := found_tables st;
                figures := [];
                references := _extract_references (full_text st);
                metadata := doc_metadata doc |}
      end
  end.

(** The mapping a batch builds from the files that succeed. *)
Definition collect_step (results : Dict.dict content) (pdf_file : text)
  : Dict.dict content :=
  match build_content pdf_file with
  | Ok c => Dict.set results (path_name pdf_file) c
  | Raise _ => results
  end.

End Outcome.

Definition no_lead (s : text) : Prop :=
  match s with
  | c :: _ => Char.is_space c = false
  | [] => True
  end.

(** ** Sample inputs *)

(** The lines joined by line breaks. *)
Fixpoint lines (l : list string) : text :=
  match l with
  | [] => []
  | [x] => str x
  | x :: l' => str x ++ nl :: lines l'
  end.

Definition scenario_A : text :=
  lines ["ABSTRACT"; "We study X."; "INTRODUCTION"; "X matters because Y."]%string.

Definition references_numbered : text :=
  lines ["REFERENCES"; "Smith 2020."; "1. Jones"]%string.

Definition abstract_lowercase : text :=
  lines ["ABSTRACT"; "We study X."; "see below"; "more text."]%string.

Definition conclusions_with_phrase : text :=
  lines ["CONCLUSIONS"; "In conclusion"; "we win."]%string.

Definition scenario_B : text :=
  lines ["Some text."; "REFERENCES"; "[1] A. Author, Title, 2020.";
         "[2] B. Author, Other Title, 2019."]%string.

Definition see_appendix : text := lines ["REFERENCES"; "See appendix."]%string.

Definition references_of_20 : text :=
  lines ["REFERENCES"; "  abcdefghijklmnopqrst  "]%string.

Definition references_of_21 : text :=
  lines ["REFERENCES"; "  abcdefghijklmnopqrstu  "]%string.

Definition empty_world : world := {| processed_docs := []; log := [] |}.

Definition sample_content : content :=
  {| filename := str "a.pdf";
     total_pages := 2;
     text_content := lines [" one  two"; "three "]%string;
     structured_content := [(str "Abstract", str "one")];
     tables := [];
     figures := [];
     references := [];
     metadata := [] |}.

Definition sample_world : world :=
  {| processed_docs := [(str "a.pdf", sample_content)]; log := [] |}.

Definition sample_exchange : Agent.exchange :=
  {| Agent.query := str "hello"; Agent.response := str "world" |}.

Definition text_page (t : text) : Page := {| get_text := Ok t; find_tables := Ok [] |}.

Definition methods_doc : Document :=
  {| pages := [ text_page (lines ["METHODS"; "We did A."]%string);
                text_page (lines ["METHODS"; "Then B."]%string) ];
     doc_metadata := [] |}.

Definition results_first_doc : Document :=
  {| pages := [ text_page (lines ["RESULTS"; "Good."]%string);
                text_page (lines ["ABSTRACT"; "Short."; "RESULTS"; "More."]%string) ];
     doc_metadata := [] |}.

Definition sample_name (pdf_path : text) : text := pdf_path.

Definition sample_open (pdf_path : text) : result Document :=
  if text_eqb pdf_path (str "methods.pdf") then Ok methods_doc
  else if text_eqb pdf_path (str "results.pdf") then Ok results_first_doc
  else Raise (str "cannot open").

Definition sample_glob (pdf_directory : text) : list text :=
  if text_eqb pdf_directory (str "papers")
  then [str "broken.pdf"; str "methods.pdf"]
  else [].

(** ** [EnterpriseAIAgent]: context, prompts, queries and paper search *)

Module Assistant.

(** The double-quote character. *)
Definition quote : ascii := ascii_of_nat 34.

(** The inner loop of [_prepare_document_context]: one section. *)
Definition add_section (context : text) (item : text * text) : text :=
  let '(section, content) := item in
  if negb (Plain.is_nil content) && (0 <? length (Str.strip content))
  then context ++ nl :: section ++ str ":" ++ nl :: firstn 1000 content
               ++ str "..." ++ [nl]
  else context.

(** The outer loop of [_prepare_document_context]: one document.  The
    documents are records made by [extract_pdf_content], so every key read
    with [.get] is present. *)
Definition add_document (context : text) (item : text * content) : text :=
  let '(doc_name, doc_data) := item in
  let context := context ++ str "Document: " ++ doc_name ++ [nl] in
  let context := context ++ str "Pages: " ++ Str.of_nat (total_pages doc_data) ++ [nl] in
  let context :=
    match structured_content doc_data with
    | [] => context
    | _ :: _ => fold_left add_section (structured_content doc_data) context
    end in
  let context :=
    match text_content doc_data with
    | [] => context
    | _ :: _ =>
        context ++ nl :: str "Full Text Sample:" ++ nl
                :: firstn 2000 (text_content doc_data) ++ str "..." ++ [nl]
    end in
  let context :=
    match tables doc_data with
    | [] => context
    | _ :: _ =>
        context ++ nl :: str "Tables Found: " ++ Str.of_nat (length (tables doc_data))
                ++ str " tables" ++ [nl]
    end in
  context ++ nl :: repeat "="%char 50 ++ [nl; nl].

Definition context_header : text := str "Available Documents:" ++ [nl; nl].

Definition _prepare_document_context (documents : Dict.dict content) (query : text)
  : text :=
  fold_left add_document documents context_header.

Definition base_prompt (query context : text) : text :=
  str "You are an enterprise AI assistant specialized in document analysis and research. "
  ++ nl :: str "        "
  ++ nl :: str "Context from processed documents:"
  ++ nl :: context
  ++ nl :: nl :: str "User Query: " ++ query
  ++ [nl; nl].

Definition summary_instructions : text :=
  nl :: lines [ "Please provide a comprehensive summary focusing on:";
                "1. Key methodologies used";
                "2. Main findings and results";
                "3. Conclusions and implications";
                "4. Any performance metrics or evaluation results";
                "";
                "Format your response clearly with appropriate headings." ]%string.

Definition extraction_instructions : text :=
  nl :: lines [ "Please extract specific information requested by the user. Focus on:";
                "1. Exact values, metrics, and numbers mentioned";
                "2. Specific findings or results";
                "3. Direct quotes when relevant";
                "4. Table data or statistical information";
                "";
                "Be precise and cite the specific document/section when possible." ]%string.

Definition general_instructions : text :=
  nl :: lines [ "Please provide a helpful and accurate response based on the available documents. ";
                "Consider the context and provide relevant information from the documents.";
                "If the information is not available in the provided documents, please state so clearly." ]%string.

Definition _create_prompt (query context query_type : text) : text :=
  if text_eqb query_type (str "summary")
  then base_prompt query context ++ summary_instructions
  else if text_eqb query_type (str "extraction")
  then base_prompt query context ++ extraction_instructions
  else base_prompt query context ++ general_instructions.

(** The prompt of [_extract_search_terms]. *)
Definition search_terms_prompt (description : text) : text :=
  nl :: str "            Extract the most relevant search terms from this description for searching academic papers on ArXiv:"
  ++ nl :: str "            "
  ++ nl :: str "            " ++ quote :: description ++ quote
  :: nl :: str "            "
  ++ nl :: str "            Return only the key terms separated by spaces, optimized for academic paper search."
  ++ nl :: str "            Focus on technical terms, methodologies, and specific topics."
  ++ nl :: str "            ".

(** [re.sub(pattern, repl, s)] for a pattern that is one character class:
    every character of the class is replaced by [repl]. *)
Definition sub_chars (in_class : ascii -> bool) (repl : text) (s : text) : text :=
  flat_map (fun c => if in_class c then repl else [c]) s.

(** The class [[^\w\s]]. *)
Definition not_word_or_space (c : ascii) : bool :=
  negb (Char.is_word c || Char.is_space c).

(** [s.split(sep)] for a separator of one character. *)
Fixpoint split_on (sep : ascii) (s : text) : list text :=
  match s with
  | [] => [[]]
  | c :: s' =>
      if ascii_dec c sep then [] :: split_on sep s'
      else match split_on sep s' with
           | h :: t => (c :: h) :: t
           | [] => [[c]]
           end
  end.

(** A result of the arXiv client; [published_ymd] is
    [published.strftime('%Y-%m-%d')] and [authors] holds the authors'
    names. *)
Record paper : Type :=
  { title : text;
    authors : list text;
    summary : text;
    published_ymd : text;
    entry_id : text;
    pdf_url : text;
    categories : list text }.

Record paper_info : Type :=
  { info_title : text;
    info_authors : list text;
    info_summary : text;
    info_published : text;
    arxiv_id : text;
    info_pdf_url : text;
    info_categories : list text }.

Definition to_info (p : paper) : paper_info :=
  {| info_title := title p;
     info_authors := authors p;
     info_summary := summary p;
     info_published := published_ymd p;
     arxiv_id := last (split_on "/" (entry_id p)) [];
     info_pdf_url := pdf_url p;
     info_categories := categories p |}.

(** What the agent's methods change: its history and the module's log. *)
Record agent : Type :=
  { conversation_history : list Agent.exchange;
    agent_log : list (level * text) }.

Definition log_line (l : level) (msg : text) (a : agent) : agent :=
  {| conversation_history := conversation_history a;
     agent_log := agent_log a ++ [(l, msg)] |}.

Definition get_conversation_history (a : agent) : list Agent.exchange :=
  conversation_history a.

Definition clear_history (a : agent) : agent :=
  {| conversation_history := [];
     agent_log := agent_log a ++ [(INFO, str "Conversation history cleared")] |}.

Section Collaborators.

(** [self.model.generate_content(prompt).text] and the arXiv client's
    [results(Search(query, max_results, Relevance))]; either may raise. *)
Variable generate_content : text -> result text.
Variable arxiv_results : text -> nat -> result (list paper).

Definition query_documents (query : text) (documents : Dict.dict content)
           (query_type : text) (a : agent) : text * agent :=
  let context := _prepare_document_context documents query in
  let prompt := _create_prompt query context query_type in
  match generate_content prompt with
  | Ok response =>
      (response,
       log_line INFO (str "Successfully processed query: " ++ firstn 50 query ++ str "...")
         {| conversation_history :=
              Agent._add_to_history (conversation_history a) query response;
            agent_log := agent_log a |})
  | Raise e =>
      (str "I encountered an error while processing your query: " ++ e,
       log_line ERROR (str "Error processing query: " ++ e) a)
  end.

Definition _extract_search_terms (description : text) (a : agent) : text * agent :=
  match generate_content (search_terms_prompt description) with
  | Ok response =>
      (sub_chars not_word_or_space [] (Str.strip response), a)
  | Raise e =>
      (description, log_line ERROR (str "Error extracting search terms: " ++ e) a)
  end.

Definition search_arxiv_papers (description : text) (max_results : nat) (a : agent)
  : list paper_info * agent :=
  let (search_query, a1) := _extract_search_terms description a in
  match arxiv_results search_query max_results with
  | Ok papers =>
      let results := map to_info papers in
      (results,
       log_line INFO (str "Found " ++ Str.of_nat (length results)
                        ++ str " papers for query: " ++ description) a1)
  | Raise e =>
      ([], log_line ERROR (str "Error searching ArXiv: " ++ e) a1)
  end.

(** Successive calls of [query_documents] on the same documents, as the
    question box makes them: the replies, oldest first, and the agent
    afterwards. *)
Fixpoint ask_all (documents : Dict.dict content) (questions : list (text * text))
         (a : agent) : list text * agent :=
  match questions with
  | [] => ([], a)
  | (query, query_type) :: rest =>
      let (reply, a1) := query_documents query documents query_type a in
      let (replies, a2) := ask_all documents rest a1 in
      (reply :: replies, a2)
  end.

(** The exchanges of those calls that the model answered. *)
Fixpoint answered (documents : Dict.dict content) (questions : list (text * text))
  : list Agent.exchange :=
  match questions with
  | [] => []
  | (query, query_type) :: rest =>
      match generate_content
              (_create_prompt query (_prepare_document_context documents query)
                              query_type) with
      | Ok response =>
          {| Agent.query := query; Agent.response := response |}
            :: answered documents rest
      | Raise _ => answered documents rest
      end
  end.

End Collaborators.

End Assistant.

(** ** Vocabulary of the further facts *)

(** The nine labels, in the order of the pattern table. *)
Definition section_labels : list text := map snd section_patterns.

(** No whitespace at either end. *)
Definition trimmed (s : text) : Prop := no_lead s /\ no_lead (rev s).

(** [sep.join(pieces)] *)
Fixpoint join (sep : text) (pieces : list text) : text :=
  match pieces with
  | [] => []
  | [x] => x
  | x :: rest => x ++ sep ++ join sep rest
  end.

(** The full text of a document whose pages, from page index [page_num]
    on, have the given texts. *)
Fixpoint joined_pages (page_num : nat) (page_texts : list text) : text :=
  match page_texts with
  | [] => []
  | t :: ts => page_marker page_num t ++ joined_pages (S page_num) ts
  end.

(** The tables of one page that can be extracted, tagged with the page
    number. *)
Definition page_tables (page_no : nat) (ts : list Table) : list table_entry :=
  flat_map (fun t => match extract t with
                     | Ok d => [{| page := page_no; data := d |}]
                     | Raise _ => []
                     end) ts.

(** The same for the pages from page index [page_num] on. *)
Fixpoint document_tables (page_num : nat) (tss : list (list Table)) : list table_entry :=
  match tss with
  | [] => []
  | ts :: rest => page_tables (page_num + 1) ts ++ document_tables (S page_num) rest
  end.

(** Sum of the word counts of the page texts. *)
Definition page_words (page_texts : list text) : nat :=
  list_sum (map (fun t => Plain.count_tokens true t) page_texts).

(** Whether a pattern of the table finds a heading in the text. *)
Definition matched (txt : text) (p : Re.regex * text) : bool :=
  match Re.search_group1 sec_flags (fst p) txt with Some _ => true | None => false end.

(** Every value of a mapping is trimmed. *)
Definition values_trimmed (d : Dict.dict text) : Prop :=
  Forall (fun kv => trimmed (snd kv)) d.

(** An upper bound on what one document adds to the context. *)
Definition block_bound (doc_name : text) (doc_data : content) : nat :=
  length doc_name
  + length (Str.of_nat (total_pages doc_data))
  + length (Str.of_nat (length (tables doc_data)))
  + list_sum (map (fun kv => length (fst kv) + 1007) (structured_content doc_data))
  + 2118.

(** Whether a direct scan of the text finds the heading of a rule: the
    keyword in any letter case, optional whitespace and a line break. *)
Definition heading_found (txt : text) (rule : string * (text -> bool) * text) : bool :=
  let '(kw, stop, _) := rule in
  match Plain.first_heading (str kw) stop txt with Some _ => true | None => false end.

(** What one section adds to the context. *)
Definition section_block (item : text * text) : text :=
  let '(section, content) := item in
  if negb (Plain.is_nil content) && (0 <? length (Str.strip content))
  then nl :: section ++ str ":" ++ nl :: firstn 1000 content ++ str "..." ++ [nl]
  else [].

(** What one document adds to the context: its name and page count, its
    sections, a sample of its full text, its table count and a rule. *)
Definition document_block (item : text * content) : text :=
  let '(doc_name, doc_data) := item in
  str "Document: " ++ doc_name ++ [nl]
  ++ str "Pages: " ++ Str.of_nat (total_pages doc_data) ++ [nl]
  ++ flat_map section_block (structured_content doc_data)
  ++ match text_content doc_data with
     | [] => []
     | _ :: _ => nl :: str "Full Text Sample:" ++ nl
                    :: firstn 2000 (text_content doc_data) ++ str "..." ++ [nl]
     end
  ++ match tables doc_data with
     | [] => []
     | _ :: _ => nl :: str "Tables Found: " ++ Str.of_nat (length (tables doc_data))
                    ++ str " tables" ++ [nl]
     end
  ++ nl :: repeat "="%char 50 ++ [nl; nl].

(** ** Further sample inputs *)

Definition grid : table_data :=
  [ [Some (str "n"); Some (str "mean")]; [Some (str "12"); None] ].

(** A document with one table on its first page and two on its second,
    the first of which cannot be extracted. *)
Definition tables_doc : Document :=
  {| pages := [ {| get_text := Ok (str "Table 1");
                   find_tables := Ok [ {| extract := Ok grid |} ] |};
                {| get_text := Ok (str "Tables 2 and 3");
                   find_tables := Ok [ {| extract := Raise (str "bad cell") |};
                                       {| extract := Ok grid |} ] |} ];
     doc_metadata := [] |}.

Definition tables_open (pdf_path : text) : result Document :=
  if text_eqb pdf_path (str "tables.pdf") then Ok tables_doc
  else Raise (str "cannot open").

(** A document with the METHODS heading on each of its three pages. *)
Definition three_methods_doc : Document :=
  {| pages := [ text_page (lines ["METHODS"; "We did A."]%string);
                text_page (lines ["METHODS"; "Then B."]%string);
                text_page (lines ["METHODS"; "Last C."]%string) ];
     doc_metadata := [] |}.

Definition three_open (pdf_path : text) : result Document :=
  if text_eqb pdf_path (str "three.pdf") then Ok three_methods_doc
  else Raise (str "cannot open").

Definition results_texts : list text :=
  [ lines ["RESULTS"; "Good."]%string;
    lines ["ABSTRACT"; "Short."; "RESULTS"; "More."]%string ].

Definition new_agent : Assistant.agent :=
  {| Assistant.conversation_history := []; Assistant.agent_log := [] |}.

(** A model that answers one question and one request for search terms,
    and raises on every other prompt. *)
Definition sample_model (prompt : text) : result text :=
  if text_eqb prompt (Assistant.search_terms_prompt (str "papers on graph nets"))
  then Ok (str " graph-nets, (2020)! ")
  else if text_eqb prompt
            (Assistant._create_prompt (str "What is A?")
               (Assistant._prepare_document_context [] (str "What is A?"))
               (str "general"))
  then Ok (str "A is first.")
  else Raise (str "quota exceeded").

Definition sample_paper : Assistant.paper :=
  {| Assistant.title := str "Graph nets";
     Assistant.authors := [str "A. Author"];
     Assistant.summary := str "We study graph nets.";
     Assistant.published_ymd := str "2020-01-01";
     Assistant.entry_id := str "http://arxiv.org/abs/2001.00001v1";
     Assistant.pdf_url := str "http://arxiv.org/pdf/2001.00001v1";
     Assistant.categories := [str "cs.LG"] |}.

Definition sample_arxiv (query : text) (max_results : nat)
  : result (list Assistant.paper) :=
  if text_eqb query (str "graphnets 2020") then Ok (firstn max_results [sample_paper])
  else Raise (str "timeout").

Definition sample_questions : list (text * text) :=
  [ (str "What is A?", str "general"); (str "Summarise.", str "summary") ].

Definition numbered_exchange (n : nat) : Agent.exchange :=
  {| Agent.query := str "question " ++ Str.of_nat n;
     Agent.response := str "answer " ++ Str.of_nat n |}.

(** * Facts *)

(** ** Characters *)

Ltac ascii_cases c := destruct c as [[] [] [] [] [] [] [] []].

Lemma space_class (c : ascii) :
  Re.cset_match sec_flags (Re.Cls [Re.CSpace]) c = Char.is_space c.
Proof. ascii_cases c; vm_compute; reflexivity. Qed.

Lemma nl_class (c : ascii) :
  Re.cset_match sec_flags (Re.Cls [Re.CLit nl]) c = Plain.is_nl c.
Proof. ascii_cases c; vm_compute; reflexivity. Qed.

Lemma lit_class (x c : ascii) :
  Re.cset_match sec_flags (Re.Cls [Re.CLit x]) c = Plain.ci_eq c x.
Proof. unfold Re.cset_match, Plain.ci_eq; simpl. apply orb_false_r. Qed.

Lemma heading_class (c : ascii) :
  Re.cset_match sec_flags (Re.Cls [Re.CRange "A" "Z"; Re.CSpace]) c
  = Plain.letter_or_space c.
Proof. ascii_cases c; vm_compute; reflexivity. Qed.

Lemma digit_class (c : ascii) :
  Re.cset_match sec_flags (Re.Cls [Re.CDigit]) c = Char.is_digit c.
Proof. ascii_cases c; vm_compute; reflexivity. Qed.

Lemma dot_literal_class (c : ascii) :
  Re.cset_match sec_flags (Re.Cls [Re.CLit "."]) c
  = if ascii_dec c "." then true else false.
Proof. ascii_cases c; vm_compute; reflexivity. Qed.

Lemma dot_class (c : ascii) : Re.cset_match sec_flags Re.Dot c = true.
Proof. reflexivity. Qed.

Lemma nl_is_space (c : ascii) : Plain.is_nl c = true -> Char.is_space c = true.
Proof. ascii_cases c; vm_compute; intro H; try reflexivity; discriminate H. Qed.

Lemma nl_is_heading_char (c : ascii) :
  Plain.is_nl c = true -> Plain.letter_or_space c = true.
Proof.
  intro H. unfold Plain.letter_or_space. rewrite (nl_is_space c H). apply orb_true_r.
Qed.

Lemma digit_not_dot (c : ascii) :
  Char.is_digit c = true -> (if ascii_dec c "." then true else false) = false.
Proof. ascii_cases c; vm_compute; intro H; try reflexivity; discriminate H. Qed.

(** ** The matcher on the pieces of the heading patterns *)

Section Matcher_facts.

Variable R : Type.

(** The keyword of a pattern. *)
Lemma bt_keyword (kw s : text) (g : option text)
      (k : text -> option text -> option R) :
  Re.bt sec_flags (Re.lit kw) s g k
  = match Plain.skip_keyword kw s with
    | Some s' => k s' g
    | None => None
    end.
Proof.
  revert s. induction kw as [|x kw IH]; intro s; [reflexivity|].
  cbn [Re.lit Re.bt Re.chr Plain.skip_keyword].
  destruct s as [|c s]; [reflexivity|].
  rewrite lit_class. destruct (Plain.ci_eq c x); [apply IH|reflexivity].
Qed.

(** Greedy whitespace and then a line break, before something that
    cannot fail: the match ends at the last line break of the run. *)
Lemma greedy_space_then_nl (m : ascii -> bool) (K : text -> option R)
      (k : text -> option R) :
  (forall c, m c = Char.is_space c) ->
  (forall b, K b <> None) ->
  (forall s2, k s2 = match s2 with
                     | c :: s3 => if Plain.is_nl c then K s3 else None
                     | [] => None
                     end) ->
  forall s,
    Re.rep_greedy m None s k
    = match Plain.after_line_break s with
      | Some b => K b
      | None => None
      end.
Proof.
  intros Hm HK Hk. induction s as [|c s IH]; cbn [Re.rep_greedy Plain.after_line_break].
  - rewrite Hk. reflexivity.
  - rewrite Hm. destruct (Char.is_space c) eqn:Hc; cbn [andb Re.more Re.less].
    + rewrite IH. destruct (Plain.after_line_break s) as [b|].
      * specialize (HK b). destruct (K b); [reflexivity|contradiction].
      * rewrite Hk. destruct (Plain.is_nl c); reflexivity.
    + rewrite Hk. destruct (Plain.is_nl c) eqn:Hn; [|reflexivity].
      rewrite (nl_is_space c Hn) in Hc. discriminate Hc.
Qed.

(** Lazy [.*?] before a test of the rest of the text that holds at its
    end: the match ends at the first place where the test holds. *)
Lemma lazy_dot_until (stop : text -> bool) (f : text -> R)
      (m : ascii -> bool) (k : text -> option R) :
  stop [] = true ->
  (forall c, m c = true) ->
  (forall s2, k s2 = if stop s2 then Some (f s2) else None) ->
  forall s, Re.rep_lazy m None s k = Some (f (Plain.drop_until stop s)).
Proof.
  intros Hnil Hm Hk. induction s as [|c s IH]; cbn [Re.rep_lazy Plain.drop_until].
  - rewrite Hk, Hnil. reflexivity.
  - rewrite Hk. destruct (stop (c :: s)); [reflexivity|].
    rewrite Hm. cbn [andb Re.more Re.less]. exact IH.
Qed.

(** Greedy digits before a dot: a digit is no dot, so the whole run is
    taken. *)
Lemma greedy_digits_then_dot (m : ascii -> bool) (x : R) (k : text -> option R) :
  (forall c, m c = Char.is_digit c) ->
  (forall s2, k s2 = match s2 with
                     | c :: _ => if ascii_dec c "." then Some x else None
                     | [] => None
                     end) ->
  forall s,
    Re.rep_greedy m None s k
    = if Plain.digits_dot true s then Some x else None.
Proof.
  intros Hm Hk. induction s as [|c s IH]; cbn [Re.rep_greedy Plain.digits_dot].
  - rewrite Hk. reflexivity.
  - rewrite Hm. destruct (Char.is_digit c) eqn:Hc; cbn [andb Re.more Re.less].
    + rewrite IH. destruct (Plain.digits_dot true s); [reflexivity|].
      rewrite Hk. pose proof (digit_not_dot c Hc) as Hd.
      destruct (ascii_dec c "."); [discriminate Hd|reflexivity].
    + rewrite Hk. destruct (ascii_dec c "."); reflexivity.
Qed.

(** Greedy letters-or-whitespace and then a line break, three characters
    of the run being already read. *)
Lemma greedy_heading_then_nl (m : ascii -> bool) (x : R) (k : text -> option R) :
  (forall c, m c = Plain.letter_or_space c) ->
  (forall s2, k s2 = match s2 with
                     | c :: _ => if Plain.is_nl c then Some x else None
                     | [] => None
                     end) ->
  forall s n, 3 <= n ->
    Re.rep_greedy m None s k
    = if Plain.heading_run n s then Some x else None.
Proof.
  intros Hm Hk. induction s as [|c s IH]; intros n Hn;
    cbn [Re.rep_greedy Plain.heading_run].
  - rewrite Hk. reflexivity.
  - rewrite Hm. destruct (Plain.letter_or_space c) eqn:Hc; cbn [andb Re.more Re.less].
    + rewrite (IH (S n)) by lia.
      destruct (Plain.heading_run (S n) s).
      * rewrite orb_true_r. reflexivity.
      * rewrite orb_false_r, Hk.
        replace (3 <=? n) with true by (symmetry; apply Nat.leb_le; exact Hn).
        reflexivity.
    + rewrite Hk. destruct (Plain.is_nl c) eqn:Hl; [|reflexivity].
      rewrite (nl_is_heading_char c Hl) in Hc. discriminate Hc.
Qed.

(** The same with the three compulsory characters of [{3,}]. *)
Lemma min_heading_then_nl (m : ascii -> bool) (x : R) (k : text -> option R) :
  (forall c, m c = Plain.letter_or_space c) ->
  (forall s2, k s2 = match s2 with
                     | c :: _ => if Plain.is_nl c then Some x else None
                     | [] => None
                     end) ->
  forall j n s, n + j = 3 ->
    Re.rep_min m j s (fun s1 => Re.rep_greedy m None s1 k)
    = if Plain.heading_run n s then Some x else None.
Proof.
  intros Hm Hk. induction j as [|j IH]; intros n s Hn; cbn [Re.rep_min].
  - apply greedy_heading_then_nl; [exact Hm|exact Hk|lia].
  - destruct s as [|c s]; [reflexivity|]. cbn [Plain.heading_run].
    rewrite Hm. destruct (Plain.letter_or_space c); [|reflexivity].
    rewrite (IH (S n)) by lia.
    replace (3 <=? n) with false by (symmetry; apply Nat.leb_gt; lia).
    reflexivity.
Qed.

End Matcher_facts.

(** ** The two lookaheads *)

Lemma end_lookahead_test (R : Type) (s : text) (g : option text)
      (k : text -> option text -> option R) :
  Re.bt sec_flags end_lookahead s g k = if Plain.end_stop s then k s g else None.
Proof. destruct s; reflexivity. Qed.

Lemma heading_alternative (s : text) (g : option text) :
  Re.bt sec_flags
        (Re.chr nl >> Re.Rep true 3 None (Re.Cls [Re.CRange "A" "Z"; Re.CSpace])
         >> Re.chr nl)%re s g (fun _ g' => Some g')
  = if Plain.heading_next s then Some g else None.
Proof.
  cbn [Re.bt Re.chr Re.room]. destruct s as [|c s]; [reflexivity|].
  rewrite nl_class. cbn [Plain.heading_next].
  destruct (Plain.is_nl c); [|reflexivity]. cbn [andb].
  apply min_heading_then_nl; [exact heading_class| |reflexivity].
  intros [|c2 s2]; [reflexivity|]. rewrite nl_class. reflexivity.
Qed.

Lemma numbered_alternative (s : text) (g : option text) :
  Re.bt sec_flags
        (Re.chr nl >> Re.Rep true 1 None (Re.Cls [Re.CDigit]) >> Re.chr ".")%re
        s g (fun _ g' => Some g')
  = if Plain.numbered_next s then Some g else None.
Proof.
  cbn [Re.bt Re.chr Re.room Re.rep_min]. destruct s as [|c s]; [reflexivity|].
  rewrite nl_class. cbn [Plain.numbered_next].
  destruct (Plain.is_nl c); [|reflexivity]. cbn [andb].
  destruct s as [|d s]; [reflexivity|]. cbn [Plain.digits_dot].
  rewrite digit_class. destruct (Char.is_digit d); [|reflexivity].
  apply greedy_digits_then_dot; [exact digit_class|].
  intros [|c2 s2]; [reflexivity|]. rewrite dot_literal_class.
  destruct (ascii_dec c2 "."); reflexivity.
Qed.

Lemma body_lookahead_test (R : Type) (s : text) (g : option text)
      (k : text -> option text -> option R) :
  Re.bt sec_flags body_lookahead s g k = if Plain.body_stop s then k s g else None.
Proof.
  unfold body_lookahead, Plain.body_stop.
  change (Re.bt sec_flags (Re.Look ?r) s g k)
    with (match Re.bt sec_flags r s g (fun _ g' => Some g') with
          | Some g' => k s g'
          | None => None
          end).
  change (Re.bt sec_flags (?a <|> ?b <|> Re.EndZ)%re s g (fun _ g' => Some g'))
    with (match Re.bt sec_flags a s g (fun _ g' => Some g') with
          | Some x => Some x
          | None =>
              match Re.bt sec_flags b s g (fun _ g' => Some g') with
              | Some x => Some x
              | None => match s with [] => Some g | _ :: _ => None end
              end
          end).
  rewrite heading_alternative, numbered_alternative.
  destruct (Plain.heading_next s); [reflexivity|].
  destruct (Plain.numbered_next s); [reflexivity|].
  destruct s; reflexivity.
Qed.

(** ** A heading pattern at one place, and its leftmost match *)

Lemma take_drop_until (stop : text -> bool) (s : text) :
  Plain.take_until stop s ++ Plain.drop_until stop s = s.
Proof.
  induction s as [|c s IH]; cbn [Plain.take_until Plain.drop_until].
  - destruct (stop []); reflexivity.
  - destruct (stop (c :: s)); [reflexivity|]. cbn [app]. rewrite IH. reflexivity.
Qed.

Lemma capture_is_take_until (stop : text -> bool) (b : text) :
  firstn (length b - length (Plain.drop_until stop b)) b = Plain.take_until stop b.
Proof.
  rewrite <- (take_drop_until stop b) at 1 3.
  rewrite length_app, Nat.add_sub, firstn_app, Nat.sub_diag, firstn_all.
  cbn [firstn]. apply app_nil_r.
Qed.

Section Heading_pattern.

Variable kw : string.
Variable look : Re.regex.
Variable stop : text -> bool.

Hypothesis stop_at_end : stop [] = true.
Hypothesis look_is_stop :
  forall (R : Type) s g (k : text -> option text -> option R),
    Re.bt sec_flags look s g k = if stop s then k s g else None.

Lemma body_capture (b : text) :
  Re.rep_lazy (Re.cset_match sec_flags Re.Dot) None b
    (fun s2 =>
       Re.bt sec_flags look s2 (Some (firstn (length b - length s2) b))
             (fun s' g => Some (s', g)))
  = Some (Plain.drop_until stop b, Some (Plain.take_until stop b)).
Proof.
  rewrite (lazy_dot_until stop
             (fun s2 => (s2, Some (firstn (length b - length s2) b)))
             (Re.cset_match sec_flags Re.Dot) _ stop_at_end dot_class).
  - rewrite capture_is_take_until. reflexivity.
  - intro s2. apply look_is_stop.
Qed.

Lemma heading_match_here (s : text) :
  Re.match_here sec_flags (heading kw look) false s
  = match Plain.skip_keyword (str kw) s with
    | Some s1 =>
        match Plain.after_line_break s1 with
        | Some b => Some (Plain.drop_until stop b, Some (Plain.take_until stop b))
        | None => None
        end
    | None => None
    end.
Proof.
  unfold Re.match_here, heading.
  change (Re.bt sec_flags (Re.lit (str kw) >> ?r)%re s None ?k)
    with (Re.bt sec_flags (Re.lit (str kw)) s None
                (fun s' g' => Re.bt sec_flags r s' g' k)).
  rewrite bt_keyword.
  destruct (Plain.skip_keyword (str kw) s) as [s1|]; [|reflexivity].
  cbn [Re.bt Re.chr Re.room Re.rep_min andb].
  rewrite (@greedy_space_then_nl _ _
             (fun b =>
                Re.rep_lazy (Re.cset_match sec_flags Re.Dot) None b
                  (fun s2 =>
                     Re.bt sec_flags look s2
                           (Some (firstn (length b - length s2) b))
                           (fun s' g => Some (s', g)))) _ space_class).
  - destruct (Plain.after_line_break s1) as [b|]; [apply body_capture|reflexivity].
  - intro b. rewrite body_capture. discriminate.
  - intros [|c s2]; [reflexivity|]. rewrite nl_class. reflexivity.
Qed.

Lemma heading_here_match (s : text) :
  Plain.heading_here (str kw) stop s
  = match Re.match_here sec_flags (heading kw look) false s with
    | Some (_, g) => Some (Re.group1 g)
    | None => None
    end.
Proof.
  rewrite heading_match_here. unfold Plain.heading_here.
  destruct (Plain.skip_keyword (str kw) s) as [s1|]; [|reflexivity].
  destruct (Plain.after_line_break s1); reflexivity.
Qed.

Lemma heading_search (s : text) :
  Re.search_group1 sec_flags (heading kw look) s
  = Plain.first_heading (str kw) stop s.
Proof.
  unfold Re.search_group1.
  induction s as [|c s IH]; cbn [Re.search_from Plain.first_heading];
    rewrite heading_here_match;
    destruct (Re.match_here sec_flags (heading kw look) false _) as [[s' g]|];
    try reflexivity.
  rewrite <- IH.
  destruct (Re.search_from sec_flags (heading kw look) false s) as [[[i s'] g]|];
    reflexivity.
Qed.

End Heading_pattern.

(** [matches[0]] of [re.findall] is group 1 of the leftmost match. *)
Lemma findall_first (fl : Re.flags) (r : Re.regex) (s : text) :
  hd_error (Re.findall fl r s) = Re.search_group1 fl r s.
Proof.
  unfold Re.findall, Re.scan_all, Re.search_group1.
  replace (2 * length s + 2) with (S (2 * length s + 1)) by lia.
  cbn [Re.scan].
  destruct (Re.search_from fl r false s) as [[[i s'] g]|]; [|reflexivity].
  destruct (Re.scan fl r (2 * length s + 1) _ s') as [ms last]. reflexivity.
Qed.

(** ** What the direct reading says *)

Lemma is_nl_true (c : ascii) : Plain.is_nl c = true <-> c = nl.
Proof. unfold Plain.is_nl. destruct (ascii_dec c nl); split; congruence. Qed.

(** The keyword test: the text begins with as many characters as the
    keyword has, each equal to the keyword's up to letter case. *)
Lemma skip_keyword_iff (kw s rest : text) :
  Plain.skip_keyword kw s = Some rest
  <-> exists h, s = h ++ rest
                /\ Forall2 (fun c k => Plain.ci_eq c k = true) h kw.
Proof.
  revert s. induction kw as [|k kw IH]; intro s; cbn [Plain.skip_keyword].
  - split.
    + intros [= <-]. exists []. split; [reflexivity|constructor].
    + intros [h [-> Hh]]. inversion Hh. reflexivity.
  - destruct s as [|c s].
    + split; [discriminate|]. intros [h [Hs Hh]]. inversion Hh; subst. discriminate.
    + destruct (Plain.ci_eq c k) eqn:E.
      * rewrite IH. split.
        -- intros [h [-> Hh]]. exists (c :: h). split; [reflexivity|].
           constructor; assumption.
        -- intros [h [Hs Hh]]. inversion Hh as [|c' k' h' kw' Hck Hh' E1 E2]; subst.
           injection Hs as Hx Hs'; subst. exists h'. split; [reflexivity|exact Hh'].
      * split; [discriminate|]. intros [h [Hs Hh]].
        inversion Hh as [|c' k' h' kw' Hck Hh' E1 E2]; subst.
        injection Hs as Hx Hs'; subst. congruence.
Qed.

(** The line break of a heading: whitespace, a line break, and no further
    whitespace-with-line-break after it. *)
Lemma after_line_break_iff (s b : text) :
  Plain.after_line_break s = Some b
  <-> exists ws, s = ws ++ nl :: b
                 /\ forallb Char.is_space ws = true
                 /\ Plain.after_line_break b = None.
Proof.
  revert b. induction s as [|c s IH]; intro b; cbn [Plain.after_line_break].
  - split; [discriminate|]. intros [[|x ws] [Hs _]]; discriminate.
  - destruct (Char.is_space c) eqn:Hc.
    + destruct (Plain.after_line_break s) as [b0|] eqn:E.
      * split.
        -- intros [= <-]. destruct (proj1 (IH b0) eq_refl) as [ws [-> [Hws Hb]]].
           exists (c :: ws). cbn [forallb app]. rewrite Hc, Hws. auto.
        -- intros [[|x ws] [Hs [Hws Hb]]]; cbn [app forallb] in *.
           ++ injection Hs as Hx Hs'; subst. congruence.
           ++ injection Hs as Hx Hs'; subst. apply andb_prop in Hws. destruct Hws as [_ Hws].
              f_equal. assert (H : Some b0 = Some b); [|congruence].
              apply IH. exists ws. auto.
      * destruct (Plain.is_nl c) eqn:Hn.
        -- apply is_nl_true in Hn. subst c. split.
           ++ intros [= <-]. exists []. auto.
           ++ intros [[|x ws] [Hs [Hws Hb]]]; cbn [app forallb] in *.
              ** injection Hs as Hs'. subst. reflexivity.
              ** injection Hs as Hx Hs'; subst. apply andb_prop in Hws. destruct Hws as [_ Hws].
                 assert (H : None = Some b); [|discriminate].
                 apply IH. exists ws. auto.
        -- split; [discriminate|].
           intros [[|x ws] [Hs [Hws Hb]]]; cbn [app forallb] in *.
           ++ injection Hs as Hx Hs'; subst. rewrite (proj2 (is_nl_true nl) eq_refl) in Hn.
              discriminate.
           ++ injection Hs as Hx Hs'; subst. apply andb_prop in Hws. destruct Hws as [_ Hws].
              assert (H : None = Some b); [|discriminate].
              apply IH. exists ws. auto.
    + split; [discriminate|].
      intros [[|x ws] [Hs [Hws Hb]]]; cbn [app forallb] in *.
      * injection Hs as Hx Hs'; subst.
        rewrite (nl_is_space nl (proj2 (is_nl_true nl) eq_refl)) in Hc. discriminate.
      * injection Hs as Hx Hs'; subst. rewrite Hc in Hws. discriminate.
Qed.

Lemma heading_run_iff (s : text) :
  forall n,
    Plain.heading_run n s = true
    <-> exists run rest, s = run ++ nl :: rest
                         /\ 3 <= n + length run
                         /\ forallb Plain.letter_or_space run = true.
Proof.
  induction s as [|c s IH]; intro n; cbn [Plain.heading_run].
  - split; [discriminate|]. intros [[|x run] [rest [Hs _]]]; discriminate.
  - destruct (Plain.letter_or_space c) eqn:Hc.
    + split.
      * intro H. apply orb_prop in H. destruct H as [H|H].
        -- apply andb_prop in H. destruct H as [Hn Hl].
           apply Nat.leb_le in Hn. apply is_nl_true in Hl. subst c.
           exists [], s. cbn [app length forallb]. repeat split. lia.
        -- apply IH in H. destruct H as [run [rest [-> [Hlen Hall]]]].
           exists (c :: run), rest. cbn [app length forallb].
           rewrite Hc, Hall. repeat split. lia.
      * intros [[|x run] [rest [Hs [Hlen Hall]]]]; cbn [app length forallb] in *.
        -- injection Hs as Hx Hs'; subst. rewrite (proj2 (is_nl_true nl) eq_refl).
           replace (3 <=? n) with true by (symmetry; apply Nat.leb_le; lia).
           reflexivity.
        -- injection Hs as Hx Hs'; subst. apply andb_prop in Hall. destruct Hall as [_ Hall].
           apply orb_true_iff. right. apply IH. exists run, rest.
           repeat split; [lia|exact Hall].
    + split; [discriminate|].
      intros [[|x run] [rest [Hs [Hlen Hall]]]]; cbn [app length forallb] in *.
      * injection Hs as Hx Hs'; subst.
        rewrite (nl_is_heading_char nl (proj2 (is_nl_true nl) eq_refl)) in Hc.
        discriminate.
      * injection Hs as Hx Hs'; subst. rewrite Hc in Hall. discriminate.
Qed.

(** The heading-like stop: a line break, at least three letters or
    whitespace characters, a line break. *)
Lemma heading_next_iff (s : text) :
  Plain.heading_next s = true
  <-> exists run rest, s = nl :: run ++ nl :: rest
                       /\ 3 <= length run
                       /\ forallb Plain.letter_or_space run = true.
Proof.
  destruct s as [|c s]; cbn [Plain.heading_next].
  - split; [discriminate|]. intros [run [rest [Hs _]]]. discriminate.
  - split.
    + intro H. apply andb_prop in H. destruct H as [Hn Hr].
      apply is_nl_true in Hn. subst c. apply heading_run_iff in Hr.
      destruct Hr as [run [rest [-> [Hlen Hall]]]]. exists run, rest. auto.
    + intros [run [rest [Hs [Hlen Hall]]]]. injection Hs as Hx Hs'; subst.
      rewrite (proj2 (is_nl_true nl) eq_refl). cbn [andb].
      apply heading_run_iff. exists run, rest. auto.
Qed.

Lemma digits_dot_iff (s : text) :
  forall seen,
    Plain.digits_dot seen s = true
    <-> exists ds rest, s = ds ++ "."%char :: rest
                        /\ forallb Char.is_digit ds = true
                        /\ (seen = true \/ 1 <= length ds).
Proof.
  induction s as [|c s IH]; intro seen; cbn [Plain.digits_dot].
  - split; [discriminate|]. intros [[|x ds] [rest [Hs _]]]; discriminate.
  - destruct (Char.is_digit c) eqn:Hc.
    + rewrite IH. split.
      * intros [ds [rest [-> [Hall _]]]]. exists (c :: ds), rest.
        cbn [app forallb length]. rewrite Hc, Hall. repeat split. right. lia.
      * intros [[|x ds] [rest [Hs [Hall Hseen]]]]; cbn [app forallb] in *.
        -- injection Hs as Hx Hs'; subst. pose proof (digit_not_dot _ Hc) as Hd.
           destruct (ascii_dec "." "."); [discriminate|congruence].
        -- injection Hs as Hx Hs'; subst. apply andb_prop in Hall. destruct Hall as [_ Hall].
           exists ds, rest. auto.
    + split.
      * intro H. apply andb_prop in H. destruct H as [Hseen Hd].
        destruct (ascii_dec c "."); [|discriminate]. subst c.
        exists [], s. cbn [app forallb]. auto.
      * intros [[|x ds] [rest [Hs [Hall Hseen]]]]; cbn [app forallb length] in *.
        -- injection Hs as Hx Hs'; subst. destruct Hseen as [->|Hlen]; [|lia].
           destruct (ascii_dec "." "."); [reflexivity|congruence].
        -- injection Hs as Hx Hs'; subst. rewrite Hc in Hall. discriminate.
Qed.

(** The numbered-marker stop: a line break, one or more digits, a dot. *)
Lemma numbered_next_iff (s : text) :
  Plain.numbered_next s = true
  <-> exists ds rest, s = nl :: ds ++ "."%char :: rest
                      /\ forallb Char.is_digit ds = true
                      /\ 1 <= length ds.
Proof.
  destruct s as [|c s]; cbn [Plain.numbered_next].
  - split; [discriminate|]. intros [ds [rest [Hs _]]]. discriminate.
  - split.
    + intro H. apply andb_prop in H. destruct H as [Hn Hd].
      apply is_nl_true in Hn. subst c. apply digits_dot_iff in Hd.
      destruct Hd as [ds [rest [-> [Hall [Hf|Hlen]]]]]; [discriminate|].
      exists ds, rest. auto.
    + intros [ds [rest [Hs [Hall Hlen]]]]. injection Hs as Hx Hs'; subst.
      rewrite (proj2 (is_nl_true nl) eq_refl). cbn [andb].
      apply digits_dot_iff. exists ds, rest. auto.
Qed.

(** The capture ends at the first stopping point: the stop holds where it
    ends, and nowhere before. *)
Lemma take_until_first (stop : text -> bool) (s : text) :
  stop [] = true ->
  stop (Plain.drop_until stop s) = true
  /\ forall p q, s = p ++ q -> length p < length (Plain.take_until stop s) ->
                 stop q = false.
Proof.
  intro Hnil. induction s as [|c s [IH1 IH2]]; cbn [Plain.take_until Plain.drop_until].
  - rewrite Hnil. split; [exact Hnil|]. cbn [length]. intros p q _ H. lia.
  - destruct (stop (c :: s)) eqn:E.
    + split; [exact E|]. cbn [length]. intros p q _ H. lia.
    + split; [exact IH1|]. intros [|x p] q Hs Hlen; cbn [app length] in *.
      * subst q. exact E.
      * injection Hs as Hx Hs'; subst. apply (IH2 p q eq_refl). lia.
Qed.

(** The heading that counts is the leftmost one. *)
Lemma first_heading_leftmost (kw : text) (stop : text -> bool) (s c : text) :
  Plain.first_heading kw stop s = Some c ->
  exists pre suf,
    s = pre ++ suf
    /\ Plain.heading_here kw stop suf = Some c
    /\ forall p q, s = p ++ q -> length p < length pre ->
                   Plain.heading_here kw stop q = None.
Proof.
  induction s as [|x s IH]; cbn [Plain.first_heading].
  - destruct (Plain.heading_here kw stop []) as [c0|] eqn:E; [|discriminate].
    intros [= <-]. exists [], []. repeat split; [exact E|]. cbn [length]. intros; lia.
  - destruct (Plain.heading_here kw stop (x :: s)) as [c0|] eqn:E.
    + intros [= <-]. exists [], (x :: s). repeat split; [exact E|].
      cbn [length]. intros; lia.
    + intro H. destruct (IH H) as [pre [suf [-> [Hh Hmin]]]].
      exists (x :: pre), suf. repeat split; [exact Hh|].
      intros [|y p] q Hs Hlen; cbn [app length] in *.
      * subst q. exact E.
      * injection Hs as Hx Hs; subst. apply (Hmin p q Hs). lia.
Qed.

Lemma first_heading_none (kw : text) (stop : text -> bool) (s : text) :
  Plain.first_heading kw stop s = None ->
  forall p q, s = p ++ q -> Plain.heading_here kw stop q = None.
Proof.
  induction s as [|x s IH]; cbn [Plain.first_heading].
  - destruct (Plain.heading_here kw stop []) eqn:E; [discriminate|].
    intros _ [|y p] q Hs; [cbn in Hs; subst q; exact E|discriminate].
  - destruct (Plain.heading_here kw stop (x :: s)) eqn:E; [discriminate|].
    intros H [|y p] q Hs; cbn [app] in Hs.
    + subst q. exact E.
    + injection Hs as Hx Hs; subst. apply (IH H p q eq_refl).
Qed.

(** ** The scanning loop does not run out of rounds *)

Section Scan_facts.

Variable fl : Re.flags.

Lemma rep_min_shorter (R : Type) (m : ascii -> bool) (n : nat) :
  forall s (k : text -> option R) x,
    Re.rep_min m n s k = Some x ->
    exists s', length s' <= length s /\ k s' = Some x.
Proof.
  induction n as [|n IH]; intros s k x H; cbn [Re.rep_min] in H.
  - exists s. split; [lia|exact H].
  - destruct s as [|c s]; [discriminate|]. destruct (m c); [|discriminate].
    destruct (IH _ _ _ H) as [s' [Hle Hk]]. exists s'. cbn [length]. split; [lia|exact Hk].
Qed.

Lemma rep_greedy_shorter (R : Type) (m : ascii -> bool) :
  forall s hi (k : text -> option R) x,
    Re.rep_greedy m hi s k = Some x ->
    exists s', length s' <= length s /\ k s' = Some x.
Proof.
  induction s as [|c s IH]; intros hi k x H; cbn [Re.rep_greedy] in H.
  - exists []. split; [lia|exact H].
  - destruct (m c && Re.more hi).
    + destruct (Re.rep_greedy m (Re.less hi) s k) as [y|] eqn:E.
      * injection H as <-. destruct (IH _ _ _ E) as [s' [Hle Hk]].
        exists s'. cbn [length]. split; [lia|exact Hk].
      * exists (c :: s). split; [lia|exact H].
    + exists (c :: s). split; [lia|exact H].
Qed.

Lemma rep_lazy_shorter (R : Type) (m : ascii -> bool) :
  forall s hi (k : text -> option R) x,
    Re.rep_lazy m hi s k = Some x ->
    exists s', length s' <= length s /\ k s' = Some x.
Proof.
  induction s as [|c s IH]; intros hi k x H; cbn [Re.rep_lazy] in H.
  - destruct (k []) as [y|] eqn:E; [|discriminate].
    exists []. split; [lia|]. rewrite E. exact H.
  - destruct (k (c :: s)) as [y|] eqn:E.
    + exists (c :: s). split; [lia|]. rewrite E. exact H.
    + destruct (m c && Re.more hi); [|discriminate].
      destruct (IH _ _ _ H) as [s' [Hle Hk]].
      exists s'. cbn [length]. split; [lia|exact Hk].
Qed.

(** Whatever the pattern, the continuation is reached on a suffix. *)
Lemma bt_shorter (r : Re.regex) :
  forall (R : Type) s g (k : text -> option text -> option R) x,
    Re.bt fl r s g k = Some x ->
    exists s' g', length s' <= length s /\ k s' g' = Some x.
Proof.
  induction r as [|cs|r1 IH1 r2 IH2|r1 IH1 r2 IH2|greedy lo hi cs|r1 IH1|r1 IH1|];
    intros R s g k x H; cbn [Re.bt] in H.
  - exists s, g. split; [lia|exact H].
  - destruct s as [|c s]; [discriminate|].
    destruct (Re.cset_match fl cs c); [|discriminate].
    exists s, g. cbn [length]. split; [lia|exact H].
  - destruct (IH1 _ _ _ _ _ H) as [s1 [g1 [Hle1 H1]]].
    destruct (IH2 _ _ _ _ _ H1) as [s2 [g2 [Hle2 H2]]].
    exists s2, g2. split; [lia|exact H2].
  - destruct (Re.bt fl r1 s g k) as [y|] eqn:E.
    + injection H as <-. apply (IH1 _ _ _ _ _ E).
    + apply (IH2 _ _ _ _ _ H).
  - destruct (rep_min_shorter _ _ _ _ H) as [s1 [Hle1 H1]].
    destruct greedy.
    + destruct (rep_greedy_shorter _ _ _ _ H1) as [s2 [Hle2 H2]].
      exists s2, g. split; [lia|exact H2].
    + destruct (rep_lazy_shorter _ _ _ _ H1) as [s2 [Hle2 H2]].
      exists s2, g. split; [lia|exact H2].
  - destruct (IH1 _ _ _ _ _ H) as [s1 [g1 [Hle1 H1]]].
    exists s1. eexists. split; [exact Hle1|exact H1].
  - destruct (Re.bt fl r1 s g (fun _ g' => Some g')) as [g'|]; [|discriminate].
    exists s, g'. split; [lia|exact H].
  - destruct s; [|discriminate]. exists [], g. split; [lia|exact H].
Qed.

Lemma match_here_shorter (r : Re.regex) (adv : bool) (s s' : text) (g : option text) :
  Re.match_here fl r adv s = Some (s', g) ->
  length s' <= length s /\ (adv = true -> length s' < length s).
Proof.
  unfold Re.match_here. intro H.
  destruct (bt_shorter _ _ _ _ H) as [s1 [g1 [Hle H1]]].
  destruct (adv && (length s1 =? length s)) eqn:E; [discriminate|].
  injection H1 as <- _. split; [exact Hle|]. intros ->. cbn [andb] in E.
  apply Nat.eqb_neq in E. lia.
Qed.

Lemma search_from_shorter (r : Re.regex) :
  forall s adv i s' g,
    Re.search_from fl r adv s = Some (i, s', g) ->
    length s' + i <= length s /\ (adv = true -> length s' < length s).
Proof.
  induction s as [|c s IH]; intros adv i s' g H; cbn [Re.search_from] in H.
  - destruct (Re.match_here fl r adv []) as [[s1 g1]|] eqn:E; [|discriminate].
    injection H as <- <- <-. destruct (match_here_shorter _ _ _ E) as [Hle Hadv].
    split; [lia|exact Hadv].
  - destruct (Re.match_here fl r adv (c :: s)) as [[s1 g1]|] eqn:E.
    + injection H as <- <- <-. destruct (match_here_shorter _ _ _ E) as [Hle Hadv].
      split; [lia|exact Hadv].
    + destruct (Re.search_from fl r false s) as [[[i1 s1] g1]|] eqn:E1; [|discriminate].
      injection H as <- <- <-. destruct (IH _ _ _ _ E1) as [Hle _].
      cbn [length]. split; [lia|intros _; lia].
Qed.

(** With [2 * length s + 2] rounds or more the loop stops by itself:
    further rounds change nothing. *)
Lemma scan_enough (r : Re.regex) :
  forall (f f' : nat) (adv : bool) (s : text),
    2 * length s + (if adv then 0 else 1) < f -> f <= f' ->
    Re.scan fl r f' adv s = Re.scan fl r f adv s.
Proof.
  induction f as [|f IH]; intros f' adv s Hf Hle; [lia|].
  destruct f' as [|f']; [lia|]. cbn [Re.scan].
  destruct (Re.search_from fl r adv s) as [[[i s'] g]|] eqn:E; [|reflexivity].
  destruct (search_from_shorter _ _ _ E) as [Hlen Hadv].
  rewrite (IH f' (length s' =? length (skipn i s)) s'); [reflexivity| |lia].
  rewrite length_skipn.
  destruct (length s' =? length s - i) eqn:Eq.
  - apply Nat.eqb_eq in Eq. destruct adv.
    + specialize (Hadv eq_refl). lia.
    + lia.
  - apply Nat.eqb_neq in Eq. destruct adv; lia.
Qed.

Lemma scan_all_enough (r : Re.regex) (s : text) (f : nat) :
  2 * length s + 2 <= f -> Re.scan fl r f false s = Re.scan_all fl r s.
Proof. intro H. unfold Re.scan_all. apply scan_enough; lia. Qed.

End Scan_facts.

(** ** Dictionaries *)

Lemma text_eqb_eq (a b : text) : text_eqb a b = true <-> a = b.
Proof.
  unfold text_eqb. destruct (list_eq_dec ascii_dec a b); split; congruence.
Qed.

Lemma text_eqb_refl (a : text) : text_eqb a a = true.
Proof. apply text_eqb_eq. reflexivity. Qed.

Lemma text_eqb_neq (a b : text) : a <> b -> text_eqb a b = false.
Proof.
  intro H. unfold text_eqb. destruct (list_eq_dec ascii_dec a b); congruence.
Qed.

Section Dict_facts.

Variable V : Type.
Implicit Types (d : Dict.dict V) (k : text) (v : V).

Lemma get_set_same d k v : Dict.get (Dict.set d k v) k = Some v.
Proof.
  induction d as [|[k' v'] d IH]; cbn [Dict.set Dict.get].
  - rewrite text_eqb_refl. reflexivity.
  - destruct (text_eqb k' k) eqn:E; cbn [Dict.get]; rewrite E; [reflexivity|exact IH].
Qed.

Lemma get_set_other d k k' v :
  k <> k' -> Dict.get (Dict.set d k v) k' = Dict.get d k'.
Proof.
  intro Hne. induction d as [|[k0 v0] d IH]; cbn [Dict.set Dict.get].
  - rewrite (text_eqb_neq Hne). reflexivity.
  - destruct (text_eqb k0 k) eqn:E; cbn [Dict.get].
    + apply text_eqb_eq in E. subst k0. rewrite (text_eqb_neq Hne). reflexivity.
    + rewrite IH. reflexivity.
Qed.

Lemma mem_set_same d k v : Dict.mem (Dict.set d k v) k = true.
Proof. unfold Dict.mem. rewrite get_set_same. reflexivity. Qed.

Lemma mem_set_other d k k' v :
  k <> k' -> Dict.mem (Dict.set d k v) k' = Dict.mem d k'.
Proof. intro H. unfold Dict.mem. rewrite (get_set_other d v H). reflexivity. Qed.

Lemma keys_set_old d k v :
  Dict.mem d k = true -> Dict.keys (Dict.set d k v) = Dict.keys d.
Proof.
  unfold Dict.mem, Dict.keys.
  induction d as [|[k0 v0] d IH]; cbn [Dict.set Dict.get map fst]; [discriminate|].
  destruct (text_eqb k0 k); cbn [map fst]; [reflexivity|].
  intro H. rewrite (IH H). reflexivity.
Qed.

Lemma keys_set_new d k v :
  Dict.mem d k = false -> Dict.keys (Dict.set d k v) = Dict.keys d ++ [k].
Proof.
  unfold Dict.mem, Dict.keys.
  induction d as [|[k0 v0] d IH]; cbn [Dict.set Dict.get map fst app]; [reflexivity|].
  destruct (text_eqb k0 k); cbn [map fst]; [discriminate|].
  intro H. rewrite (IH H). reflexivity.
Qed.

Lemma mem_in_keys d k : Dict.mem d k = true <-> In k (Dict.keys d).
Proof.
  unfold Dict.mem, Dict.keys.
  induction d as [|[k0 v0] d IH]; cbn [Dict.get map fst In].
  - split; [discriminate|contradiction].
  - destruct (text_eqb k0 k) eqn:E.
    + apply text_eqb_eq in E. split; [intros _; left; exact E|reflexivity].
    + rewrite IH. split; [intro H; right; exact H|].
      intros [H|H]; [|exact H]. apply text_eqb_eq in H. congruence.
Qed.

End Dict_facts.

(** ** [_identify_sections], label by label *)

Lemma identify_step_search (txt : text) (d : Dict.dict text) (p : Re.regex * text) :
  identify_step txt d p
  = match Re.search_group1 sec_flags (fst p) txt with
    | Some m0 => Dict.set d (snd p) (Str.strip m0)
    | None => d
    end.
Proof.
  unfold identify_step. rewrite <- findall_first.
  destruct (Re.findall sec_flags (fst p) txt); reflexivity.
Qed.

Lemma identify_fold_other (txt : text) (label : text) (ps : list (Re.regex * text)) :
  (forall p, In p ps -> snd p <> label) ->
  forall d, Dict.get (fold_left (identify_step txt) ps d) label = Dict.get d label.
Proof.
  induction ps as [|p ps IH]; intros Hps d; [reflexivity|].
  cbn [fold_left]. rewrite IH by (intros q Hq; apply Hps; right; exact Hq).
  rewrite identify_step_search.
  destruct (Re.search_group1 sec_flags (fst p) txt); [|reflexivity].
  apply get_set_other. apply Hps. left. reflexivity.
Qed.

Lemma identify_fold_get (txt : text) (label : text) (r : Re.regex)
      (ps : list (Re.regex * text)) :
  NoDup (map snd ps) -> In (r, label) ps ->
  forall d,
    Dict.get (fold_left (identify_step txt) ps d) label
    = match Re.search_group1 sec_flags r txt with
      | Some m0 => Some (Str.strip m0)
      | None => Dict.get d label
      end.
Proof.
  induction ps as [|p ps IH]; intros Hnd Hin d; [contradiction|].
  cbn [map] in Hnd. inversion Hnd as [|x l Hx Hnd']; subst.
  cbn [fold_left]. destruct Hin as [Hp|Hin].
  - subst p. cbn [snd] in Hx.
    rewrite identify_fold_other.
    + rewrite identify_step_search. cbn [fst snd].
      destruct (Re.search_group1 sec_flags r txt); [apply get_set_same|reflexivity].
    + intros q Hq Heq. apply Hx. rewrite <- Heq. apply in_map. exact Hq.
  - rewrite (IH Hnd' Hin). rewrite identify_step_search.
    destruct (Re.search_group1 sec_flags r txt); [reflexivity|].
    destruct (Re.search_group1 sec_flags (fst p) txt); [|reflexivity].
    apply get_set_other. intro Heq. apply Hx. rewrite Heq.
    change label with (snd (r, label)). apply in_map. exact Hin.
Qed.

Lemma section_labels_distinct : NoDup (map snd section_patterns).
Proof.
  cbv [section_patterns map snd str list_ascii_of_string].
  repeat (constructor; [cbn [In]; intuition discriminate|]). constructor.
Qed.

Lemma identify_get (txt : text) (kw : string) (look : Re.regex)
      (stop : text -> bool) (label : text) :
  stop [] = true ->
  (forall (R : Type) s g (k : text -> option text -> option R),
      Re.bt sec_flags look s g k = if stop s then k s g else None) ->
  In (heading kw look, label) section_patterns ->
  Dict.get (_identify_sections txt) label
  = option_map Str.strip (Plain.first_heading (str kw) stop txt).
Proof.
  intros Hnil Hlook Hin. unfold _identify_sections.
  rewrite (@identify_fold_get txt label (heading kw look) section_patterns
             section_labels_distinct Hin).
  rewrite (@heading_search kw look stop Hnil Hlook).
  destruct (Plain.first_heading (str kw) stop txt); reflexivity.
Qed.

(** ** Claims about [_identify_sections] *)

(** C1 (as amended).  On the page text of scenario A, [_identify_sections]
    returns two entries, in this order: Abstract with exactly the trimmed
    text between the ABSTRACT heading and the INTRODUCTION heading line,
    and Introduction with the text after that heading up to the end. *)
Theorem scenario_A_sections :
  _identify_sections scenario_A
  = [ (str "Abstract", str "We study X.");
      (str "Introduction", str "X matters because Y.") ].
Proof. vm_compute. reflexivity. Qed.

(** The mapping of scenario A is not the one-entry mapping. *)
Lemma scenario_A_not_abstract_alone :
  _identify_sections scenario_A <> [ (str "Abstract", str "We study X.") ].
Proof. vm_compute. discriminate. Qed.




Lemma conclusions_heading_here (body : text) :
  Plain.first_heading (str "CONCLUSION") Plain.body_stop
                      (str "CONCLUSIONS" ++ nl :: body)
  = Plain.first_heading (str "CONCLUSION") Plain.body_stop body.
Proof. reflexivity. Qed.

Lemma first_heading_here (kw : text) (stop : text -> bool) (s c : text) :
  Plain.heading_here kw stop s = Some c -> Plain.first_heading kw stop s = Some c.
Proof. intro H. destruct s; cbn [Plain.first_heading]; rewrite H; reflexivity. Qed.

Lemma conclusions_heading_found (body : text) :
  Plain.first_heading (str "CONCLUSIONS") Plain.body_stop
                      (str "CONCLUSIONS" ++ nl :: body) <> None.
Proof.
  assert (H : exists c,
             Plain.heading_here (str "CONCLUSIONS") Plain.body_stop
                                (str "CONCLUSIONS" ++ nl :: body) = Some c).
  { change (Plain.heading_here (str "CONCLUSIONS") Plain.body_stop
                               (str "CONCLUSIONS" ++ nl :: body))
      with (match (match Plain.after_line_break body with
                   | Some b => Some b
                   | None => Some body
                   end) with
            | Some b => Some (Plain.take_until Plain.body_stop b)
            | None => None
            end).
    destruct (Plain.after_line_break body); eexists; reflexivity. }
  destruct H as [c H]. rewrite (first_heading_here _ _ _ H). discriminate.
Qed.

(** C9 (as amended).  For every page text made of CONCLUSIONS, a line
    break and a body, [_identify_sections] returns the label Conclusions;
    the heading itself never yields the label Conclusion: that label, and
    its value, are exactly what the body alone yields, so it is returned
    only when the body has a CONCLUSION heading of its own. *)
Theorem conclusions_heading_labels (body : text) :
  Dict.mem (_identify_sections (str "CONCLUSIONS" ++ nl :: body)) (str "Conclusions")
  = true
  /\ Dict.get (_identify_sections (str "CONCLUSIONS" ++ nl :: body)) (str "Conclusion")
     = Dict.get (_identify_sections body) (str "Conclusion").
Proof.
  split.
  - unfold Dict.mem.
    rewrite (@identify_get _ "CONCLUSIONS" body_lookahead Plain.body_stop
                           (str "Conclusions") eq_refl body_lookahead_test)
      by (cbn; tauto).
    pose proof (conclusions_heading_found body) as H.
    destruct (Plain.first_heading (str "CONCLUSIONS") Plain.body_stop
                (str "CONCLUSIONS" ++ nl :: body)); [reflexivity|contradiction].
  - rewrite !(@identify_get _ "CONCLUSION" body_lookahead Plain.body_stop
                            (str "Conclusion") eq_refl body_lookahead_test)
      by (cbn; tauto).
    rewrite conclusions_heading_here. reflexivity.
Qed.

(** A body with a CONCLUSION line of its own: both labels are returned. *)
Lemma conclusions_body_with_conclusion :
  Dict.get (_identify_sections conclusions_with_phrase) (str "Conclusion")
  = Some (str "we win.")
  /\ Dict.mem (_identify_sections conclusions_with_phrase) (str "Conclusions") = true.
Proof. split; vm_compute; reflexivity. Qed.

(** ** Trimming *)

Lemma lstrip_no_lead (s : text) : no_lead (Str.lstrip s).
Proof.
  induction s as [|c s IH]; cbn [Str.lstrip]; [exact I|].
  destruct (Char.is_space c) eqn:E; [exact IH|exact E].
Qed.

Lemma lstrip_fixed (s : text) : no_lead s -> Str.lstrip s = s.
Proof.
  destruct s as [|c s]; [reflexivity|]. cbn [no_lead Str.lstrip].
  intros ->. reflexivity.
Qed.

Lemma lstrip_app_cons (l r : text) (c : ascii) :
  Char.is_space c = false -> Str.lstrip (l ++ c :: r) = Str.lstrip l ++ c :: r.
Proof.
  intro Hc. induction l as [|x l IH]; cbn [app Str.lstrip].
  - rewrite Hc. reflexivity.
  - destruct (Char.is_space x); [exact IH|reflexivity].
Qed.

Lemma rstrip_no_lead (s : text) : no_lead s -> no_lead (Str.rstrip s).
Proof.
  destruct s as [|c s]; [intros _; exact I|]. cbn [no_lead]. intro Hc.
  unfold Str.rstrip. cbn [rev]. rewrite (lstrip_app_cons (rev s) [] c Hc).
  rewrite rev_app_distr. exact Hc.
Qed.

Lemma rstrip_idempotent (s : text) : Str.rstrip (Str.rstrip s) = Str.rstrip s.
Proof.
  unfold Str.rstrip. rewrite rev_involutive.
  rewrite (lstrip_fixed _ (lstrip_no_lead (rev s))). reflexivity.
Qed.

Lemma strip_idempotent (s : text) : Str.strip (Str.strip s) = Str.strip s.
Proof.
  unfold Str.strip.
  rewrite (lstrip_fixed _ (rstrip_no_lead _ (lstrip_no_lead s))).
  apply rstrip_idempotent.
Qed.

(** ** Claims about [_extract_references] *)

Lemma split_without_match (fl : Re.flags) (r : Re.regex) (s : text) :
  Re.search_from fl r false s = None -> Re.split fl r s = [s].
Proof.
  intro H. unfold Re.split, Re.scan_all.
  replace (2 * length s + 2) with (S (2 * length s + 1)) by lia.
  cbn [Re.scan]. rewrite H. reflexivity.
Qed.

(** C4.  Every string returned by [_extract_references] has more than 20
    characters once trimmed (and is itself trimmed); a fragment of the
    reference block is returned, trimmed, exactly when its trimmed length
    exceeds 20; a reference block in which the boundary pattern has no
    match is a single fragment under the same rule, so that a block of 20
    characters gives nothing, one of 21 characters is returned, and the
    block "See appendix." gives the empty sequence. *)
Theorem references_longer_than_20 :
  (forall txt r,
      In r (_extract_references txt) ->
      20 < length (Str.strip r) /\ Str.strip r = r)
  /\ (forall txt block fragment,
         Re.search_group1 sec_flags ref_pattern txt = Some block ->
         In fragment (Re.split Re.no_flags ref_boundary block) ->
         (In (Str.strip fragment) (_extract_references txt)
          <-> 20 < length (Str.strip fragment)))
  /\ (forall txt block,
         Re.search_group1 sec_flags ref_pattern txt = Some block ->
         Re.search_from Re.no_flags ref_boundary false block = None ->
         _extract_references txt
         = if 20 <? length (Str.strip block) then [Str.strip block] else [])
  /\ _extract_references references_of_20 = []
  /\ _extract_references references_of_21 = [str "abcdefghijklmnopqrstu"]
  /\ _extract_references see_appendix = [].
Proof.
  assert (Hlong : forall txt r,
             In r (_extract_references txt) ->
             20 < length (Str.strip r) /\ Str.strip r = r).
  { intros txt r. unfold _extract_references.
    destruct (Re.search_group1 sec_flags ref_pattern txt) as [block|]; [|contradiction].
    rewrite in_map_iff. intros [f [<- Hf]]. apply filter_In in Hf.
    destruct Hf as [_ Hf]. unfold long_enough in Hf. apply Nat.ltb_lt in Hf.
    rewrite strip_idempotent. split; [exact Hf|reflexivity]. }
  split; [exact Hlong|]. split; [|split; [|repeat split; vm_compute; reflexivity]].
  - intros txt block fragment Hm Hin. split.
    + intro Hr. destruct (Hlong txt _ Hr) as [H _].
      rewrite strip_idempotent in H. exact H.
    + intro Hlen. unfold _extract_references. rewrite Hm.
      apply in_map. apply filter_In. split; [exact Hin|].
      unfold long_enough. apply Nat.ltb_lt. exact Hlen.
  - intros txt block Hm Hb. unfold _extract_references. rewrite Hm.
    rewrite (split_without_match _ _ _ Hb). cbn [filter]. unfold long_enough.
    destruct (20 <? length (Str.strip block)); reflexivity.
Qed.

Lemma references_longer_than_20_witness :
  (20 < length (Str.strip (str "abcdefghijklmnopqrstu"))
   /\ Str.strip (str "abcdefghijklmnopqrstu") = str "abcdefghijklmnopqrstu")
  /\ _extract_references see_appendix
     = if 20 <? length (Str.strip (str "See appendix."))
       then [Str.strip (str "See appendix.")] else [].
Proof.
  split.
  - apply (proj1 references_longer_than_20 references_of_21).
    vm_compute. left. reflexivity.
  - apply (proj1 (proj2 (proj2 references_longer_than_20))
                 see_appendix (str "See appendix."));
      vm_compute; reflexivity.
Defined.

(** Scenario B of the specification. *)
Lemma scenario_B_references :
  _extract_references scenario_B
  = [ str "[1] A. Author, Title, 2020."; str "[2] B. Author, Other Title, 2019." ].
Proof. vm_compute. reflexivity. Qed.

(** ** Claims about [get_document_summary] *)

Lemma split_ws_aux_length (s cur : text) :
  length (Str.split_ws_aux cur s)
  = (if Plain.is_nil cur then 0 else 1) + Plain.count_tokens (Plain.is_nil cur) s.
Proof.
  revert cur. induction s as [|c s IH]; intro cur;
    cbn [Str.split_ws_aux Plain.count_tokens].
  - destruct cur; reflexivity.
  - destruct (Char.is_space c).
    + destruct cur; cbn [length Plain.is_nil]; rewrite IH; reflexivity.
    + rewrite IH. destruct cur; cbn [Plain.is_nil]; lia.
Qed.

Lemma split_ws_length (s : text) :
  length (Str.split_ws s) = Plain.count_tokens true s.
Proof. unfold Str.split_ws. rewrite split_ws_aux_length. reflexivity. Qed.

(** C8.  [get_document_summary] returns the empty mapping when the file
    name is not in the cache; otherwise it returns exactly the six entries
    filename, pages, sections (the section keys), tables_count,
    references_count and word_count of the cached record, the word count
    being the number of maximal whitespace-free runs of the full text. *)
Theorem summary_of_cached_document (fname : text) (w : world) :
  (Dict.get (processed_docs w) fname = None -> get_document_summary fname w = [])
  /\ (forall doc,
         Dict.get (processed_docs w) fname = Some doc ->
         get_document_summary fname w
         = [ (str "filename", VStr (filename doc));
             (str "pages", VInt (total_pages doc));
             (str "sections", VList (Dict.keys (structured_content doc)));
             (str "tables_count", VInt (length (tables doc)));
             (str "references_count", VInt (length (references doc)));
             (str "word_count", VInt (Plain.count_tokens true (text_content doc))) ]).
Proof.
  unfold get_document_summary. split.
  - intros ->. reflexivity.
  - intros doc ->. rewrite split_ws_length. reflexivity.
Qed.

Lemma summary_of_cached_document_witness :
  get_document_summary (str "missing.pdf") empty_world = []
  /\ get_document_summary (str "a.pdf") sample_world
     = [ (str "filename", VStr (str "a.pdf"));
         (str "pages", VInt 2);
         (str "sections", VList [str "Abstract"]);
         (str "tables_count", VInt 0);
         (str "references_count", VInt 0);
         (str "word_count", VInt 3) ].
Proof.
  split.
  - apply (proj1 (summary_of_cached_document (str "missing.pdf") empty_world)).
    reflexivity.
  - apply (proj2 (summary_of_cached_document (str "a.pdf") sample_world) sample_content).
    reflexivity.
Defined.

(** ** Claims about [_add_to_history] *)

(** C10.  After [_add_to_history] the history holds at most 10 entries;
    when the appended history has more than 10, exactly its last 10 are
    kept, in order; otherwise the appended history is kept whole. *)
Theorem history_keeps_last_10 (h : list Agent.exchange) (q r : text) :
  let h' := h ++ [{| Agent.query := q; Agent.response := r |}] in
  length (Agent._add_to_history h q r) <= 10
  /\ (10 < length h' ->
      length (Agent._add_to_history h q r) = 10
      /\ exists older, h' = older ++ Agent._add_to_history h q r)
  /\ (length h' <= 10 -> Agent._add_to_history h q r = h').
Proof.
  intro h'. unfold Agent._add_to_history. fold h'. unfold Agent.last_n.
  destruct (10 <? length h') eqn:E.
  - apply Nat.ltb_lt in E. split; [rewrite length_skipn; lia|]. split.
    + intros _. split; [rewrite length_skipn; lia|].
      exists (firstn (length h' - 10) h'). symmetry. apply firstn_skipn.
    + intro H. lia.
  - apply Nat.ltb_ge in E. split; [exact E|]. split; [intro H; lia|].
    intros _. reflexivity.
Qed.

Lemma history_keeps_last_10_witness :
  (length (Agent._add_to_history (repeat sample_exchange 10) (str "q") (str "r")) = 10
   /\ exists older,
        repeat sample_exchange 10 ++ [{| Agent.query := str "q"; Agent.response := str "r" |}]
        = older ++ Agent._add_to_history (repeat sample_exchange 10) (str "q") (str "r"))
  /\ Agent._add_to_history [] (str "q") (str "r")
     = [{| Agent.query := str "q"; Agent.response := str "r" |}].
Proof.
  split.
  - apply (proj1 (proj2 (history_keeps_last_10 (repeat sample_exchange 10) (str "q") (str "r")))).
    vm_compute. lia.
  - apply (proj2 (proj2 (history_keeps_last_10 [] (str "q") (str "r")))).
    vm_compute. lia.
Defined.

(** ** Merging the sections of the pages *)

Lemma item_set_same (V : Type) (d : Dict.dict V) (k : text) (v dflt : V) :
  Dict.item (Dict.set d k v) k dflt = v.
Proof. unfold Dict.item. rewrite get_set_same. reflexivity. Qed.

Lemma merge_section_get_same (acc : Dict.dict text) (t c : text) :
  Dict.get (merge_section acc (t, c)) t = Some (Dict.item acc t [] ++ c).
Proof.
  unfold merge_section. rewrite get_set_same. f_equal. f_equal.
  destruct (Dict.mem acc t) eqn:E; [reflexivity|].
  rewrite item_set_same. unfold Dict.item. unfold Dict.mem in E.
  destruct (Dict.get acc t); [discriminate|reflexivity].
Qed.

Lemma merge_section_get_other (acc : Dict.dict text) (t c k : text) :
  t <> k -> Dict.get (merge_section acc (t, c)) k = Dict.get acc k.
Proof.
  intro H. unfold merge_section. rewrite (get_set_other _ _ H).
  destruct (Dict.mem acc t); [reflexivity|]. apply (get_set_other _ _ H).
Qed.

Lemma merge_section_keys (acc : Dict.dict text) (t c : text) :
  Dict.keys (merge_section acc (t, c))
  = if Dict.mem acc t then Dict.keys acc else Dict.keys acc ++ [t].
Proof.
  unfold merge_section. destruct (Dict.mem acc t) eqn:E.
  - apply keys_set_old. exact E.
  - rewrite keys_set_old by apply mem_set_same. apply keys_set_new. exact E.
Qed.

Lemma position_bound (k : text) (l : list text) (a : nat) :
  Plain.position k l = Some a -> a < length l.
Proof.
  revert a. induction l as [|x l IH]; intro a; cbn [Plain.position length]; [discriminate|].
  destruct (text_eqb x k); [intros [= <-]; lia|].
  destruct (Plain.position k l) as [i|]; [|discriminate].
  intros [= <-]. specialize (IH i eq_refl). lia.
Qed.

Lemma position_app_left (k : text) (l r : list text) (a : nat) :
  Plain.position k l = Some a -> Plain.position k (l ++ r) = Some a.
Proof.
  revert a. induction l as [|x l IH]; intro a; cbn [Plain.position app]; [discriminate|].
  destruct (text_eqb x k); [trivial|].
  destruct (Plain.position k l) as [i|]; [|discriminate].
  rewrite (IH i eq_refl). trivial.
Qed.

Lemma position_absent (k : text) (l : list text) :
  ~ In k l -> Plain.position k l = None.
Proof.
  induction l as [|x l IH]; intro H; cbn [Plain.position]; [reflexivity|].
  rewrite text_eqb_neq by (intro E; apply H; left; exact E).
  rewrite IH by (intro E; apply H; right; exact E). reflexivity.
Qed.

Lemma position_new_last (k : text) (l : list text) :
  ~ In k l -> Plain.position k (l ++ [k]) = Some (length l).
Proof.
  induction l as [|x l IH]; intro H; cbn [Plain.position app length].
  - rewrite text_eqb_refl. reflexivity.
  - rewrite text_eqb_neq by (intro E; apply H; left; exact E).
    rewrite IH by (intro E; apply H; right; exact E). reflexivity.
Qed.

Lemma mem_false_not_in (V : Type) (d : Dict.dict V) (k : text) :
  Dict.mem d k = false -> ~ In k (Dict.keys d).
Proof. intros H Hin. apply mem_in_keys in Hin. congruence. Qed.

Section Merge_facts.

Variable k : text.

Lemma merge_section_position (acc : Dict.dict text) (it : text * text) (a : nat) :
  Plain.position k (Dict.keys acc) = Some a ->
  Plain.position k (Dict.keys (merge_section acc it)) = Some a.
Proof.
  destruct it as [t c]. rewrite merge_section_keys.
  destruct (Dict.mem acc t); [trivial|apply position_app_left].
Qed.

Lemma merge_section_length (acc : Dict.dict text) (it : text * text) :
  length (Dict.keys acc) <= length (Dict.keys (merge_section acc it)).
Proof.
  destruct it as [t c]. rewrite merge_section_keys.
  destruct (Dict.mem acc t); [lia|]. rewrite length_app. lia.
Qed.

Lemma merge_sections_position (secs acc : Dict.dict text) (a : nat) :
  Plain.position k (Dict.keys acc) = Some a ->
  Plain.position k (Dict.keys (merge_sections acc secs)) = Some a.
Proof.
  unfold merge_sections. revert acc.
  induction secs as [|it secs IH]; intros acc H; [exact H|].
  cbn [fold_left]. apply IH. apply merge_section_position. exact H.
Qed.

Lemma merge_sections_length (secs acc : Dict.dict text) :
  length (Dict.keys acc) <= length (Dict.keys (merge_sections acc secs)).
Proof.
  unfold merge_sections. revert acc.
  induction secs as [|it secs IH]; intro acc; [apply Nat.le_refl|].
  cbn [fold_left]. pose proof (merge_section_length acc it).
  specialize (IH (merge_section acc it)). lia.
Qed.

Lemma merge_sections_mem (secs acc : Dict.dict text) :
  Dict.mem (merge_sections acc secs) k = Dict.mem acc k || Dict.mem secs k.
Proof.
  unfold merge_sections. revert acc.
  induction secs as [|[t c] secs IH]; intro acc; cbn [fold_left].
  - unfold Dict.mem at 3. cbn [Dict.get]. rewrite orb_false_r. reflexivity.
  - rewrite IH. unfold Dict.mem. cbn [Dict.get].
    destruct (text_eqb t k) eqn:E.
    + apply text_eqb_eq in E. subst t. rewrite merge_section_get_same.
      rewrite orb_true_r. reflexivity.
    + rewrite merge_section_get_other; [reflexivity|].
      intro H. subst t. rewrite text_eqb_refl in E. discriminate.
Qed.

(** A key that a page brings in lands after all the keys already there. *)
Lemma merge_sections_new (secs acc : Dict.dict text) :
  Dict.mem acc k = false -> Dict.mem secs k = true ->
  exists a, Plain.position k (Dict.keys (merge_sections acc secs)) = Some a
            /\ length (Dict.keys acc) <= a.
Proof.
  unfold merge_sections. revert acc.
  induction secs as [|[t c] secs IH]; intros acc Hacc Hsecs; [discriminate|].
  cbn [fold_left]. unfold Dict.mem in Hsecs. cbn [Dict.get] in Hsecs.
  destruct (text_eqb t k) eqn:E.
  - apply text_eqb_eq in E. subst t. exists (length (Dict.keys acc)).
    split; [|lia]. apply (merge_sections_position secs).
    rewrite merge_section_keys, Hacc.
    apply position_new_last. apply mem_false_not_in. exact Hacc.
  - assert (Hne : t <> k) by (intro H; subst t; rewrite text_eqb_refl in E; discriminate).
    destruct (IH (merge_section acc (t, c))) as [a [Ha Hle]].
    + unfold Dict.mem. rewrite (merge_section_get_other _ _ Hne). exact Hacc.
    + exact Hsecs.
    + exists a. split; [exact Ha|].
      pose proof (merge_section_length acc (t, c)). lia.
Qed.

Lemma pages_fold_position (texts : list text) (acc : Dict.dict text) (a : nat) :
  Plain.position k (Dict.keys acc) = Some a ->
  Plain.position k (Dict.keys (pages_fold texts acc)) = Some a.
Proof.
  unfold pages_fold. revert acc.
  induction texts as [|t texts IH]; intros acc H; [exact H|].
  cbn [fold_left]. apply IH. apply merge_sections_position. exact H.
Qed.

(** The key is created on the first page that has it, after all the keys
    of the pages before. *)
Lemma pages_fold_first (texts : list text) (acc : Dict.dict text) (i : nat) :
  Dict.mem acc k = false -> Plain.first_page k texts = Some i ->
  exists a, Plain.position k (Dict.keys (pages_fold texts acc)) = Some a
            /\ length (Dict.keys acc) <= a.
Proof.
  unfold pages_fold. revert acc i.
  induction texts as [|t texts IH]; intros acc i Hacc Hi; [discriminate|].
  cbn [fold_left Plain.first_page] in *.
  destruct (Dict.mem (_identify_sections t) k) eqn:E.
  - destruct (merge_sections_new (_identify_sections t) acc Hacc E) as [a [Ha Hle]].
    exists a. split; [|exact Hle]. apply pages_fold_position. exact Ha.
  - destruct (Plain.first_page k texts) as [i'|] eqn:Ei; [|discriminate].
    destruct (IH (merge_sections acc (_identify_sections t)) i') as [a [Ha Hle]].
    + rewrite merge_sections_mem, Hacc, E. reflexivity.
    + reflexivity.
    + exists a. split; [exact Ha|].
      pose proof (merge_sections_length (_identify_sections t) acc). lia.
Qed.

End Merge_facts.

(** First-encountered order of two labels, from any starting mapping that
    has neither. *)
Lemma pages_fold_order (texts : list text) (acc : Dict.dict text)
      (A B : text) (i j : nat) :
  Dict.mem acc A = false -> Dict.mem acc B = false ->
  Plain.first_page A texts = Some i -> Plain.first_page B texts = Some j ->
  i < j ->
  exists a b,
    Plain.position A (Dict.keys (pages_fold texts acc)) = Some a
    /\ Plain.position B (Dict.keys (pages_fold texts acc)) = Some b
    /\ a < b.
Proof.
  revert acc i j. induction texts as [|t texts IH]; intros acc i j HA HB Hi Hj Hlt;
    [discriminate|].
  cbn [Plain.first_page] in Hi, Hj. unfold pages_fold. cbn [fold_left].
  fold (pages_fold texts (merge_sections acc (_identify_sections t))).
  destruct (Dict.mem (_identify_sections t) A) eqn:EA.
  - injection Hi as <-.
    destruct (Dict.mem (_identify_sections t) B) eqn:EB; [injection Hj as <-; lia|].
    destruct (Plain.first_page B texts) as [j'|] eqn:Ej; [|discriminate].
    destruct (merge_sections_new A (_identify_sections t) acc HA EA) as [a [Ha _]].
    destruct (@pages_fold_first B texts (merge_sections acc (_identify_sections t)) j')
      as [b [Hb Hle]].
    + rewrite merge_sections_mem, HB, EB. reflexivity.
    + exact Ej.
    + exists a, b. split; [apply pages_fold_position; exact Ha|].
      split; [exact Hb|]. pose proof (position_bound _ _ Ha). lia.
  - destruct (Plain.first_page A texts) as [i'|] eqn:Ei; [|discriminate].
    injection Hi as <-.
    destruct (Dict.mem (_identify_sections t) B) eqn:EB; [injection Hj as <-; lia|].
    destruct (Plain.first_page B texts) as [j'|] eqn:Ej; [|discriminate].
    injection Hj as <-.
    apply (IH (merge_sections acc (_identify_sections t)) i' j').
    + rewrite merge_sections_mem, HA, EA. reflexivity.
    + rewrite merge_sections_mem, HB, EB. reflexivity.
    + reflexivity.
    + reflexivity.
    + lia.
Qed.

(** ** The values of merged sections *)

Lemma set_keys_nodup (V : Type) (d : Dict.dict V) (k : text) (v : V) :
  NoDup (Dict.keys d) -> NoDup (Dict.keys (Dict.set d k v)).
Proof.
  intro H. destruct (Dict.mem d k) eqn:E.
  - rewrite keys_set_old by exact E. exact H.
  - rewrite keys_set_new by exact E. apply NoDup_app; [exact H|repeat constructor; intros []|].
    intros a Ha [<-|[]]. exact (mem_false_not_in _ _ E Ha).
Qed.

Lemma identify_keys_nodup (txt : text) : NoDup (Dict.keys (_identify_sections txt)).
Proof.
  unfold _identify_sections.
  assert (H : NoDup (Dict.keys (@nil (text * text)))) by constructor.
  revert H. generalize (@nil (text * text)).
  induction section_patterns as [|p ps IH]; intros d H; [exact H|].
  cbn [fold_left]. apply IH. rewrite identify_step_search.
  destruct (Re.search_group1 sec_flags (fst p) txt); [apply set_keys_nodup|]; exact H.
Qed.

Lemma item_absent (V : Type) (d : Dict.dict V) (k : text) (dflt : V) :
  ~ In k (Dict.keys d) -> Dict.item d k dflt = dflt.
Proof.
  intro H. unfold Dict.item. destruct (Dict.get d k) eqn:E; [|reflexivity].
  exfalso. apply H. apply mem_in_keys. unfold Dict.mem. rewrite E. reflexivity.
Qed.

Lemma merge_sections_item (label : text) (secs acc : Dict.dict text) :
  NoDup (Dict.keys secs) ->
  Dict.item (merge_sections acc secs) label []
  = Dict.item acc label [] ++ Dict.item secs label [].
Proof.
  unfold merge_sections. revert acc.
  induction secs as [|[t c] secs IH]; intros acc Hnd; cbn [fold_left].
  - symmetry. apply app_nil_r.
  - cbn [Dict.keys map fst] in Hnd. inversion Hnd as [|x l Hx Hnd']; subst.
    rewrite (IH _ Hnd'). unfold Dict.item at 1 4. cbn [Dict.get].
    destruct (text_eqb t label) eqn:E.
    + apply text_eqb_eq in E. subst t. rewrite merge_section_get_same.
      rewrite (item_absent secs label [] Hx), app_nil_r. reflexivity.
    + rewrite merge_section_get_other
        by (intro H; subst t; rewrite text_eqb_refl in E; discriminate).
      reflexivity.
Qed.

Lemma pages_fold_item (label : text) (texts : list text) (acc : Dict.dict text) :
  Dict.item (pages_fold texts acc) label []
  = Dict.item acc label [] ++ Plain.captures label texts.
Proof.
  unfold pages_fold, Plain.captures. revert acc.
  induction texts as [|t texts IH]; intro acc; cbn [fold_left map concat].
  - symmetry. apply app_nil_r.
  - rewrite IH, merge_sections_item by apply identify_keys_nodup.
    symmetry. apply app_assoc.
Qed.

Lemma pages_fold_mem (label : text) (texts : list text) (acc : Dict.dict text) :
  Dict.mem (pages_fold texts acc) label
  = Dict.mem acc label || existsb (fun t => Dict.mem (_identify_sections t) label) texts.
Proof.
  unfold pages_fold. revert acc.
  induction texts as [|t texts IH]; intro acc; cbn [fold_left existsb].
  - symmetry. apply orb_false_r.
  - rewrite IH, merge_sections_mem. symmetry. apply orb_assoc.
Qed.

Lemma captures_app (label : text) (l1 l2 : list text) :
  Plain.captures label (l1 ++ l2) = Plain.captures label l1 ++ Plain.captures label l2.
Proof. unfold Plain.captures. rewrite map_app. apply concat_app. Qed.

Lemma captures_none (label : text) (l : list text) :
  (forall t, In t l -> Dict.mem (_identify_sections t) label = false) ->
  Plain.captures label l = [].
Proof.
  unfold Plain.captures. induction l as [|t l IH]; intro H; [reflexivity|].
  cbn [map concat]. rewrite IH by (intros x Hx; apply H; right; exact Hx).
  rewrite item_absent; [reflexivity|].
  apply mem_false_not_in. apply H. left. reflexivity.
Qed.

(** Two neighbouring pages with the label: their values stand side by
    side in the merged value. *)
Lemma aggregate_two_pages (label : text) (pre post : list text) (t1 t2 c1 c2 : text) :
  Dict.get (_identify_sections t1) label = Some c1 ->
  Dict.get (_identify_sections t2) label = Some c2 ->
  Dict.get (aggregate_sections (pre ++ t1 :: t2 :: post)) label
  = Some (Plain.captures label pre ++ c1 ++ c2 ++ Plain.captures label post).
Proof.
  intros H1 H2. unfold aggregate_sections.
  pose proof (pages_fold_item label (pre ++ t1 :: t2 :: post) []) as Hitem.
  pose proof (pages_fold_mem label (pre ++ t1 :: t2 :: post) []) as Hmem.
  rewrite existsb_app in Hmem. cbn [existsb] in Hmem.
  unfold Dict.mem at 4 in Hmem. rewrite H1 in Hmem.
  rewrite orb_true_l, !orb_true_r in Hmem.
  rewrite captures_app in Hitem.
  change (t1 :: t2 :: post) with ([t1] ++ [t2] ++ post) in Hitem.
  rewrite !captures_app in Hitem. unfold Plain.captures at 2 3 in Hitem.
  cbn [map concat] in Hitem. unfold Dict.item at 2 3 4 in Hitem.
  rewrite H1, H2 in Hitem. cbn [Dict.get app] in Hitem. rewrite !app_nil_r in Hitem.
  unfold Dict.mem in Hmem. unfold Dict.item in Hitem.
  destruct (Dict.get (pages_fold (pre ++ t1 :: t2 :: post) []) label);
    [rewrite Hitem; reflexivity|discriminate].
Qed.

(** ** The monadic code and its results *)

Lemma world_eta (w : world) :
  {| processed_docs := processed_docs w; log := log w ++ [] |} = w.
Proof. destruct w as [d l]. cbn. rewrite app_nil_r. reflexivity. Qed.

(** The table loop never raises and only adds warnings to the log. *)
Lemma table_loop_result (page_num : nat) (ts : list Table) :
  forall acc w, exists more,
    table_loop page_num ts acc w
    = (Ok (collect_tables page_num ts acc),
       {| processed_docs := processed_docs w; log := log w ++ more |}).
Proof.
  induction ts as [|t ts IH]; intros acc w; cbn [table_loop collect_tables].
  - exists []. unfold ret. rewrite world_eta. reflexivity.
  - destruct (extract t) as [d|e]; [apply IH|].
    unfold bind, logger.
    match goal with
    | |- exists _, table_loop _ _ ?a ?w1 = _ => destruct (IH a w1) as [more Hrun]
    end.
    eexists. rewrite Hrun. cbn [processed_docs log]. rewrite <- app_assoc.
    reflexivity.
Qed.

(** The page loop leaves the cache alone and only adds to the log. *)
Lemma page_loop_result (ps : list Page) :
  forall page_num st w, exists more,
    page_loop page_num ps st w
    = (run_pages page_num ps st,
       {| processed_docs := processed_docs w; log := log w ++ more |}).
Proof.
  induction ps as [|p ps IH]; intros page_num st w; cbn [page_loop run_pages].
  - exists []. unfold ret. rewrite world_eta. reflexivity.
  - unfold bind at 1. unfold lift at 1.
    destruct (get_text p) as [page_text|e];
      [|exists []; rewrite world_eta; reflexivity].
    unfold bind at 1. unfold lift at 1.
    destruct (find_tables p) as [ts|e];
      [|exists []; rewrite world_eta; reflexivity].
    unfold bind at 1.
    destruct (table_loop_result page_num ts (found_tables st) w) as [more1 Hrun].
    rewrite Hrun.
    match goal with
    | |- exists _, page_loop _ _ ?st1 ?w1 = _ =>
        destruct (IH (S page_num) st1 w1) as [more2 Hrun']
    end.
    eexists. rewrite Hrun'. cbn [processed_docs log]. rewrite <- app_assoc.
    reflexivity.
Qed.

Lemma run_pages_sections (ps : list Page) :
  forall page_num st st' texts,
    run_pages page_num ps st = Ok st' ->
    map get_text ps = map Ok texts ->
    structured_sections st' = pages_fold texts (structured_sections st).
Proof.
  induction ps as [|p ps IH]; intros page_num st st' texts Hrun Htexts;
    cbn [run_pages map] in *.
  - destruct texts; [|discriminate]. injection Hrun as <-. reflexivity.
  - destruct texts as [|t texts]; [discriminate|]. cbn [map] in Htexts.
    injection Htexts as Ht Htexts. rewrite Ht in Hrun.
    destruct (find_tables p) as [ts|e]; [|discriminate].
    rewrite (IH _ _ _ _ Hrun Htexts). reflexivity.
Qed.

Section Processor_facts.

Variable path_name : text -> text.
Variable fitz_open : text -> result Document.
Variable glob_pdf : text -> list text.

Local Abbreviation extraction := (extract_pdf_content path_name fitz_open).
Local Abbreviation build := (build_content path_name fitz_open).

(** [extract_pdf_content] returns [build_content]; on success it stores
    the record in the cache, on failure it leaves the cache as it was and
    logs the error last. *)
Lemma extract_result (pdf_path : text) (w : world) :
  exists w' more,
    extraction pdf_path w = (build pdf_path, w')
    /\ processed_docs w'
       = match build pdf_path with
         | Ok c => Dict.set (processed_docs w) (path_name pdf_path) c
         | Raise _ => processed_docs w
         end
    /\ log w'
       = log w ++ more
         ++ [match build pdf_path with
             | Ok _ => (INFO, str "Successfully processed " ++ path_name pdf_path)
             | Raise e => (ERROR, str "Error processing PDF " ++ pdf_path
                                    ++ str ": " ++ e)
             end].
Proof.
  unfold extract_pdf_content, build_content, try_except.
  unfold bind at 1. unfold lift at 1.
  destruct (fitz_open pdf_path) as [doc|e].
  - unfold bind at 1.
    destruct (page_loop_result (pages doc) 0
                {| full_text := []; structured_sections := []; found_tables := [] |} w)
      as [more Hrun].
    rewrite Hrun.
    destruct (run_pages 0 (pages doc) _) as [st|e].
    + unfold bind, cache_store, logger, ret. cbn [processed_docs log].
      eexists. exists more. split; [reflexivity|]. cbn [processed_docs log].
      split; [reflexivity|]. symmetry. apply app_assoc.
    + unfold bind, logger, raise. cbn [processed_docs log].
      eexists. exists more. split; [reflexivity|]. cbn [processed_docs log].
      split; [reflexivity|]. symmetry. apply app_assoc.
  - unfold bind, logger, raise. eexists. exists []. split; [reflexivity|].
    cbn [processed_docs log app]. split; reflexivity.
Qed.

End Processor_facts.

(** ** The batch mapping *)

Section Collect_facts.

Variable path_name : text -> text.
Variable fitz_open : text -> result Document.

Local Abbreviation build := (build_content path_name fitz_open).
Local Abbreviation step := (collect_step path_name fitz_open).

Lemma collect_keeps (files : list text) (results : Dict.dict content) (k : text) :
  Dict.mem results k = true -> Dict.mem (fold_left step files results) k = true.
Proof.
  revert results. induction files as [|f files IH]; intros results H; [exact H|].
  cbn [fold_left]. apply IH. unfold collect_step.
  destruct (build_content path_name fitz_open f) as [c|e]; [|exact H].
  destruct (list_eq_dec ascii_dec (path_name f) k) as [->|Hne].
  - apply mem_set_same.
  - rewrite mem_set_other by exact Hne. exact H.
Qed.

Lemma collect_untouched (files : list text) (results : Dict.dict content) (k : text) :
  ~ In k (map path_name files) ->
  Dict.get (fold_left step files results) k = Dict.get results k.
Proof.
  revert results. induction files as [|f files IH]; intros results H; [reflexivity|].
  cbn [fold_left]. rewrite IH by (intro Hin; apply H; right; exact Hin).
  unfold collect_step.
  destruct (build_content path_name fitz_open f) as [c|e]; [|reflexivity].
  apply get_set_other. intro E. apply H. left. exact E.
Qed.

Lemma collect_origin (files : list text) (results : Dict.dict content) (k : text) :
  Dict.mem (fold_left step files results) k = true ->
  Dict.mem results k = true
  \/ exists f c, In f files /\ path_name f = k /\ build f = Ok c.
Proof.
  revert results. induction files as [|f files IH]; intros results H; [left; exact H|].
  cbn [fold_left] in H. destruct (IH _ H) as [Hm|[f' [c [Hin [Hn Hb]]]]].
  - unfold collect_step in Hm.
    destruct (build f) as [c|e] eqn:Eb; [|left; exact Hm].
    destruct (list_eq_dec ascii_dec (path_name f) k) as [E|Hne].
    + right. exists f, c. split; [left; reflexivity|]. split; [exact E|exact Eb].
    + left. rewrite mem_set_other in Hm by exact Hne. exact Hm.
  - right. exists f', c. split; [right; exact Hin|]. split; [exact Hn|exact Hb].
Qed.

Lemma collect_included (files : list text) (results : Dict.dict content)
      (f : text) (c : content) :
  In f files -> build f = Ok c ->
  Dict.mem (fold_left step files results) (path_name f) = true.
Proof.
  revert results. induction files as [|f0 files IH]; intros results Hin Hb; [contradiction|].
  cbn [fold_left]. destruct Hin as [->|Hin]; [|apply IH; assumption].
  apply collect_keeps. unfold collect_step. rewrite Hb.
  apply mem_set_same.
Qed.

Lemma collect_get (files : list text) (results : Dict.dict content) (f : text) :
  NoDup (map path_name files) -> In f files ->
  Dict.get (fold_left step files results) (path_name f)
  = match build f with
    | Ok c => Some c
    | Raise _ => Dict.get results (path_name f)
    end.
Proof.
  revert results. induction files as [|f0 files IH]; intros results Hnd Hin; [contradiction|].
  cbn [map] in Hnd. inversion Hnd as [|x l Hx Hnd']; subst.
  cbn [fold_left]. destruct Hin as [->|Hin].
  - rewrite collect_untouched by exact Hx. unfold collect_step.
    destruct (build f); [apply get_set_same|reflexivity].
  - rewrite (IH _ Hnd' Hin). destruct (build f); [reflexivity|].
    unfold collect_step.
    destruct (build_content path_name fitz_open f0); [|reflexivity].
    apply get_set_other. intro E. apply Hx. rewrite E. apply in_map. exact Hin.
Qed.

End Collect_facts.

(** ** Claims about [extract_pdf_content] and [process_multiple_pdfs] *)

Section Processor_claims.

Variable path_name : text -> text.
Variable fitz_open : text -> result Document.

Local Abbreviation extraction := (extract_pdf_content path_name fitz_open).
Local Abbreviation build := (build_content path_name fitz_open).

Lemma extract_fst (pdf_path : text) (w : world) :
  fst (extraction pdf_path w) = build pdf_path.
Proof.
  destruct (extract_result path_name fitz_open pdf_path w) as [w' [more [H _]]].
  rewrite H. reflexivity.
Qed.

Lemma extract_ok_sections (pdf_path : text) (w w' : world) (c : content)
      (doc : Document) (texts : list text) :
  fitz_open pdf_path = Ok doc ->
  map get_text (pages doc) = map Ok texts ->
  extraction pdf_path w = (Ok c, w') ->
  structured_content c = aggregate_sections texts.
Proof.
  intros Hopen Htexts Hrun. pose proof (extract_fst pdf_path w) as H.
  rewrite Hrun in H. cbn [fst] in H. unfold build_content in H.
  rewrite Hopen in H.
  destruct (run_pages 0 (pages doc) _) as [st|e] eqn:Epages; [|discriminate].
  injection H as ->. cbn [structured_content].
  exact (@run_pages_sections (pages doc) 0 _ st texts Epages Htexts).
Qed.

(** C3.  In the record of a processed document the section keys stand in
    first-encountered order: a label first matched on an earlier page
    than another one precedes it among the keys. *)
Theorem section_keys_first_encountered
        (pdf_path : text) (w w' : world) (c : content) (doc : Document)
        (texts : list text) (A B : text) (i j : nat) :
  fitz_open pdf_path = Ok doc ->
  map get_text (pages doc) = map Ok texts ->
  extraction pdf_path w = (Ok c, w') ->
  Plain.first_page A texts = Some i ->
  Plain.first_page B texts = Some j ->
  i < j ->
  exists a b,
    Plain.position A (Dict.keys (structured_content c)) = Some a
    /\ Plain.position B (Dict.keys (structured_content c)) = Some b
    /\ a < b.
Proof.
  intros Hopen Htexts Hrun HA HB Hlt.
  erewrite extract_ok_sections by eassumption.
  apply (@pages_fold_order texts [] A B i j); trivial.
Qed.

(** C5 (as amended).  When a label is matched on two consecutive pages,
    the two trimmed captures stand side by side, in page order and with
    nothing between them, in the merged value of the label: captures of
    earlier pages come before them and captures of later pages after
    them, and when no other page has the label the merged value is
    exactly their concatenation. *)
Theorem consecutive_pages_concatenate
        (pdf_path : text) (w w' : world) (c : content) (doc : Document)
        (pre post : list text) (t1 t2 label c1 c2 : text) :
  fitz_open pdf_path = Ok doc ->
  map get_text (pages doc) = map Ok (pre ++ t1 :: t2 :: post) ->
  extraction pdf_path w = (Ok c, w') ->
  Dict.get (_identify_sections t1) label = Some c1 ->
  Dict.get (_identify_sections t2) label = Some c2 ->
  Dict.get (structured_content c) label
  = Some (Plain.captures label pre ++ c1 ++ c2 ++ Plain.captures label post)
  /\ ((forall t, In t (pre ++ post) -> Dict.mem (_identify_sections t) label = false) ->
      Dict.get (structured_content c) label = Some (c1 ++ c2)).
Proof.
  intros Hopen Htexts Hrun H1 H2.
  erewrite extract_ok_sections by eassumption.
  rewrite (@aggregate_two_pages label pre post t1 t2 c1 c2 H1 H2).
  split; [reflexivity|]. intro Hnone.
  rewrite !captures_none by (intros t Ht; apply Hnone; apply in_or_app; tauto).
  rewrite app_nil_r. reflexivity.
Qed.

(** C6.  When [fitz.open] fails, [extract_pdf_content] raises the same
    exception, returns no record, logs the error and leaves the cache as
    it was; and whatever makes a call raise, the cache after the call is
    the cache before it. *)
Theorem failed_extraction_leaves_cache (pdf_path : text) (w : world) :
  (forall e,
      fitz_open pdf_path = Raise e ->
      extraction pdf_path w
      = (Raise e,
         {| processed_docs := processed_docs w;
            log := log w ++ [(ERROR, str "Error processing PDF " ++ pdf_path
                                       ++ str ": " ++ e)] |}))
  /\ (forall e w',
         extraction pdf_path w = (Raise e, w') ->
         processed_docs w' = processed_docs w).
Proof.
  split.
  - intros e Hopen.
    unfold extract_pdf_content, try_except.
    unfold bind at 1. unfold lift at 1. rewrite Hopen. reflexivity.
  - intros e w' Hrun.
    destruct (extract_result path_name fitz_open pdf_path w)
      as [w1 [more [H [Hdocs _]]]].
    rewrite Hrun in H.
    injection H as Hb <-. rewrite <- Hb in Hdocs. exact Hdocs.
Qed.

Lemma batch_loop_fst (files : list text) :
  forall results w,
    fst (batch_loop path_name fitz_open files results w)
    = fold_left (collect_step path_name fitz_open) files results.
Proof.
  induction files as [|f files IH]; intros results w; [reflexivity|].
  cbn [batch_loop fold_left]. pose proof (extract_fst f w) as H.
  unfold collect_step at 2.
  destruct (extract_pdf_content path_name fitz_open f w) as [[c|e] w1].
  - cbn [fst] in H. rewrite <- H. unfold logger. apply IH.
  - cbn [fst] in H. rewrite <- H. unfold logger. apply IH.
Qed.

Variable glob_pdf : text -> list text.

Local Abbreviation batch := (process_multiple_pdfs path_name fitz_open glob_pdf).

Lemma batch_fst (pdf_directory : text) (w : world) :
  fst (batch pdf_directory w)
  = fold_left (collect_step path_name fitz_open) (glob_pdf pdf_directory) [].
Proof.
  unfold process_multiple_pdfs.
  destruct (glob_pdf pdf_directory) as [|f files]; [reflexivity|].
  apply batch_loop_fst.
Qed.

(** C7.  [process_multiple_pdfs] never raises.  A directory without PDF
    files gives the empty mapping and one warning in the log.  The keys
    of the result are exactly the names of the files whose processing
    succeeds; and, file names being distinct, each file that succeeds is
    mapped to its record and each file that raises is absent, whatever the
    other files do. *)
Theorem batch_is_best_effort (pdf_directory : text) (w : world) :
  (glob_pdf pdf_directory = [] ->
   batch pdf_directory w
   = ([], {| processed_docs := processed_docs w;
             log := log w ++ [(WARNING, str "No PDF files found in "
                                          ++ pdf_directory)] |}))
  /\ (forall name,
         Dict.mem (fst (batch pdf_directory w)) name = true
         <-> exists f c w1,
             In f (glob_pdf pdf_directory) /\ path_name f = name
             /\ fst (extraction f w1) = Ok c)
  /\ (NoDup (map path_name (glob_pdf pdf_directory)) ->
      forall f w1,
        In f (glob_pdf pdf_directory) ->
        Dict.get (fst (batch pdf_directory w)) (path_name f)
        = match fst (extraction f w1) with
          | Ok c => Some c
          | Raise _ => None
          end).
Proof.
  split; [|split].
  - intro Hnone. unfold process_multiple_pdfs.
    rewrite Hnone. reflexivity.
  - intro name. rewrite batch_fst. split.
    + intro H. destruct (collect_origin _ _ _ _ _ H) as [Hm|[f [c [Hin [Hn Hb]]]]];
        [discriminate|].
      exists f, c, w. rewrite extract_fst. auto.
    + intros [f [c [w1 [Hin [<- Hb]]]]]. rewrite extract_fst in Hb.
      apply (collect_included _ _ _ _ _ Hin Hb).
  - intros Hnd f w1 Hin. rewrite batch_fst, extract_fst.
    rewrite (@collect_get path_name fitz_open _ [] f Hnd Hin).
    destruct (build f); reflexivity.
Qed.

End Processor_claims.

(** ** The claims at sample documents *)

Lemma section_keys_first_encountered_witness :
  exists c w',
    extract_pdf_content sample_name sample_open (str "results.pdf") empty_world = (Ok c, w')
    /\ Dict.keys (structured_content c) = [str "Results"; str "Abstract"]
    /\ exists a b,
        Plain.position (str "Results") (Dict.keys (structured_content c)) = Some a
        /\ Plain.position (str "Abstract") (Dict.keys (structured_content c)) = Some b
        /\ a < b.
Proof.
  eexists. eexists. split; [vm_compute; reflexivity|]. split; [vm_compute; reflexivity|].
  eapply (@section_keys_first_encountered
           sample_name sample_open (str "results.pdf") empty_world _ _
           results_first_doc
           [lines ["RESULTS"; "Good."]%string;
            lines ["ABSTRACT"; "Short."; "RESULTS"; "More."]%string]
           (str "Results") (str "Abstract") 0 1).
  - reflexivity.
  - reflexivity.
  - vm_compute. reflexivity.
  - vm_compute. reflexivity.
  - vm_compute. reflexivity.
  - lia.
Defined.

Lemma consecutive_pages_concatenate_witness :
  exists c w',
    extract_pdf_content sample_name sample_open (str "methods.pdf") empty_world = (Ok c, w')
    /\ Dict.get (structured_content c) (str "Methods") = Some (str "We did A.Then B.").
Proof.
  eexists. eexists. split; [vm_compute; reflexivity|].
  refine (proj2 (@consecutive_pages_concatenate
                  sample_name sample_open (str "methods.pdf") empty_world _ _
                  methods_doc [] []
                  (lines ["METHODS"; "We did A."]%string)
                  (lines ["METHODS"; "Then B."]%string)
                  (str "Methods") (str "We did A.") (str "Then B.")
                  eq_refl eq_refl ltac:(vm_compute; reflexivity)
                  ltac:(vm_compute; reflexivity) ltac:(vm_compute; reflexivity)) _).
  intros t [].
Defined.

(** The label on three pages in a row: the first two are consecutive pages
    with the label, and the merged value holds the third capture too. *)
Lemma third_page_is_appended :
  Dict.get (_identify_sections (lines ["METHODS"; "We did A."]%string)) (str "Methods")
  = Some (str "We did A.")
  /\ Dict.get (_identify_sections (lines ["METHODS"; "Then B."]%string)) (str "Methods")
     = Some (str "Then B.")
  /\ exists c w',
      extract_pdf_content sample_name three_open (str "three.pdf") empty_world
      = (Ok c, w')
      /\ Dict.get (structured_content c) (str "Methods")
         = Some (str "We did A.Then B.Last C.")
      /\ Dict.get (structured_content c) (str "Methods")
         <> Some (str "We did A." ++ str "Then B.").
Proof.
  split; [vm_compute; reflexivity|]. split; [vm_compute; reflexivity|].
  eexists. eexists. split; [vm_compute; reflexivity|].
  split; [vm_compute; reflexivity|vm_compute; discriminate].
Qed.

Lemma failed_extraction_leaves_cache_witness :
  extract_pdf_content sample_name sample_open (str "broken.pdf") sample_world
  = (Raise (str "cannot open"),
     {| processed_docs := [(str "a.pdf", sample_content)];
        log := [(ERROR, str "Error processing PDF broken.pdf: cannot open")] |})
  /\ processed_docs
       (snd (extract_pdf_content sample_name sample_open (str "broken.pdf") sample_world))
     = processed_docs sample_world.
Proof.
  split.
  - apply (proj1 (failed_extraction_leaves_cache
                    sample_name sample_open (str "broken.pdf") sample_world)
                 (str "cannot open")).
    reflexivity.
  - apply (proj2 (failed_extraction_leaves_cache
                    sample_name sample_open (str "broken.pdf") sample_world)
                 (str "cannot open")).
    vm_compute. reflexivity.
Defined.

Lemma sample_names_distinct :
  NoDup (map sample_name (sample_glob (str "papers"))).
Proof.
  vm_compute. repeat (constructor; [cbn [In]; intuition discriminate|]). constructor.
Qed.

Lemma batch_is_best_effort_witness :
  process_multiple_pdfs sample_name sample_open sample_glob (str "nowhere") empty_world
  = ([], {| processed_docs := [];
            log := [(WARNING, str "No PDF files found in nowhere")] |})
  /\ Dict.get (fst (process_multiple_pdfs sample_name sample_open sample_glob
                                          (str "papers") empty_world))
              (str "broken.pdf") = None
  /\ Dict.mem (fst (process_multiple_pdfs sample_name sample_open sample_glob
                                          (str "papers") empty_world))
              (str "methods.pdf") = true.
Proof.
  split; [|split].
  - apply (proj1 (batch_is_best_effort sample_name sample_open sample_glob
                                       (str "nowhere") empty_world)).
    reflexivity.
  - apply (proj2 (proj2 (batch_is_best_effort sample_name sample_open sample_glob
                                              (str "papers") empty_world))
                 sample_names_distinct (str "broken.pdf") empty_world).
    vm_compute. left. reflexivity.
  - apply (proj2 (proj1 (proj2 (batch_is_best_effort sample_name sample_open sample_glob
                                                     (str "papers") empty_world))
                        (str "methods.pdf"))).
    exists (str "methods.pdf").
    eexists. exists empty_world. split; [vm_compute; tauto|]. split; [reflexivity|].
    vm_compute. reflexivity.
Defined.

(** * Further facts *)

(** * Further facts *)

(** ** Headings need a line break *)

Lemma after_line_break_has_nl (s b : text) :
  Plain.after_line_break s = Some b -> In nl s.
Proof.
  intro H. apply after_line_break_iff in H. destruct H as [ws [-> _]].
  apply in_or_app. right. left. reflexivity.
Qed.

Lemma heading_here_has_nl (kw : text) (stop : text -> bool) (s c : text) :
  Plain.heading_here kw stop s = Some c -> In nl s.
Proof.
  unfold Plain.heading_here.
  destruct (Plain.skip_keyword kw s) as [s1|] eqn:Ek; [|discriminate].
  destruct (Plain.after_line_break s1) as [b|] eqn:Eb; [|discriminate].
  intros _. apply skip_keyword_iff in Ek. destruct Ek as [h [-> _]].
  apply in_or_app. right. exact (after_line_break_has_nl _ Eb).
Qed.

Lemma first_heading_has_nl (kw : text) (stop : text -> bool) (s c : text) :
  Plain.first_heading kw stop s = Some c -> In nl s.
Proof.
  intro H. destruct (first_heading_leftmost _ _ _ H) as [pre [suf [-> [Hh _]]]].
  apply in_or_app. right. exact (heading_here_has_nl _ _ _ Hh).
Qed.

(** Each pattern of the table is a heading pattern with its stop test. *)
Lemma pattern_search (txt : text) (p : Re.regex * text) :
  In p section_patterns ->
  exists kw stop,
    Re.search_group1 sec_flags (fst p) txt = Plain.first_heading (str kw) stop txt.
Proof.
  intro Hin. unfold section_patterns in Hin. cbn [In] in Hin.
  repeat (destruct Hin as [<-|Hin];
          [eexists; first
             [ exists Plain.body_stop;
               exact (@heading_search _ body_lookahead Plain.body_stop
                                      eq_refl body_lookahead_test txt)
             | exists Plain.end_stop;
               exact (@heading_search _ end_lookahead Plain.end_stop
                                      eq_refl end_lookahead_test txt) ]|]).
  contradiction.
Qed.

Lemma identify_fold_unmatched (txt : text) (ps : list (Re.regex * text)) :
  (forall p, In p ps -> Re.search_group1 sec_flags (fst p) txt = None) ->
  forall d, fold_left (identify_step txt) ps d = d.
Proof.
  induction ps as [|p ps IH]; intros H d; [reflexivity|].
  cbn [fold_left]. rewrite identify_step_search, (H p) by (left; reflexivity).
  apply IH. intros q Hq. apply H. right. exact Hq.
Qed.

(** X1.  A text without a line break has no section and no reference,
    whatever keywords it holds: every heading needs its line break. *)
Theorem no_line_break_no_structure (txt : text) :
  ~ In nl txt -> _identify_sections txt = [] /\ _extract_references txt = [].
Proof.
  intro Hnl. split.
  - unfold _identify_sections. apply identify_fold_unmatched. intros p Hp.
    destruct (pattern_search txt Hp) as [kw [stop ->]].
    destruct (Plain.first_heading (str kw) stop txt) as [c|] eqn:E; [|reflexivity].
    elim Hnl. exact (first_heading_has_nl _ _ _ E).
  - unfold _extract_references, ref_pattern.
    rewrite (@heading_search _ end_lookahead Plain.end_stop eq_refl end_lookahead_test).
    destruct (Plain.first_heading (str "REFERENCES") Plain.end_stop txt) as [c|] eqn:E;
      [|reflexivity].
    elim Hnl. exact (first_heading_has_nl _ _ _ E).
Qed.

Lemma no_line_break_no_structure_witness :
  _identify_sections (str "ABSTRACT We study X. REFERENCES [1] A. Author, Title, 2020.") = []
  /\ _extract_references (str "ABSTRACT We study X. REFERENCES [1] A. Author, Title, 2020.") = [].
Proof.
  apply no_line_break_no_structure. vm_compute. intuition discriminate.
Defined.

(** ** The keys of a page's sections *)

Lemma identify_fold_keys (txt : text) (ps : list (Re.regex * text)) :
  NoDup (map snd ps) ->
  forall d,
    (forall p, In p ps -> ~ In (snd p) (Dict.keys d)) ->
    Dict.keys (fold_left (identify_step txt) ps d)
    = Dict.keys d ++ map snd (filter (matched txt) ps).
Proof.
  induction ps as [|p ps IH]; intros Hnd d Hd; cbn [fold_left filter map].
  - symmetry. apply app_nil_r.
  - cbn [map] in Hnd. inversion Hnd as [|x l Hx Hnd']; subst.
    rewrite identify_step_search. unfold matched at 1.
    destruct (Re.search_group1 sec_flags (fst p) txt) as [m0|].
    + assert (Hnew : Dict.mem d (snd p) = false).
      { destruct (Dict.mem d (snd p)) eqn:E; [|reflexivity].
        apply mem_in_keys in E. elim (Hd p); [left; reflexivity|exact E]. }
      rewrite IH; [|exact Hnd'|].
      * rewrite keys_set_new by exact Hnew. rewrite <- app_assoc. reflexivity.
      * intros q Hq. rewrite keys_set_new by exact Hnew. intro Hin.
        apply in_app_or in Hin. destruct Hin as [Hin|[Heq|[]]].
        -- apply (Hd q); [right; exact Hq|exact Hin].
        -- apply Hx. rewrite Heq. apply in_map. exact Hq.
    + apply IH; [exact Hnd'|]. intros q Hq. apply Hd. right. exact Hq.
Qed.

Lemma identify_keys (txt : text) :
  Dict.keys (_identify_sections txt) = map snd (filter (matched txt) section_patterns).
Proof.
  unfold _identify_sections.
  rewrite (@identify_fold_keys txt section_patterns section_labels_distinct);
    [reflexivity|].
  intros p _ [].
Qed.


(** ** Trimmed values *)

Lemma strip_trimmed (s : text) : trimmed (Str.strip s).
Proof.
  unfold trimmed, Str.strip, Str.rstrip. split.
  - apply (rstrip_no_lead _ (lstrip_no_lead s)).
  - rewrite rev_involutive. apply lstrip_no_lead.
Qed.

Lemma trimmed_fixed (s : text) : trimmed s -> Str.strip s = s.
Proof.
  intros [H1 H2]. unfold Str.strip, Str.rstrip.
  rewrite (lstrip_fixed _ H1), (lstrip_fixed _ H2). apply rev_involutive.
Qed.

Lemma trimmed_iff (s : text) : trimmed s <-> Str.strip s = s.
Proof.
  split; [apply trimmed_fixed|]. intros <-. apply strip_trimmed.
Qed.

Lemma no_lead_app (a b : text) : no_lead a -> no_lead b -> no_lead (a ++ b).
Proof. destruct a as [|c a]; cbn [app no_lead]; auto. Qed.

Lemma trimmed_app (a b : text) : trimmed a -> trimmed b -> trimmed (a ++ b).
Proof.
  intros [Ha1 Ha2] [Hb1 Hb2]. split; [apply no_lead_app; assumption|].
  rewrite rev_app_distr. apply no_lead_app; assumption.
Qed.

Lemma trimmed_nil : trimmed [].
Proof. split; exact I. Qed.

Lemma set_values_trimmed (d : Dict.dict text) (k v : text) :
  values_trimmed d -> trimmed v -> values_trimmed (Dict.set d k v).
Proof.
  unfold values_trimmed. intros Hd Hv.
  induction d as [|[k' v'] d IH]; cbn [Dict.set].
  - constructor; [exact Hv|constructor].
  - inversion Hd as [|x l Hx Hl]; subst. destruct (text_eqb k' k).
    + constructor; [exact Hv|exact Hl].
    + constructor; [exact Hx|exact (IH Hl)].
Qed.

Lemma get_values_trimmed (d : Dict.dict text) (k v : text) :
  values_trimmed d -> Dict.get d k = Some v -> trimmed v.
Proof.
  unfold values_trimmed. intro Hd.
  induction d as [|[k' v'] d IH]; cbn [Dict.get]; [discriminate|].
  inversion Hd as [|x l Hx Hl]; subst. destruct (text_eqb k' k).
  - intros [= <-]. exact Hx.
  - exact (IH Hl).
Qed.

Lemma item_values_trimmed (d : Dict.dict text) (k : text) :
  values_trimmed d -> trimmed (Dict.item d k []).
Proof.
  intro Hd. unfold Dict.item. destruct (Dict.get d k) as [v|] eqn:E.
  - exact (get_values_trimmed _ Hd E).
  - apply trimmed_nil.
Qed.

Lemma identify_values_trimmed (txt : text) : values_trimmed (_identify_sections txt).
Proof.
  unfold _identify_sections.
  assert (H : values_trimmed []) by constructor.
  revert H. generalize (@nil (text * text)).
  induction section_patterns as [|p ps IH]; intros d H; [exact H|].
  cbn [fold_left]. apply IH. rewrite identify_step_search.
  destruct (Re.search_group1 sec_flags (fst p) txt); [|exact H].
  apply set_values_trimmed; [exact H|apply strip_trimmed].
Qed.

Lemma merge_section_values_trimmed (acc : Dict.dict text) (it : text * text) :
  values_trimmed acc -> trimmed (snd it) -> values_trimmed (merge_section acc it).
Proof.
  destruct it as [t c]. cbn [snd]. intros Hacc Hc. unfold merge_section.
  assert (Hd : values_trimmed (if Dict.mem acc t then acc else Dict.set acc t [])).
  { destruct (Dict.mem acc t); [exact Hacc|].
    apply set_values_trimmed; [exact Hacc|apply trimmed_nil]. }
  apply set_values_trimmed; [exact Hd|].
  apply trimmed_app; [apply item_values_trimmed; exact Hd|exact Hc].
Qed.

Lemma merge_sections_values_trimmed (secs acc : Dict.dict text) :
  values_trimmed acc -> values_trimmed secs ->
  values_trimmed (merge_sections acc secs).
Proof.
  unfold merge_sections. revert acc.
  induction secs as [|it secs IH]; intros acc Hacc Hsecs; [exact Hacc|].
  cbn [fold_left]. inversion Hsecs as [|x l Hx Hl]; subst.
  apply IH; [|exact Hl]. apply merge_section_values_trimmed; assumption.
Qed.

Lemma pages_fold_values_trimmed (texts : list text) (acc : Dict.dict text) :
  values_trimmed acc -> values_trimmed (pages_fold texts acc).
Proof.
  unfold pages_fold. revert acc.
  induction texts as [|t texts IH]; intros acc Hacc; [exact Hacc|].
  cbn [fold_left]. apply IH.
  apply merge_sections_values_trimmed; [exact Hacc|apply identify_values_trimmed].
Qed.

(** X3.  Every value of [_identify_sections] is trimmed: stripping it
    again changes nothing, and it neither starts nor ends with
    whitespace. *)
Theorem section_values_trimmed (txt label v : text) :
  Dict.get (_identify_sections txt) label = Some v ->
  Str.strip v = v
  /\ (forall c rest, v = c :: rest -> Char.is_space c = false)
  /\ (forall c front, v = front ++ [c] -> Char.is_space c = false).
Proof.
  intro H. pose proof (get_values_trimmed _ (identify_values_trimmed txt) H) as Ht.
  split; [apply trimmed_fixed; exact Ht|]. destruct Ht as [H1 H2]. split.
  - intros c rest ->. exact H1.
  - intros c front ->. rewrite rev_app_distr in H2. exact H2.
Qed.

Lemma section_values_trimmed_witness :
  Str.strip (str "We study X.") = str "We study X."
  /\ (forall c rest, str "We study X." = c :: rest -> Char.is_space c = false)
  /\ (forall c front, str "We study X." = front ++ [c] -> Char.is_space c = false).
Proof.
  apply (@section_values_trimmed scenario_A (str "Abstract") (str "We study X.")).
  vm_compute. reflexivity.
Defined.

(** ** What a section value cannot hold *)

Lemma lstrip_suffix (s : text) : exists w, s = w ++ Str.lstrip s.
Proof.
  induction s as [|c s [w IH]]; cbn [Str.lstrip]; [exists []; reflexivity|].
  destruct (Char.is_space c).
  - exists (c :: w). cbn [app]. rewrite <- IH. reflexivity.
  - exists []. reflexivity.
Qed.

Lemma strip_infix (s : text) : exists w1 w2, s = w1 ++ Str.strip s ++ w2.
Proof.
  destruct (lstrip_suffix s) as [w1 H1].
  destruct (lstrip_suffix (rev (Str.lstrip s))) as [w2 H2].
  exists w1, (rev w2). unfold Str.strip, Str.rstrip.
  rewrite <- rev_app_distr, <- H2, rev_involutive. exact H1.
Qed.

Lemma first_heading_capture (kw : text) (stop : text -> bool) (s c : text) :
  Plain.first_heading kw stop s = Some c ->
  exists body, c = Plain.take_until stop body.
Proof.
  intro H. destruct (first_heading_leftmost _ _ _ H) as [pre [suf [_ [Hh _]]]].
  unfold Plain.heading_here in Hh.
  destruct (Plain.skip_keyword kw suf) as [s1|]; [|discriminate].
  destruct (Plain.after_line_break s1) as [b|]; [|discriminate].
  injection Hh as <-. exists b. reflexivity.
Qed.

(** No stopping point lies inside the trimmed capture. *)
Lemma no_stop_inside (stop : text -> bool) (body a x rest : text) :
  stop [] = true ->
  Str.strip (Plain.take_until stop body) = a ++ x ++ rest ->
  x <> [] ->
  (forall tail, stop (x ++ tail) = true) ->
  False.
Proof.
  intros Hnil Hv Hx Hstop.
  destruct (strip_infix (Plain.take_until stop body)) as [w1 [w2 Hcap]].
  rewrite Hv in Hcap.
  destruct (take_until_first stop body Hnil) as [_ Hfirst].
  specialize (Hfirst (w1 ++ a) (x ++ rest ++ w2 ++ Plain.drop_until stop body)).
  rewrite Hstop in Hfirst. 
  assert (Hbody : body = (w1 ++ a) ++ x ++ rest ++ w2 ++ Plain.drop_until stop body).
  { rewrite <- (take_drop_until stop body) at 1. rewrite Hcap.
    rewrite <- !app_assoc. reflexivity. }
  specialize (Hfirst Hbody).
  assert (Hlen : length (w1 ++ a) < length (Plain.take_until stop body)).
  { rewrite Hcap. rewrite !length_app. destruct x; [congruence|cbn [length]; lia]. }
  specialize (Hfirst Hlen). discriminate.
Qed.

Lemma label_value (txt label v : text) :
  Dict.get (_identify_sections txt) label = Some v ->
  exists r, In (r, label) section_patterns.
Proof.
  intro H.
  assert (Hin : In label (Dict.keys (_identify_sections txt))).
  { apply mem_in_keys. unfold Dict.mem. rewrite H. reflexivity. }
  rewrite identify_keys in Hin. apply in_map_iff in Hin.
  destruct Hin as [[r l] [Hl Hf]]. cbn [snd] in Hl. subst l.
  apply filter_In in Hf. exists r. exact (proj1 Hf).
Qed.

Lemma body_label_value (txt label v : text) :
  label <> str "References" ->
  Dict.get (_identify_sections txt) label = Some v ->
  exists body, v = Str.strip (Plain.take_until Plain.body_stop body).
Proof.
  intros Hne H. destruct (label_value _ _ H) as [r Hin].
  unfold section_patterns in Hin. cbn [In] in Hin.
  repeat (destruct Hin as [Hin|Hin];
          [injection Hin as Hr Hl;
           try (elim Hne; symmetry; exact Hl);
           match type of Hr with
           | heading ?kw _ = _ =>
               rewrite (@identify_get txt kw body_lookahead Plain.body_stop label
                          eq_refl body_lookahead_test) in H
                 by (rewrite <- Hl; cbn; tauto)
           end;
           match type of H with
           | option_map _ (Plain.first_heading ?k ?st txt) = _ =>
               destruct (Plain.first_heading k st txt) as [c|] eqn:E; [|discriminate];
               injection H as <-;
               destruct (first_heading_capture _ _ _ E) as [body ->];
               exists body; reflexivity
           end|]).
  contradiction.
Qed.

(** X4.  A value of a section other than References never holds a
    stopping point of its own: inside it there is no line break followed
    by digits and a dot, and no line that has three or more characters and
    is made of letters and whitespace only. *)
Theorem section_value_holds_no_stop (txt label v : text) :
  label <> str "References" ->
  Dict.get (_identify_sections txt) label = Some v ->
  (forall a ds rest,
      v = a ++ nl :: ds ++ "."%char :: rest ->
      forallb Char.is_digit ds = true -> 1 <= length ds -> False)
  /\ (forall a line rest,
         v = a ++ nl :: line ++ nl :: rest ->
         forallb Plain.letter_or_space line = true -> 3 <= length line -> False).
Proof.
  intros Hne H. destruct (@body_label_value txt label v Hne H) as [body ->]. split.
  - intros a ds rest Hv Hds Hlen.
    apply (@no_stop_inside Plain.body_stop body a (nl :: ds ++ ["."%char]) rest eq_refl).
    + rewrite Hv. cbn [app]. rewrite <- app_assoc. reflexivity.
    + discriminate.
    + intro tail. unfold Plain.body_stop.
      assert (Hn : Plain.numbered_next ((nl :: ds ++ ["."%char]) ++ tail) = true).
      { apply numbered_next_iff. exists ds, tail. cbn [app].
        rewrite <- app_assoc. auto. }
      rewrite Hn, orb_true_r. reflexivity.
  - intros a line rest Hv Hline Hlen.
    apply (@no_stop_inside Plain.body_stop body a (nl :: line ++ [nl]) rest eq_refl).
    + rewrite Hv. cbn [app]. rewrite <- app_assoc. reflexivity.
    + discriminate.
    + intro tail. unfold Plain.body_stop.
      assert (Hn : Plain.heading_next ((nl :: line ++ [nl]) ++ tail) = true).
      { apply heading_next_iff. exists line, tail. cbn [app].
        rewrite <- app_assoc. auto. }
      rewrite Hn. reflexivity.
Qed.

Lemma section_value_holds_no_stop_witness :
  (forall a ds rest,
      str "We study X." = a ++ nl :: ds ++ "."%char :: rest ->
      forallb Char.is_digit ds = true -> 1 <= length ds -> False)
  /\ (forall a line rest,
         str "We study X." = a ++ nl :: line ++ nl :: rest ->
         forallb Plain.letter_or_space line = true -> 3 <= length line -> False).
Proof.
  apply (@section_value_holds_no_stop scenario_A (str "Abstract") (str "We study X.")).
  - vm_compute. discriminate.
  - vm_compute. reflexivity.
Defined.

(** ** Splitting the reference block loses nothing *)

Lemma literal_then_look_match (fl : Re.flags) (c0 : ascii) (L : Re.regex)
      (adv : bool) (s s' : text) (g : option text) :
  Re.match_here fl (Re.Seq (Re.chr c0) (Re.Look L)) adv s = Some (s', g) ->
  exists c, s = c :: s' /\ Re.cset_match fl (Re.Cls [Re.CLit c0]) c = true.
Proof.
  unfold Re.match_here. cbn [Re.bt Re.chr]. destruct s as [|c s]; [discriminate|].
  destruct (Re.cset_match fl (Re.Cls [Re.CLit c0]) c) eqn:Ec; [|discriminate].
  destruct (Re.bt fl L s None (fun _ g' => Some g')) as [g'|]; [|discriminate].
  destruct (adv && (length s =? length (c :: s))); [discriminate|].
  intros [= <- _]. exists c. split; [reflexivity|exact Ec].
Qed.

Lemma boundary_match (adv : bool) (s s' : text) (g : option text) :
  Re.match_here Re.no_flags ref_boundary adv s = Some (s', g) -> s = nl :: s'.
Proof.
  intro H. unfold ref_boundary in H.
  destruct (literal_then_look_match _ _ _ _ _ H) as [c [-> Hc]].
  unfold Re.cset_match, Re.atom_match, Re.fold_case in Hc.
  cbn [Re.IGNORECASE Re.no_flags existsb] in Hc.
  destruct (ascii_dec c nl) as [->|]; [reflexivity|discriminate].
Qed.

Lemma boundary_search (s : text) :
  forall adv i s' g,
    Re.search_from Re.no_flags ref_boundary adv s = Some (i, s', g) ->
    s = firstn i s ++ nl :: s'.
Proof.
  induction s as [|c s IH]; intros adv i s' g H; cbn [Re.search_from] in H.
  - destruct (Re.match_here Re.no_flags ref_boundary adv []) as [[s1 g1]|] eqn:E;
      [|discriminate].
    apply boundary_match in E. discriminate.
  - destruct (Re.match_here Re.no_flags ref_boundary adv (c :: s)) as [[s1 g1]|] eqn:E.
    + injection H as <- <- <-. apply boundary_match in E. exact E.
    + destruct (Re.search_from Re.no_flags ref_boundary false s) as [[[i1 s1] g1]|] eqn:E1;
        [|discriminate].
      injection H as <- <- <-. cbn [firstn app]. f_equal. exact (IH _ _ _ _ E1).
Qed.

Lemma join_cons_last (sep x : text) (l : list text) (y : text) :
  join sep (x :: l ++ [y]) = x ++ sep ++ join sep (l ++ [y]).
Proof. destruct l; reflexivity. Qed.

Lemma boundary_scan_join (f : nat) :
  forall adv s ms last,
    Re.scan Re.no_flags ref_boundary f adv s = (ms, last) ->
    join [nl] (map fst ms ++ [last]) = s.
Proof.
  induction f as [|f IH]; intros adv s ms last H; cbn [Re.scan] in H.
  - injection H as <- <-. reflexivity.
  - destruct (Re.search_from Re.no_flags ref_boundary adv s) as [[[i s'] g]|] eqn:E.
    + destruct (Re.scan Re.no_flags ref_boundary f _ s') as [ms' last'] eqn:E'.
      injection H as <- <-. cbn [map fst app]. rewrite join_cons_last.
      rewrite (IH _ _ _ _ E'). symmetry. exact (boundary_search _ _ E).
    + injection H as <- <-. reflexivity.
Qed.

(** X5.  The fragments into which [_extract_references] splits a
    reference block, joined by line breaks, give back the block: each
    boundary is one line break and no other character is dropped. *)
Theorem reference_split_joins_back (block : text) :
  join [nl] (Re.split Re.no_flags ref_boundary block) = block.
Proof.
  unfold Re.split.
  destruct (Re.scan_all Re.no_flags ref_boundary block) as [ms last] eqn:E.
  exact (boundary_scan_join _ _ _ E).
Qed.

(** ** The record of a document *)

Lemma merge_section_nodup (acc : Dict.dict text) (it : text * text) :
  NoDup (Dict.keys acc) -> NoDup (Dict.keys (merge_section acc it)).
Proof.
  destruct it as [t c]. intro H. rewrite merge_section_keys.
  destruct (Dict.mem acc t) eqn:E; [exact H|].
  apply NoDup_app; [exact H|repeat constructor; intros []|].
  intros a Ha [<-|[]]. exact (mem_false_not_in _ _ E Ha).
Qed.

Lemma pages_fold_nodup (texts : list text) (acc : Dict.dict text) :
  NoDup (Dict.keys acc) -> NoDup (Dict.keys (pages_fold texts acc)).
Proof.
  unfold pages_fold. revert acc.
  induction texts as [|t texts IH]; intros acc H; [exact H|].
  cbn [fold_left]. apply IH. unfold merge_sections.
  generalize (_identify_sections t). intro secs. revert acc H.
  induction secs as [|it secs IHs]; intros acc H; [exact H|].
  cbn [fold_left]. apply IHs. apply merge_section_nodup. exact H.
Qed.

Lemma identify_key_is_label (txt k : text) :
  Dict.mem (_identify_sections txt) k = true -> In k section_labels.
Proof.
  intro H. apply mem_in_keys in H. rewrite identify_keys in H.
  apply in_map_iff in H. destruct H as [p [<- Hp]]. apply filter_In in Hp.
  unfold section_labels. apply in_map. exact (proj1 Hp).
Qed.

Lemma aggregate_key_is_label (texts : list text) (k : text) :
  In k (Dict.keys (aggregate_sections texts)) -> In k section_labels.
Proof.
  intro H. apply mem_in_keys in H. unfold aggregate_sections in H.
  rewrite pages_fold_mem in H. cbn [orb] in H.
  unfold Dict.mem at 1 in H. cbn [Dict.get] in H. 
  apply existsb_exists in H. destruct H as [t [_ Ht]].
  exact (identify_key_is_label _ _ Ht).
Qed.

Lemma run_pages_texts (ps : list Page) :
  forall page_num st st',
    run_pages page_num ps st = Ok st' ->
    exists texts tss,
      map get_text ps = map Ok texts /\ map find_tables ps = map Ok tss.
Proof.
  induction ps as [|p ps IH]; intros page_num st st' H; cbn [run_pages] in H.
  - exists [], []. split; reflexivity.
  - destruct (get_text p) as [t|e] eqn:Et; [|discriminate].
    destruct (find_tables p) as [ts|e] eqn:Ef; [|discriminate].
    destruct (IH _ _ _ H) as [texts [tss [H1 H2]]].
    exists (t :: texts), (ts :: tss). cbn [map]. rewrite Et, Ef, H1, H2.
    split; reflexivity.
Qed.

Lemma collect_tables_app (page_num : nat) (ts : list Table) :
  forall acc, collect_tables page_num ts acc = acc ++ page_tables (page_num + 1) ts.
Proof.
  induction ts as [|t ts IH]; intro acc; cbn [collect_tables page_tables flat_map].
  - symmetry. apply app_nil_r.
  - fold (page_tables (page_num + 1) ts). destruct (extract t) as [d|e].
    + rewrite IH, <- app_assoc. reflexivity.
    + apply IH.
Qed.

Lemma run_pages_state (ps : list Page) :
  forall page_num st st' texts tss,
    run_pages page_num ps st = Ok st' ->
    map get_text ps = map Ok texts ->
    map find_tables ps = map Ok tss ->
    full_text st' = full_text st ++ joined_pages page_num texts
    /\ found_tables st' = found_tables st ++ document_tables page_num tss.
Proof.
  induction ps as [|p ps IH]; intros page_num st st' texts tss Hrun Ht Hf;
    cbn [run_pages map] in *.
  - destruct texts; [|discriminate]. destruct tss; [|discriminate].
    injection Hrun as <-. cbn [joined_pages document_tables].
    rewrite !app_nil_r. split; reflexivity.
  - destruct texts as [|t texts]; [discriminate|].
    destruct tss as [|ts tss]; [discriminate|]. cbn [map] in Ht, Hf.
    injection Ht as Ht0 Ht. injection Hf as Hf0 Hf. rewrite Ht0, Hf0 in Hrun.
    destruct (IH _ _ _ _ _ Hrun Ht Hf) as [H1 H2].
    cbn [full_text found_tables] in H1, H2.
    cbn [joined_pages document_tables].
    rewrite H1, H2, collect_tables_app, <- !app_assoc. split; reflexivity.
Qed.

Section Record_facts.

Variable path_name : text -> text.
Variable fitz_open : text -> result Document.

Local Abbreviation extraction := (extract_pdf_content path_name fitz_open).
Local Abbreviation build := (build_content path_name fitz_open).

(** What a successful run returns, in terms of the page texts and the
    pages' tables. *)
Lemma extract_ok_record (pdf_path : text) (w w' : world) (c : content) :
  extraction pdf_path w = (Ok c, w') ->
  exists doc texts tss,
    fitz_open pdf_path = Ok doc
    /\ map get_text (pages doc) = map Ok texts
    /\ map find_tables (pages doc) = map Ok tss
    /\ c = {| filename := path_name pdf_path;
              total_pages := length (pages doc);
              text_content := joined_pages 0 texts;
              structured_content := aggregate_sections texts;
              tables := document_tables 0 tss;
              figures := [];
              references := _extract_references (joined_pages 0 texts);
              metadata := doc_metadata doc |}
    /\ processed_docs w' = Dict.set (processed_docs w) (path_name pdf_path) c.
Proof.
  intro Hrun.
  destruct (extract_result path_name fitz_open pdf_path w) as [w1 [more [H [Hdocs _]]]].
  rewrite Hrun in H. injection H as Hb <-. rewrite <- Hb in Hdocs.
  unfold build_content in Hb.
  destruct (fitz_open pdf_path) as [doc|e] eqn:Eo; [|discriminate].
  destruct (run_pages 0 (pages doc) _) as [st|e] eqn:Ep; [|discriminate].
  destruct (run_pages_texts _ _ _ Ep) as [texts [tss [Ht Hf]]].
  destruct (@run_pages_state (pages doc) 0 _ st texts tss Ep Ht Hf) as [H1 H2].
  pose proof (@run_pages_sections (pages doc) 0 _ st texts Ep Ht) as H3.
  cbn [full_text found_tables structured_sections app] in H1, H2, H3.
  exists doc, texts, tss. injection Hb as Hc. subst c.
  cbn [structured_content] in *. rewrite H1, H2, H3 in *.
  repeat split; try assumption; reflexivity.
Qed.

(** X6.  In the record of a processed document the section keys are
    among the nine labels, none occurs twice, and every section value is
    trimmed, also when it was merged from several pages. *)
Theorem record_sections_invariant (pdf_path : text) (w w' : world) (c : content) :
  extraction pdf_path w = (Ok c, w') ->
  NoDup (Dict.keys (structured_content c))
  /\ (forall k, In k (Dict.keys (structured_content c)) -> In k section_labels)
  /\ (forall k v, Dict.get (structured_content c) k = Some v -> Str.strip v = v).
Proof.
  intro Hrun.
  destruct (extract_ok_record _ _ Hrun) as [doc [texts [tss [_ [_ [_ [-> _]]]]]]].
  cbn [structured_content]. split; [|split].
  - apply pages_fold_nodup. constructor.
  - intros k Hk. exact (aggregate_key_is_label _ _ Hk).
  - intros k v Hv. apply trimmed_fixed.
    refine (get_values_trimmed _ _ Hv).
    apply pages_fold_values_trimmed. constructor.
Qed.

Lemma page_tables_pages (n : nat) (ts : list Table) :
  Forall (fun e => page e = n) (page_tables n ts).
Proof.
  unfold page_tables. induction ts as [|t ts IH]; cbn [flat_map]; [constructor|].
  destruct (extract t); [constructor; [reflexivity|exact IH]|exact IH].
Qed.

Lemma document_tables_bounds (tss : list (list Table)) :
  forall n,
    Forall (fun e => n + 1 <= page e <= n + length tss) (document_tables n tss).
Proof.
  induction tss as [|ts tss IH]; intro n; cbn [document_tables length]; [constructor|].
  apply Forall_app. split.
  - eapply Forall_impl; [|apply page_tables_pages]. cbn. intros e ->. lia.
  - eapply Forall_impl; [|apply (IH (S n))]. cbn. intros e He. lia.
Qed.

Lemma sorted_app (l1 l2 : list nat) :
  StronglySorted le l1 -> StronglySorted le l2 ->
  (forall x y, In x l1 -> In y l2 -> x <= y) ->
  StronglySorted le (l1 ++ l2).
Proof.
  intros H1 H2 H. induction l1 as [|a l1 IH]; [exact H2|]. cbn [app].
  inversion H1 as [|x l Hs Hf]; subst. constructor.
  - apply IH; [exact Hs|]. intros x y Hx Hy. apply H; [right; exact Hx|exact Hy].
  - apply Forall_app. split; [exact Hf|]. apply Forall_forall.
    intros y Hy. apply H; [left; reflexivity|exact Hy].
Qed.

Lemma constant_sorted (n : nat) (l : list nat) :
  Forall (fun x => x = n) l -> StronglySorted le l.
Proof.
  induction 1 as [|x l Hx Hl IH]; constructor; [exact IH|].
  subst x. eapply Forall_impl; [|exact Hl]. cbn. intros y ->. lia.
Qed.

Lemma document_tables_sorted (tss : list (list Table)) :
  forall n, StronglySorted le (map page (document_tables n tss)).
Proof.
  induction tss as [|ts tss IH]; intro n; cbn [document_tables map]; [constructor|].
  rewrite map_app. apply sorted_app.
  - apply (@constant_sorted (n + 1)). apply Forall_map. apply page_tables_pages.
  - apply IH.
  - intros x y Hx Hy. apply in_map_iff in Hx. destruct Hx as [e1 [<- H1]].
    apply in_map_iff in Hy. destruct Hy as [e2 [<- H2]].
    pose proof (page_tables_pages (n + 1) ts) as P1.
    pose proof (document_tables_bounds tss (S n)) as P2.
    rewrite Forall_forall in P1, P2. specialize (P1 _ H1). specialize (P2 _ H2). lia.
Qed.

(** X7.  The tables of a record are exactly the tables whose cell grid
    could be extracted, in page order and in each page's detection order,
    each tagged with its page number counted from 1: a table whose
    extraction raises leaves no entry, every page number lies between 1
    and [total_pages], and the page numbers never decrease. *)
Theorem record_tables (pdf_path : text) (w w' : world) (c : content)
        (doc : Document) (tss : list (list Table)) :
  fitz_open pdf_path = Ok doc ->
  map find_tables (pages doc) = map Ok tss ->
  extraction pdf_path w = (Ok c, w') ->
  tables c = document_tables 0 tss
  /\ Forall (fun e => 1 <= page e <= total_pages c) (tables c)
  /\ StronglySorted le (map page (tables c)).
Proof.
  intros Hopen Htss Hrun.
  destruct (extract_ok_record _ _ Hrun) as [doc' [texts [tss' [Ho [_ [Hf [-> _]]]]]]].
  rewrite Hopen in Ho. injection Ho as <-. rewrite Htss in Hf.
  assert (Heq : tss' = tss).
  { clear -Hf. revert tss' Hf. induction tss as [|x tss IH]; intros [|y tss'] H;
      try discriminate; [reflexivity|].
    cbn [map] in H. injection H as <- H. f_equal. apply IH. exact H. }
  subst tss'. cbn [tables total_pages]. split; [reflexivity|]. split.
  - assert (Hlen : length tss = length (pages doc)).
    { rewrite <- (length_map Ok tss), <- Htss. apply length_map. }
    rewrite <- Hlen. apply (document_tables_bounds tss 0).
  - apply document_tables_sorted.
Qed.

(** X8.  The full text of a record is the pages' texts in page order,
    each preceded by its page marker, and [total_pages] is the number of
    pages. *)
Theorem record_full_text (pdf_path : text) (w w' : world) (c : content)
        (doc : Document) (texts : list text) :
  fitz_open pdf_path = Ok doc ->
  map get_text (pages doc) = map Ok texts ->
  extraction pdf_path w = (Ok c, w') ->
  text_content c = joined_pages 0 texts
  /\ total_pages c = length texts
  /\ references c = _extract_references (joined_pages 0 texts).
Proof.
  intros Hopen Htexts Hrun.
  destruct (extract_ok_record _ _ Hrun) as [doc' [texts' [tss [Ho [Ht [_ [-> _]]]]]]].
  rewrite Hopen in Ho. injection Ho as <-. rewrite Htexts in Ht.
  assert (Heq : texts' = texts).
  { clear -Ht. revert texts' Ht. induction texts as [|x texts IH]; intros [|y texts'] H;
      try discriminate; [reflexivity|].
    cbn [map] in H. injection H as <- H. f_equal. apply IH. exact H. }
  subst texts'. cbn [text_content total_pages references].
  split; [reflexivity|]. split; [|reflexivity].
  rewrite <- (length_map Ok texts), <- Htexts. symmetry. apply length_map.
Qed.

End Record_facts.

(** ** Words, page markers and the summary *)

Lemma count_tokens_app_space (a b : text) (c : ascii) :
  Char.is_space c = true ->
  forall gap,
    Plain.count_tokens gap (a ++ c :: b)
    = Plain.count_tokens gap a + Plain.count_tokens true b.
Proof.
  intro Hc. induction a as [|x a IH]; intro gap; cbn [app Plain.count_tokens].
  - rewrite Hc. reflexivity.
  - destruct (Char.is_space x); rewrite IH; lia.
Qed.

Lemma count_tokens_word (wd : text) :
  forallb (fun c => negb (Char.is_space c)) wd = true ->
  Plain.count_tokens false wd = 0
  /\ (wd <> [] -> Plain.count_tokens true wd = 1).
Proof.
  induction wd as [|x wd IH]; cbn [forallb Plain.count_tokens]; intro H.
  - split; [reflexivity|congruence].
  - apply andb_prop in H. destruct H as [Hx Hwd].
    destruct (Char.is_space x); [discriminate|].
    destruct (IH Hwd) as [IH0 _]. rewrite IH0. split; [reflexivity|]. intros _. reflexivity.
Qed.

Lemma uint_digits (d : Decimal.uint) :
  forallb (fun c => negb (Char.is_space c))
          (list_ascii_of_string (NilEmpty.string_of_uint d)) = true.
Proof.
  induction d; cbn [NilEmpty.string_of_uint list_ascii_of_string forallb];
    [reflexivity| | | | | | | | | |]; rewrite IHd; reflexivity.
Qed.

Lemma of_nat_word (n : nat) :
  forallb (fun c => negb (Char.is_space c)) (Str.of_nat n) = true
  /\ Str.of_nat n <> [].
Proof.
  unfold Str.of_nat, str, NilZero.string_of_uint.
  destruct (Nat.to_uint n) eqn:E;
    try (split; [reflexivity|discriminate]);
    (split; [apply uint_digits|cbn; discriminate]).
Qed.

(** A page marker counts for four words. *)
Lemma page_marker_words (page_num : nat) (t rest : text) :
  Plain.count_tokens true (page_marker page_num t ++ rest)
  = 4 + Plain.count_tokens true (t ++ rest).
Proof.
  destruct (of_nat_word (page_num + 1)) as [Hw Hne].
  destruct (count_tokens_word _ Hw) as [_ H1]. specialize (H1 Hne).
  assert (E : page_marker page_num t ++ rest
              = nl :: str "--- Page "
                   ++ Str.of_nat (page_num + 1) ++ " "%char :: str "---" ++ nl :: t ++ rest).
  { unfold page_marker. rewrite <- app_comm_cons, <- !app_assoc. reflexivity. }
  rewrite E.
  change (Plain.count_tokens true
            (nl :: str "--- Page "
                ++ Str.of_nat (page_num + 1) ++ " "%char :: str "---" ++ nl :: t ++ rest))
    with (2 + Plain.count_tokens true
                (Str.of_nat (page_num + 1) ++ " "%char :: str "---" ++ nl :: t ++ rest)).
  rewrite (count_tokens_app_space _ _ " "%char eq_refl), H1.
  change (Plain.count_tokens true (str "---" ++ nl :: t ++ rest))
    with (1 + Plain.count_tokens true (t ++ rest)).
  lia.
Qed.

Lemma joined_pages_head (page_num : nat) (texts : list text) :
  joined_pages page_num texts = []
  \/ exists r, joined_pages page_num texts = nl :: r.
Proof.
  destruct texts as [|t ts]; [left; reflexivity|right].
  cbn [joined_pages]. unfold page_marker. cbn [app]. eexists. reflexivity.
Qed.

Lemma joined_pages_words (texts : list text) :
  forall page_num,
    Plain.count_tokens true (joined_pages page_num texts)
    = 4 * length texts + page_words texts.
Proof.
  unfold page_words.
  induction texts as [|t ts IH]; intro page_num; [reflexivity|].
  cbn [joined_pages length map list_sum fold_right]. rewrite page_marker_words.
  destruct (joined_pages_head (S page_num) ts) as [E|[r E]].
  - pose proof (IH (S page_num)) as H. rewrite E in *.
    rewrite app_nil_r. cbn [Plain.count_tokens] in H. unfold list_sum in H. lia.
  - pose proof (IH (S page_num)) as H. rewrite E in *.
    rewrite (count_tokens_app_space t r nl eq_refl).
    change (Plain.count_tokens true (nl :: r)) with (Plain.count_tokens true r) in H.
    unfold list_sum in H. lia.
Qed.

Lemma set_set_same (V : Type) (d : Dict.dict V) (k : text) (v v' : V) :
  Dict.set (Dict.set d k v) k v' = Dict.set d k v'.
Proof.
  induction d as [|[k0 v0] d IH]; cbn [Dict.set].
  - rewrite text_eqb_refl. reflexivity.
  - destruct (text_eqb k0 k) eqn:E; cbn [Dict.set]; rewrite E; [reflexivity|].
    rewrite IH. reflexivity.
Qed.

Lemma summary_other_name (name key : text) (c : content) (w w' : world) :
  processed_docs w' = Dict.set (processed_docs w) key c ->
  key <> name ->
  get_document_summary name w' = get_document_summary name w.
Proof.
  intros H Hne. unfold get_document_summary.
  rewrite H, (get_set_other _ _ Hne). reflexivity.
Qed.

Section Cache_facts.

Variable path_name : text -> text.
Variable fitz_open : text -> result Document.

Local Abbreviation extraction := (extract_pdf_content path_name fitz_open).
Local Abbreviation build := (build_content path_name fitz_open).

(** X9.  The word count of a summary counts the page markers too: it is
    four words for each page on top of the words of the pages' texts. *)
Theorem summary_counts_page_markers
        (pdf_path : text) (w w' : world) (c : content) (doc : Document)
        (texts : list text) :
  fitz_open pdf_path = Ok doc ->
  map get_text (pages doc) = map Ok texts ->
  extraction pdf_path w = (Ok c, w') ->
  Dict.get (get_document_summary (path_name pdf_path) w') (str "word_count")
  = Some (VInt (4 * length texts + page_words texts)).
Proof.
  intros Hopen Htexts Hrun.
  destruct (@extract_ok_record path_name fitz_open pdf_path w w' c Hrun) as [doc' [texts' [tss [Ho [Ht [_ [Hc Hdocs]]]]]]].
  rewrite Hopen in Ho. injection Ho as <-. rewrite Htexts in Ht.
  assert (Heq : texts' = texts).
  { clear -Ht. revert texts' Ht. induction texts as [|x texts IH]; intros [|y texts'] H;
      try discriminate; [reflexivity|].
    cbn [map] in H. injection H as <- H. f_equal. apply IH. exact H. }
  subst texts'. unfold get_document_summary. rewrite Hdocs, get_set_same.
  rewrite split_ws_length. subst c. cbn [text_content].
  rewrite joined_pages_words. reflexivity.
Qed.

(** X10.  After a successful [extract_pdf_content] the summary of the
    file's name is the summary of the record just returned, and the
    summary of every other name is what it was; after a call that raises,
    every summary is what it was. *)
Theorem summary_after_extraction (pdf_path : text) (w w' : world) :
  (forall c,
      extraction pdf_path w = (Ok c, w') ->
      get_document_summary (path_name pdf_path) w'
      = [ (str "filename", VStr (path_name pdf_path));
          (str "pages", VInt (total_pages c));
          (str "sections", VList (Dict.keys (structured_content c)));
          (str "tables_count", VInt (length (tables c)));
          (str "references_count", VInt (length (references c)));
          (str "word_count", VInt (length (Str.split_ws (text_content c)))) ]
      /\ forall name, name <> path_name pdf_path ->
                      get_document_summary name w' = get_document_summary name w)
  /\ (forall e,
         extraction pdf_path w = (Raise e, w') ->
         forall name, get_document_summary name w' = get_document_summary name w).
Proof.
  split.
  - intros c Hrun.
    destruct (@extract_ok_record path_name fitz_open pdf_path w w' c Hrun) as [doc [texts [tss [_ [_ [_ [Hc Hdocs]]]]]]].
    split.
    + unfold get_document_summary. rewrite Hdocs, get_set_same.
      subst c. reflexivity.
    + intros name Hne. apply (@summary_other_name name (path_name pdf_path) c w w' Hdocs).
      congruence.
  - intros e Hrun name.
    destruct (extract_result path_name fitz_open pdf_path w) as [w1 [more [H [Hdocs _]]]].
    rewrite Hrun in H. injection H as Hb <-. rewrite <- Hb in Hdocs.
    unfold get_document_summary. rewrite Hdocs. reflexivity.
Qed.

(** X11.  Processing the same file again returns the same record and
    leaves the cache exactly as the first run left it: the entry is
    overwritten in place, never duplicated or merged. *)
Theorem reprocessing_is_idempotent (pdf_path : text) (w w1 : world) (c : content) :
  extraction pdf_path w = (Ok c, w1) ->
  exists w2,
    extraction pdf_path w1 = (Ok c, w2)
    /\ processed_docs w2 = processed_docs w1
    /\ Dict.get (processed_docs w2) (path_name pdf_path) = Some c.
Proof.
  intro Hrun.
  destruct (extract_result path_name fitz_open pdf_path w) as [wa [ma [Ha [Hda _]]]].
  rewrite Hrun in Ha. injection Ha as Hb <-. rewrite <- Hb in Hda.
  destruct (extract_result path_name fitz_open pdf_path w1) as [w2 [mb [H2 [Hd2 _]]]].
  rewrite <- Hb in H2, Hd2. exists w2. split; [exact H2|].
  rewrite Hd2, Hda, set_set_same. split; [reflexivity|apply get_set_same].
Qed.

Lemma batch_loop_cache (files : list text) :
  forall results w,
    processed_docs (snd (batch_loop path_name fitz_open files results w))
    = fold_left (collect_step path_name fitz_open) files (processed_docs w).
Proof.
  induction files as [|f files IH]; intros results w; [reflexivity|].
  cbn [batch_loop fold_left].
  destruct (extract_result path_name fitz_open f w) as [w1 [more [H [Hdocs _]]]].
  rewrite H. unfold collect_step at 2.
  destruct (build f) as [c|e]; unfold logger; rewrite IH; cbn [processed_docs];
    rewrite Hdocs; reflexivity.
Qed.

(** The cache after a batch, and its results, are built by the same
    insertions. *)
Lemma collect_same_insertions (files : list text) (d0 : Dict.dict content) :
  forall d1 d2,
    (forall name, Dict.get d2 name
                  = match Dict.get d1 name with
                    | Some c => Some c
                    | None => Dict.get d0 name
                    end) ->
    forall name,
      Dict.get (fold_left (collect_step path_name fitz_open) files d2) name
      = match Dict.get (fold_left (collect_step path_name fitz_open) files d1) name with
        | Some c => Some c
        | None => Dict.get d0 name
        end.
Proof.
  induction files as [|f files IH]; intros d1 d2 H name; [apply H|].
  cbn [fold_left]. apply IH. intro n. unfold collect_step.
  destruct (build f) as [c|e]; [|apply H].
  destruct (list_eq_dec ascii_dec (path_name f) n) as [->|Hne].
  - rewrite !get_set_same. reflexivity.
  - rewrite !(get_set_other _ _ Hne). apply H.
Qed.

Variable glob_pdf : text -> list text.

Local Abbreviation batch := (process_multiple_pdfs path_name fitz_open glob_pdf).

(** X12.  After [process_multiple_pdfs] the cache agrees with the result
    mapping on every name the result holds, and keeps what it had under
    every other name. *)
Theorem batch_fills_cache (pdf_directory : text) (w : world) (name : text) :
  Dict.get (processed_docs (snd (batch pdf_directory w))) name
  = match Dict.get (fst (batch pdf_directory w)) name with
    | Some c => Some c
    | None => Dict.get (processed_docs w) name
    end.
Proof.
  assert (Hc : processed_docs (snd (batch pdf_directory w))
               = fold_left (collect_step path_name fitz_open)
                           (glob_pdf pdf_directory) (processed_docs w)).
  { unfold process_multiple_pdfs.
    destruct (glob_pdf pdf_directory) as [|f files]; [reflexivity|].
    apply batch_loop_cache. }
  rewrite Hc, (batch_fst path_name fitz_open glob_pdf).
  apply collect_same_insertions. intro n. reflexivity.
Qed.

End Cache_facts.

(** ** The agent's history over many calls *)

Lemma add_is_last_10 (h : list Agent.exchange) (q r : text) :
  Agent._add_to_history h q r
  = Agent.last_n 10 (h ++ [{| Agent.query := q; Agent.response := r |}]).
Proof.
  unfold Agent._add_to_history.
  destruct (10 <? length (h ++ [{| Agent.query := q; Agent.response := r |}])) eqn:E;
    [reflexivity|].
  apply Nat.ltb_ge in E. unfold Agent.last_n.
  replace (length (h ++ [{| Agent.query := q; Agent.response := r |}]) - 10) with 0 by lia.
  reflexivity.
Qed.

Lemma last_n_app (A : Type) (n : nat) (l m : list A) :
  Agent.last_n n (Agent.last_n n l ++ m) = Agent.last_n n (l ++ m).
Proof.
  unfold Agent.last_n. rewrite !length_app, length_skipn.
  destruct (Nat.le_gt_cases (length l) n) as [H|H].
  - replace (length l - n) with 0 by lia. cbn [skipn].
    replace (length l - 0) with (length l) by lia. reflexivity.
  - replace (length l - (length l - n) + length m - n) with (length m) by lia.
    replace (length l + length m - n) with (length m + (length l - n)) by lia.
    rewrite <- skipn_skipn. f_equal. rewrite skipn_app.
    replace (length l - n - length l) with 0 by lia. reflexivity.
Qed.

Lemma last_n_short (A : Type) (n : nat) (l : list A) :
  length l <= n -> Agent.last_n n l = l.
Proof.
  intro H. unfold Agent.last_n. replace (length l - n) with 0 by lia. reflexivity.
Qed.

Lemma last_n_length (A : Type) (n : nat) (l : list A) :
  length (Agent.last_n n l) <= n.
Proof. unfold Agent.last_n. rewrite length_skipn. lia. Qed.

(** X13.  Adding exchanges one after another to a history of at most 10
    entries leaves exactly the last 10 of the old entries followed by the
    new ones, in order; from the empty history, the last 10 exchanges
    added. *)
Theorem history_after_many (h : list Agent.exchange) (es : list Agent.exchange) :
  length h <= 10 ->
  fold_left (fun h e => Agent._add_to_history h (Agent.query e) (Agent.response e)) es h
  = Agent.last_n 10 (h ++ es)
  /\ length (fold_left (fun h e => Agent._add_to_history h (Agent.query e)
                                                         (Agent.response e)) es h) <= 10.
Proof.
  revert h. induction es as [|e es IH]; intros h Hh; cbn [fold_left].
  - rewrite app_nil_r. split; [symmetry; apply last_n_short; exact Hh|exact Hh].
  - destruct (IH (Agent._add_to_history h (Agent.query e) (Agent.response e)))
      as [IH1 IH2].
    + rewrite add_is_last_10. apply last_n_length.
    + split; [|exact IH2]. rewrite IH1, add_is_last_10.
      destruct e as [q r]. cbn [Agent.query Agent.response].
      rewrite last_n_app, <- app_assoc. reflexivity.
Qed.

Section Assistant_facts.

Variable generate_content : text -> result text.
Variable arxiv_results : text -> nat -> result (list Assistant.paper).

Local Abbreviation ask := (Assistant.ask_all generate_content).
Local Abbreviation answers := (Assistant.answered generate_content).


(** ** Search terms and paper identifiers *)

Lemma sub_chars_filter (s : text) :
  Assistant.sub_chars Assistant.not_word_or_space [] s
  = filter (fun c => Char.is_word c || Char.is_space c) s.
Proof.
  unfold Assistant.sub_chars, Assistant.not_word_or_space.
  induction s as [|c s IH]; [reflexivity|]. cbn [flat_map filter].
  destruct (Char.is_word c || Char.is_space c); cbn [negb app]; rewrite IH; reflexivity.
Qed.

Lemma filter_all (A : Type) (f : A -> bool) (l : list A) :
  forallb f (filter f l) = true.
Proof.
  induction l as [|x l IH]; [reflexivity|]. cbn [filter].
  destruct (f x) eqn:E; [cbn [forallb]; rewrite E; exact IH|exact IH].
Qed.

Lemma filter_id (A : Type) (f : A -> bool) (l : list A) :
  forallb f l = true -> filter f l = l.
Proof.
  induction l as [|x l IH]; [reflexivity|]. cbn [forallb filter]. intro H.
  apply andb_prop in H. destruct H as [Hx Hl]. rewrite Hx, (IH Hl). reflexivity.
Qed.

(** X15.  The search terms sent to arXiv: when the model answers, its
    trimmed answer with every character that is neither a word character
    nor whitespace removed (so an answer made of such characters only is
    kept as it is, trimmed), and the agent is left untouched; when the
    model raises, the description itself. *)
Theorem search_terms_are_clean (description : text) (a : Assistant.agent) :
  (forall response,
      generate_content (Assistant.search_terms_prompt description) = Ok response ->
      let terms := fst (Assistant._extract_search_terms generate_content description a) in
      terms = filter (fun c => Char.is_word c || Char.is_space c) (Str.strip response)
      /\ forallb (fun c => Char.is_word c || Char.is_space c) terms = true
      /\ (forallb (fun c => Char.is_word c || Char.is_space c) response = true ->
          terms = Str.strip response)
      /\ snd (Assistant._extract_search_terms generate_content description a) = a)
  /\ (forall e,
         generate_content (Assistant.search_terms_prompt description) = Raise e ->
         fst (Assistant._extract_search_terms generate_content description a) = description).
Proof.
  unfold Assistant._extract_search_terms. split.
  - intros response ->. cbn [fst snd]. rewrite sub_chars_filter.
    split; [reflexivity|]. split; [apply filter_all|]. split; [|reflexivity].
    intro Hall. apply filter_id.
    destruct (strip_infix response) as [w1 [w2 Hs]]. rewrite Hs in Hall.
    rewrite !forallb_app in Hall. apply andb_prop in Hall. destruct Hall as [_ Hall].
    apply andb_prop in Hall. exact (proj1 Hall).
  - intros e ->. reflexivity.
Qed.

Lemma split_on_spec (sep : ascii) (s : text) :
  Assistant.split_on sep s <> []
  /\ Forall (fun piece => ~ In sep piece) (Assistant.split_on sep s)
  /\ join [sep] (Assistant.split_on sep s) = s.
Proof.
  induction s as [|c s [IH1 [IH2 IH3]]]; cbn [Assistant.split_on].
  - split; [discriminate|]. split; [repeat constructor; intros []|reflexivity].
  - destruct (ascii_dec c sep) as [->|Hne].
    + split; [discriminate|]. split; [constructor; [intros []|exact IH2]|].
      destruct (Assistant.split_on sep s) as [|h t]; [congruence|].
      change (join [sep] ([] :: h :: t)) with ([] ++ [sep] ++ join [sep] (h :: t)).
      rewrite IH3. reflexivity.
    + destruct (Assistant.split_on sep s) as [|h t]; [congruence|].
      split; [discriminate|]. apply Forall_cons_iff in IH2. destruct IH2 as [Hh Ht]. split.
      * constructor; [|exact Ht]. intros [E|E]; [congruence|exact (Hh E)].
      * rewrite <- IH3. destruct t; reflexivity.
Qed.

Lemma join_last (sep : text) (l : list text) :
  l <> [] ->
  join sep l = last l [] \/ exists front, join sep l = front ++ sep ++ last l [].
Proof.
  induction l as [|x l IH]; intro H; [congruence|].
  destruct l as [|y l]; [left; reflexivity|]. right.
  destruct IH as [E|[front E]]; [discriminate| |].
  - exists x. change (join sep (x :: y :: l)) with (x ++ sep ++ join sep (y :: l)).
    rewrite E. reflexivity.
  - exists (x ++ sep ++ front).
    change (join sep (x :: y :: l)) with (x ++ sep ++ join sep (y :: l)).
    rewrite E. change (last (x :: y :: l) []) with (last (y :: l) []).
    rewrite <- !app_assoc. reflexivity.
Qed.

Lemma last_in (l : list text) : l <> [] -> In (last l []) l.
Proof.
  induction l as [|x l IH]; intro H; [congruence|].
  destruct l as [|y l]; [left; reflexivity|]. right. apply IH. discriminate.
Qed.

Lemma last_component (s : text) :
  let x := last (Assistant.split_on "/" s) [] in
  ~ In "/"%char x /\ (s = x \/ exists front, s = front ++ "/"%char :: x).
Proof.
  destruct (split_on_spec "/" s) as [H1 [H2 H3]]. cbn zeta. split.
  - rewrite Forall_forall in H2. apply H2. apply last_in. exact H1.
  - destruct (join_last ["/"%char] H1) as [E|[front E]]; rewrite H3 in E.
    + left. exact E.
    + right. exists front. exact E.
Qed.

(** X16.  [search_arxiv_papers] returns one entry for each paper the
    arXiv client yields, in the same order and with the same title; the
    [arxiv_id] of an entry holds no slash and is the part of the paper's
    [entry_id] after its last slash (the whole of it when it has none).
    When the client raises, the result is empty. *)
Theorem search_results_identify_papers (description : text) (max_results : nat)
        (a : Assistant.agent) :
  let query := fst (Assistant._extract_search_terms generate_content description a) in
  let results :=
    fst (Assistant.search_arxiv_papers generate_content arxiv_results
                                       description max_results a) in
  (forall papers,
      arxiv_results query max_results = Ok papers ->
      map Assistant.info_title results = map Assistant.title papers
      /\ Forall2 (fun p info =>
                    ~ In "/"%char (Assistant.arxiv_id info)
                    /\ (Assistant.entry_id p = Assistant.arxiv_id info
                        \/ exists front,
                            Assistant.entry_id p
                            = front ++ "/"%char :: Assistant.arxiv_id info))
                 papers results)
  /\ (forall e, arxiv_results query max_results = Raise e -> results = []).
Proof.
  cbn zeta. unfold Assistant.search_arxiv_papers.
  destruct (Assistant._extract_search_terms generate_content description a)
    as [search_query a1].
  cbn [fst]. split.
  - intros papers ->. cbn [fst]. split.
    + rewrite map_map. reflexivity.
    + induction papers as [|p papers IH]; cbn [map]; constructor; [|exact IH].
      cbn [Assistant.to_info Assistant.arxiv_id]. apply last_component.
  - intros e ->. reflexivity.
Qed.

End Assistant_facts.

(** ** The size of the context *)

Lemma add_section_block (context : text) (item : text * text) :
  Assistant.add_section context item = context ++ section_block item.
Proof.
  destruct item as [section content]. unfold Assistant.add_section, section_block.
  destruct (negb (Plain.is_nil content) && (0 <? length (Str.strip content)));
    [reflexivity|symmetry; apply app_nil_r].
Qed.

Lemma add_sections_blocks (sections : Dict.dict text) :
  forall context,
    fold_left Assistant.add_section sections context
    = context ++ flat_map section_block sections.
Proof.
  induction sections as [|it sections IH]; intro context; cbn [fold_left flat_map].
  - symmetry. apply app_nil_r.
  - rewrite IH, add_section_block. symmetry. apply app_assoc.
Qed.

Lemma add_document_block (context : text) (item : text * content) :
  Assistant.add_document context item = context ++ document_block item.
Proof.
  destruct item as [doc_name doc_data]. unfold Assistant.add_document, document_block.
  set (c1 := (context ++ str "Document: " ++ doc_name ++ [nl])
               ++ str "Pages: " ++ Str.of_nat (total_pages doc_data) ++ [nl]).
  assert (H2 : match structured_content doc_data with
               | [] => c1
               | _ :: _ => fold_left Assistant.add_section (structured_content doc_data) c1
               end = c1 ++ flat_map section_block (structured_content doc_data)).
  { destruct (structured_content doc_data) as [|it l] eqn:E;
      [symmetry; apply app_nil_r|apply add_sections_blocks]. }
  rewrite H2. unfold c1.
  destruct (text_content doc_data) as [|c0 t0]; destruct (tables doc_data) as [|e0 l0];
    rewrite <- ?app_assoc; cbn [app]; rewrite <- ?app_assoc; reflexivity.
Qed.

Lemma section_block_length (item : text * text) :
  length (section_block item) <= length (fst item) + 1007.
Proof.
  destruct item as [section content]. unfold section_block. cbn [fst].
  destruct (negb (Plain.is_nil content) && (0 <? length (Str.strip content)));
    [|cbn [length]; lia].
  cbn [length]. rewrite !length_app. cbn [length]. rewrite !length_app.
  rewrite length_firstn. unfold str. cbn [list_ascii_of_string length]. lia.
Qed.

Lemma section_blocks_length (sections : Dict.dict text) :
  length (flat_map section_block sections)
  <= list_sum (map (fun kv => length (fst kv) + 1007) sections).
Proof.
  induction sections as [|it sections IH]; cbn [flat_map map]; [cbn; lia|].
  rewrite length_app. unfold list_sum in *. cbn [fold_right].
  apply Nat.add_le_mono; [apply section_block_length|exact IH].
Qed.

Lemma document_block_length (item : text * content) :
  length (document_block item) <= block_bound (fst item) (snd item).
Proof.
  destruct item as [doc_name doc_data]. unfold document_block, block_bound. cbn [fst snd].
  pose proof (section_blocks_length (structured_content doc_data)) as Hs.
  assert (Ht : length match text_content doc_data with
                      | [] => []
                      | _ :: _ => nl :: str "Full Text Sample:" ++ nl
                                     :: firstn 2000 (text_content doc_data)
                                     ++ str "..." ++ [nl]
                      end <= 2023).
  { destruct (text_content doc_data) eqn:E; [cbn [length]; lia|]. rewrite <- E.
    cbn [length]. rewrite !length_app. cbn [length]. rewrite !length_app, length_firstn.
    unfold str. cbn [list_ascii_of_string length]. lia. }
  assert (Hb : length match tables doc_data with
                      | [] => []
                      | _ :: _ => nl :: str "Tables Found: "
                                     ++ Str.of_nat (length (tables doc_data))
                                     ++ str " tables" ++ [nl]
                      end <= 23 + length (Str.of_nat (length (tables doc_data)))).
  { destruct (tables doc_data) eqn:E; [cbn [length]; lia|]. rewrite <- E.
    cbn [length]. rewrite !length_app. unfold str.
    cbn [list_ascii_of_string length]. lia. }
  rewrite !length_app. cbn [length]. rewrite !length_app, repeat_length.
  unfold str at 1 2. cbn [list_ascii_of_string length].
  set (n1 := length (flat_map section_block (structured_content doc_data))) in *.
  set (n0 := list_sum _) in *.
  lia.
Qed.

(** X17.  The context built for the model is the header line followed by
    one block for each document, in the mapping's order; a block depends
    on its document only and holds at most 1000 characters of each section
    and 2000 of the full text, so the length of the context is bounded
    whatever the size of the documents' texts. *)
Theorem context_is_bounded (documents : Dict.dict content) (query : text) :
  Assistant._prepare_document_context documents query
  = Assistant.context_header ++ flat_map document_block documents
  /\ Forall (fun item => length (document_block item)
                         <= block_bound (fst item) (snd item)) documents
  /\ length (Assistant._prepare_document_context documents query)
     <= 22 + list_sum (map (fun kv => block_bound (fst kv) (snd kv)) documents).
Proof.
  assert (E : forall context,
             fold_left Assistant.add_document documents context
             = context ++ flat_map document_block documents).
  { induction documents as [|it ds IH]; intro context; cbn [fold_left flat_map].
    - symmetry. apply app_nil_r.
    - rewrite IH, add_document_block. symmetry. apply app_assoc. }
  unfold Assistant._prepare_document_context. rewrite E.
  split; [reflexivity|]. split.
  - apply Forall_forall. intros item _. apply document_block_length.
  - rewrite length_app. change (length Assistant.context_header) with 22.
    apply Nat.add_le_mono_l. clear E.
    induction documents as [|it ds IH]; cbn [flat_map map]; [cbn; lia|].
    rewrite length_app. unfold list_sum in *. cbn [fold_right].
    apply Nat.add_le_mono; [apply document_block_length|exact IH].
Qed.

(** ** The further facts at sample inputs *)

Lemma record_sections_invariant_witness :
  exists c w',
    extract_pdf_content sample_name sample_open (str "results.pdf") empty_world = (Ok c, w')
    /\ NoDup (Dict.keys (structured_content c))
    /\ (forall k, In k (Dict.keys (structured_content c)) -> In k section_labels)
    /\ (forall k v, Dict.get (structured_content c) k = Some v -> Str.strip v = v).
Proof.
  eexists. eexists. split; [vm_compute; reflexivity|].
  eapply (@record_sections_invariant
            sample_name sample_open (str "results.pdf") empty_world _ _).
  vm_compute. reflexivity.
Defined.

Lemma record_tables_witness :
  exists c w',
    extract_pdf_content sample_name tables_open (str "tables.pdf") empty_world = (Ok c, w')
    /\ tables c = [ {| page := 1; data := grid |}; {| page := 2; data := grid |} ]
    /\ Forall (fun e => 1 <= page e <= total_pages c) (tables c)
    /\ StronglySorted le (map page (tables c)).
Proof.
  eexists. eexists. split; [vm_compute; reflexivity|].
  eapply (@record_tables
            sample_name tables_open (str "tables.pdf") empty_world _ _ tables_doc
            [ [ {| extract := Ok grid |} ];
              [ {| extract := Raise (str "bad cell") |}; {| extract := Ok grid |} ] ]).
  - reflexivity.
  - reflexivity.
  - vm_compute. reflexivity.
Defined.

Lemma record_full_text_witness :
  exists c w',
    extract_pdf_content sample_name sample_open (str "results.pdf") empty_world = (Ok c, w')
    /\ text_content c = joined_pages 0 results_texts
    /\ total_pages c = length results_texts
    /\ references c = _extract_references (joined_pages 0 results_texts).
Proof.
  eexists. eexists. split; [vm_compute; reflexivity|].
  eapply (@record_full_text
            sample_name sample_open (str "results.pdf") empty_world _ _
            results_first_doc results_texts).
  - reflexivity.
  - reflexivity.
  - vm_compute. reflexivity.
Defined.

Lemma summary_counts_page_markers_witness :
  Dict.get (get_document_summary
              (sample_name (str "results.pdf"))
              (snd (extract_pdf_content sample_name sample_open (str "results.pdf")
                                        empty_world)))
           (str "word_count")
  = Some (VInt (4 * length results_texts + page_words results_texts)).
Proof.
  eapply (@summary_counts_page_markers
            sample_name sample_open (str "results.pdf") empty_world _ _
            results_first_doc results_texts).
  - reflexivity.
  - reflexivity.
  - vm_compute. reflexivity.
Defined.

Lemma summary_after_extraction_witness :
  get_document_summary
    (str "a.pdf") (snd (extract_pdf_content sample_name sample_open (str "broken.pdf")
                                            sample_world))
  = get_document_summary (str "a.pdf") sample_world.
Proof.
  eapply (proj2 (@summary_after_extraction
                   sample_name sample_open (str "broken.pdf") sample_world _)).
  vm_compute. reflexivity.
Defined.

Lemma reprocessing_is_idempotent_witness :
  exists c w1 w2,
    extract_pdf_content sample_name sample_open (str "methods.pdf") empty_world = (Ok c, w1)
    /\ extract_pdf_content sample_name sample_open (str "methods.pdf") w1 = (Ok c, w2)
    /\ processed_docs w2 = processed_docs w1.
Proof.
  eexists. eexists.
  assert (H : extract_pdf_content sample_name sample_open (str "methods.pdf") empty_world
              = (Ok _, _)) by (vm_compute; reflexivity).
  destruct (@reprocessing_is_idempotent
              sample_name sample_open (str "methods.pdf") empty_world _ _ H)
    as [w2 [H1 [H2 _]]].
  exists w2. split; [exact H|]. split; [exact H1|exact H2].
Defined.

Lemma history_after_many_witness :
  fold_left (fun h e => Agent._add_to_history h (Agent.query e) (Agent.response e))
            (map numbered_exchange (seq 2 11)) [numbered_exchange 1]
  = map numbered_exchange (seq 3 10).
Proof.
  rewrite (proj1 (@history_after_many [numbered_exchange 1]
                                      (map numbered_exchange (seq 2 11))
                                      ltac:(cbn; lia))).
  reflexivity.
Defined.


Lemma search_terms_are_clean_witness :
  fst (Assistant._extract_search_terms sample_model (str "papers on graph nets") new_agent)
  = filter (fun c => Char.is_word c || Char.is_space c)
           (Str.strip (str " graph-nets, (2020)! "))
  /\ fst (Assistant._extract_search_terms sample_model (str "no such papers") new_agent)
     = str "no such papers".
Proof.
  split.
  - apply (proj1 (@search_terms_are_clean sample_model (str "papers on graph nets")
                                          new_agent)
                 (str " graph-nets, (2020)! ")).
    vm_compute. reflexivity.
  - apply (proj2 (@search_terms_are_clean sample_model (str "no such papers") new_agent)
                 (str "quota exceeded")).
    vm_compute. reflexivity.
Defined.

Lemma search_results_identify_papers_witness :
  map Assistant.info_title
      (fst (Assistant.search_arxiv_papers sample_model sample_arxiv
                                          (str "papers on graph nets") 5 new_agent))
  = [str "Graph nets"]
  /\ fst (Assistant.search_arxiv_papers sample_model sample_arxiv
                                        (str "no such papers") 5 new_agent)
     = [].
Proof.
  split.
  - apply (proj1 (proj1 (@search_results_identify_papers
                           sample_model sample_arxiv (str "papers on graph nets") 5
                           new_agent)
                        [sample_paper] ltac:(vm_compute; reflexivity))).
  - apply (proj2 (@search_results_identify_papers
                    sample_model sample_arxiv (str "no such papers") 5 new_agent)
                 (str "timeout")).
    vm_compute. reflexivity.
Defined.
